(** * FlowX validation pipeline: a shallow embedding of [app/crawler]

    The development follows the Python sources
    - [app/crawler/validator.py]            (rule preparation, duplicate index,
                                             row validator, chunk API),
    - [app/crawler/validation_pipeline.py]  (chunk scheduler and run driver),
    - [app/crawler/excel_writer.py]         (result writer entry point).

    Python values are modelled by an inductive type of scalars, dictionaries
    whose iteration order is observable (rows, rule sets) by association
    lists in insertion order, dictionaries used only through lookups (the
    duplicate index) by [gmap], exceptions by a [result] type, and the
    collaborator calls of the run driver by a trace of events. *)

From Stdlib Require Import ZArith String Ascii List Permutation Sorted Lia.
From Stdlib Require Import Floats.SpecFloat DecimalString.
From stdpp Require Import gmap strings list fin_maps sorting.

Local Open Scope string_scope.

(* ===================================================================== *)
(** * Python text: [str.lower], [str.strip], [in], [str.join]            *)
(* ===================================================================== *)

(** Strings are sequences of code points below 256, one per [ascii]. *)
Module Text.

Definition code (c : ascii) : N := N_of_ascii c.

Definition between (lo hi n : N) : bool := (lo <=? n)%N && (n <=? hi)%N.

(** [str.isspace] on one code point: U+0009..000D, U+001C..0020, U+0085,
    U+00A0. *)
Definition is_space (c : ascii) : bool :=
  let n := code c in
  between 9 13 n || between 28 32 n || (n =? 133)%N || (n =? 160)%N.

Fixpoint lstrip (s : string) : string :=
  match s with
  | EmptyString => EmptyString
  | String c s' => if is_space c then lstrip s' else s
  end.

Fixpoint rstrip (s : string) : string :=
  match s with
  | EmptyString => EmptyString
  | String c s' =>
      match rstrip s' with
      | EmptyString => if is_space c then EmptyString else String c EmptyString
      | r => String c r
      end
  end.

(** [s.strip()] *)
Definition strip (s : string) : string := rstrip (lstrip s).

(** [str.lower] on one code point: A..Z and the Latin-1 capitals
    U+00C0..00DE except the multiplication sign U+00D7. *)
Definition lower_char (c : ascii) : ascii :=
  let n := code c in
  if between 65 90 n || (between 192 222 n && negb (n =? 215)%N)
  then ascii_of_N (n + 32) else c.

(** [s.lower()] *)
Fixpoint lower (s : string) : string :=
  match s with
  | EmptyString => EmptyString
  | String c s' => String (lower_char c) (lower s')
  end.

(** [needle in hay] *)
Fixpoint contains (needle hay : string) : bool :=
  String.prefix needle hay ||
  match hay with
  | EmptyString => false
  | String _ hay' => contains needle hay'
  end.

(** [sep.join(parts)] *)
Definition join (sep : string) (parts : list string) : string :=
  String.concat sep parts.

End Text.

(* ===================================================================== *)
(** * Python scalars, exceptions and the run-time library                *)
(* ===================================================================== *)

(** The objects of the [datetime] module that a cell can hold:
    [datetime.date], naive [datetime.datetime] and [datetime.time], and
    [datetime.timedelta] by its normalised fields. *)
Inductive pydate : Type :=
| PyDate (year month day : Z)
| PyDatetime (year month day hour minute second microsecond : Z)
| PyTime (hour minute second microsecond : Z)
| PyTimedelta (days seconds microseconds : Z).

(** A cell value, as the record sources produce them: [None], [str], [bool],
    [int], [float] (a binary64 datum) and the objects of the [datetime]
    module. *)
Inductive value : Type :=
| VNone
| VStr (s : string)
| VBool (b : bool)
| VInt (n : Z)
| VFloat (x : spec_float)
| VDate (d : pydate).

(** The exceptions that the modelled code and the library calls raise. *)
Inductive exn : Type :=
| ValueError (msg : string)
| TypeError (msg : string)
| OverflowError
| InvalidOperation
| KeyError (key : string)
| AttributeError (msg : string)
| ReError (pattern : string).

Inductive result (A : Type) : Type :=
| Ok (a : A)
| Raise (e : exn).
Arguments Ok {A} a.
Arguments Raise {A} e.

(** [result] is the exception monad; stdpp's [x ← m; k] sequences two
    computations and stops at the first [Raise]. *)
Global Instance result_ret : MRet result := fun A a => Ok a.
Global Instance result_bind : MBind result := fun A B k m =>
  match m with
  | Ok a => k a
  | Raise e => Raise e
  end.

(** [for x in l: acc = body(acc, x)], where the body may raise. *)
Fixpoint foldM {A S} (body : S -> A -> result S) (l : list A) (acc : S) : result S :=
  match l with
  | [] => Ok acc
  | x :: l' => acc' ← body acc x; foldM body l' acc'
  end.

(** A compiled pattern object is determined by the pattern it was compiled
    from. *)
Inductive re_pattern : Type := Compiled (pattern : string).

(** The library functions whose behaviour on text is fixed by the Python
    run time and not by this repository. Each [*_literal] tells whether the
    conversion of a string returns (true) or raises (false). *)
Class PyRuntime : Type := {
  re_valid : string -> bool;            (* re.compile(p) returns *)
  re_match : re_pattern -> string -> bool;   (* rc.match(text) is not None *)
  repr_float : spec_float -> string;    (* str(x) for a float *)
  repr_date : pydate -> string;         (* str(d) for an object of [datetime] *)
  int_literal : string -> bool;         (* int(s) *)
  float_literal : string -> bool;       (* float(s) *)
  decimal_literal : string -> bool;     (* Decimal(s) *)
  iso_literal : string -> bool;         (* datetime.fromisoformat(s) *)
}.

Section Builtins.
Context {rt : PyRuntime}.

(** [re.compile(pattern)] *)
Definition re_compile (pattern : string) : result re_pattern :=
  if re_valid pattern then Ok (Compiled pattern) else Raise (ReError pattern).

(** [str(n)] for an [int]. The ints of a row are those a record source
    parsed from text, so they are within the limit that the interpreter
    puts on the conversion between [int] and [str]; [Dyn.py_str] is the
    conversion of an [int] of any length, which raises beyond the limit. *)
Definition repr_int (n : Z) : string :=
  NilZero.string_of_int (Z.to_int n).

(** [str(value)] *)
Definition py_str (v : value) : string :=
  match v with
  | VNone => "None"
  | VStr s => s
  | VBool true => "True"
  | VBool false => "False"
  | VInt n => repr_int n
  | VFloat x => repr_float x
  | VDate d => repr_date d
  end.

(** [int(value)]: only whether it returns matters to the validator. *)
Definition py_int (v : value) : result unit :=
  match v with
  | VNone => Raise (TypeError "int() argument must be a string, a bytes-like object or a real number")
  | VStr s => if int_literal s then Ok tt else Raise (ValueError "invalid literal for int()")
  | VBool _ | VInt _ => Ok tt
  | VFloat S754_nan => Raise (ValueError "cannot convert float NaN to integer")
  | VFloat (S754_infinity _) => Raise OverflowError
  | VFloat _ => Ok tt
  | VDate _ => Raise (TypeError "int() argument must be a string, a bytes-like object or a real number")
  end.

(** The least magnitude of an [int] that rounds to a binary64 above the
    largest finite one: 2^1024 - 2^970. *)
Definition float_overflow_bound : Z := 2 ^ 1024 - 2 ^ 970.

(** [float(value)] *)
Definition py_float (v : value) : result unit :=
  match v with
  | VNone => Raise (TypeError "float() argument must be a string or a real number")
  | VStr s => if float_literal s then Ok tt else Raise (ValueError "could not convert string to float")
  | VBool _ | VFloat _ => Ok tt
  | VInt n => if (Z.abs n <? float_overflow_bound)%Z then Ok tt else Raise OverflowError
  | VDate _ => Raise (TypeError "float() argument must be a string or a real number")
  end.

(** [Decimal(text)] *)
Definition py_decimal (text : string) : result unit :=
  if decimal_literal text then Ok tt else Raise InvalidOperation.

(** [datetime.fromisoformat(text)] *)
Definition fromisoformat (text : string) : result unit :=
  if iso_literal text then Ok tt else Raise (ValueError "Invalid isoformat string").

(** [isinstance(value, (datetime, date))] *)
Definition is_date (v : value) : bool :=
  match v with
  | VDate (PyDate _ _ _) | VDate (PyDatetime _ _ _ _ _ _ _) => true
  | _ => false
  end.

(** [value is None] *)
Definition is_none (v : value) : bool :=
  match v with VNone => true | _ => false end.

(** [value == ""]: only the empty [str] equals the empty string. *)
Definition eq_empty_str (v : value) : bool :=
  match v with VStr EmptyString => true | _ => false end.

End Builtins.

(* ===================================================================== *)
(** * Python dictionaries                                                *)
(* ===================================================================== *)

(** A [dict] with [str] keys whose iteration order is observed: the items in
    insertion order. Assigning to a key that is present replaces its value
    in place; assigning to a new key appends. *)
Section OrderedDict.
Context {V : Type}.

Fixpoint od_get (d : list (string * V)) (k : string) : option V :=
  match d with
  | [] => None
  | (k', v) :: d' => if String.eqb k' k then Some v else od_get d' k
  end.

Fixpoint od_set (d : list (string * V)) (k : string) (v : V) : list (string * V) :=
  match d with
  | [] => [(k, v)]
  | (k', v') :: d' =>
      if String.eqb k' k then (k', v) :: d' else (k', v') :: od_set d' k v
  end.

(** [d[k]] *)
Definition od_getitem (d : list (string * V)) (k : string) : result V :=
  match od_get d k with
  | Some v => Ok v
  | None => Raise (KeyError k)
  end.

(** A well-formed dictionary holds each key once. *)
Definition od_wf (d : list (string * V)) : Prop := NoDup (map fst d).

End OrderedDict.

(** A row: lowercase field name to cell value. *)
Abbreviation row := (list (string * value)).

(** [d.get(k)], which yields [None] for an absent key. *)
Definition row_get (d : row) (k : string) : value :=
  default VNone (od_get d k).

(** ** Keys of a value-keyed dictionary

    Python looks a key up by hash and [==]. On scalars [==] identifies
    [True], [1] and [1.0] (numbers compare by exact value across [bool],
    [int] and [float]) and nothing else across types. [value_key] sends a
    value to the canonical representative of its [==] class, so that a
    dictionary keyed by tuples of values is a finite map keyed by lists of
    canonical keys. A NaN is only ever equal to itself as an object; neither
    record source produces one. *)
Inductive num_key : Type :=
| NkFin (odd exp : Z)        (* odd * 2^exp, or 0 *)
| NkInf (negative : bool)
| NkNaN.

Inductive vkey : Type :=
| KNone
| KStr (s : string)
| KNum (n : num_key)
| KDate (d : pydate).

(** [p = odd * 2^k] with [odd] odd. *)
Fixpoint split_pow2 (p : positive) : positive * Z :=
  match p with
  | xO p' => let '(o, k) := split_pow2 p' in (o, Z.succ k)
  | _ => (p, 0%Z)
  end.

Definition int_key (n : Z) : num_key :=
  match n with
  | Z0 => NkFin 0 0
  | Zpos p => let '(o, k) := split_pow2 p in NkFin (Zpos o) k
  | Zneg p => let '(o, k) := split_pow2 p in NkFin (Zneg o) k
  end.

Definition float_key (x : spec_float) : num_key :=
  match x with
  | S754_zero _ => NkFin 0 0
  | S754_infinity s => NkInf s
  | S754_nan => NkNaN
  | S754_finite s m e =>
      let '(o, k) := split_pow2 m in
      NkFin (if s then Zneg o else Zpos o) (e + k)
  end.

Definition value_key (v : value) : vkey :=
  match v with
  | VNone => KNone
  | VStr s => KStr s
  | VBool b => KNum (int_key (if b then 1 else 0))
  | VInt n => KNum (int_key n)
  | VFloat x => KNum (float_key x)
  | VDate d => KDate d
  end.


Global Instance pydate_eq_dec : EqDecision pydate.
Proof. solve_decision. Defined.
Global Instance num_key_eq_dec : EqDecision num_key.
Proof. solve_decision. Defined.
Global Instance vkey_eq_dec : EqDecision vkey.
Proof. solve_decision. Defined.

Global Instance pydate_countable : Countable pydate.
Proof.
  refine (inj_countable'
    (fun d => match d with
              | PyDate y m d => inl (inl (y, m, d))
              | PyDatetime y m d hh mi ss us => inl (inr (y, m, d, hh, mi, ss, us))
              | PyTime hh mi ss us => inr (inl (hh, mi, ss, us))
              | PyTimedelta d ss us => inr (inr (d, ss, us))
              end)
    (fun e => match e with
              | inl (inl (y, m, d)) => PyDate y m d
              | inl (inr (y, m, d, hh, mi, ss, us)) => PyDatetime y m d hh mi ss us
              | inr (inl (hh, mi, ss, us)) => PyTime hh mi ss us
              | inr (inr (d, ss, us)) => PyTimedelta d ss us
              end) _).
  by intros [].
Defined.

Global Instance num_key_countable : Countable num_key.
Proof.
  refine (inj_countable'
    (fun n => match n with
              | NkFin o e => inl (o, e)
              | NkInf s => inr (Some s)
              | NkNaN => inr None
              end)
    (fun e => match e with
              | inl (o, e) => NkFin o e
              | inr (Some s) => NkInf s
              | inr None => NkNaN
              end) _).
  by intros [].
Defined.

Global Instance vkey_countable : Countable vkey.
Proof.
  refine (inj_countable'
    (fun k => match k with
              | KNone => inl None
              | KStr s => inl (Some s)
              | KNum n => inr (inl n)
              | KDate d => inr (inr d)
              end)
    (fun e => match e with
              | inl None => KNone
              | inl (Some s) => KStr s
              | inr (inl n) => KNum n
              | inr (inr d) => KDate d
              end) _).
  by intros [].
Defined.

(** [a == b] on scalars. *)
Definition py_eqb (a b : value) : bool :=
  bool_decide (value_key a = value_key b).

(** The dictionary key of a tuple of values. *)
Definition tuple_key (t : list value) : list vkey := map value_key t.

(** The duplicate index: key tuple to (count, first row ordinal). *)
Abbreviation dup_index := (gmap (list vkey) (nat * nat)).

(** [enumerate(l, start)] *)
Fixpoint enumerate {A} (start : nat) (l : list A) : list (nat * A) :=
  match l with
  | [] => []
  | x :: l' => (start, x) :: enumerate (S start) l'
  end.

(* ===================================================================== *)
(** * validator.py                                                       *)
(* ===================================================================== *)

(** One entry of the ["columns"] object of a rule document of the
    documented shape: an object with the members ["required"], ["type"] and
    ["regex"] and no other. [raw_required] is the truth value of its
    ["required"] member, [raw_type] its ["type"] when that is a string,
    [raw_regex] its ["regex"] when that is a string. The section on input
    of any shape drops the typing: there a rule is any stored JSON
    value. *)
Record raw_rule : Type := {
  raw_required : bool;
  raw_type : option string;
  raw_regex : option string;
}.

(** A prepared rule: the copy [dict(rule)] with ["_regex_compiled"] added
    when the pattern is non-empty. *)
Record rule : Type := {
  required : bool;
  type : option string;
  regex : option string;
  _regex_compiled : option re_pattern;
}.

(** A rule document; [None] is an absent member. *)
Record rules_doc : Type := {
  columns : option (list (string * raw_rule));
  unique_constraints : option (list string);
  unique_mode : option string;
}.

Abbreviation ruleset := (list (string * rule)).

Definition is_nil {A} (l : list A) : bool :=
  match l with [] => true | _ => false end.

Section Validator.
Context {rt : PyRuntime}.

(** ** Rules loading and preparation *)

(** The body of the loop of [prep_rules_from_dict] for one rule of the
    documented shape; [Dyn.prep_rule] is the body on any stored value, and
    agrees with this one on the shape ([prep_rule_refines]). *)
Definition prep_rule (raw : raw_rule) : result rule :=
  let r := {| required := raw_required raw; type := raw_type raw;
              regex := raw_regex raw; _regex_compiled := None |} in
  match raw_regex raw with
  | Some pattern =>
      if negb (String.eqb pattern "") then
        rc ← re_compile pattern;
        Ok {| required := required r; type := type r; regex := regex r;
              _regex_compiled := Some rc |}
      else Ok r
  | None => Ok r
  end.

(** [prep_rules_from_dict] on a rule document of the documented shape,
    where only a pattern can make it raise; [Dyn.prep_rules_from_dict] is
    the function on any JSON value, and agrees with this one on the shape
    ([prep_rules_refines]). *)
Definition prep_rules_from_dict (cfg : rules_doc)
  : result (ruleset * list string * string) :=
  let rules_raw := default [] (columns cfg) in
  let unique_constraints := map Text.lower (default [] (unique_constraints cfg)) in
  let unique_mode := Text.lower (default "ignore" (unique_mode cfg)) in
  rules ← foldM (fun rules '(field, raw) =>
                   r ← prep_rule raw;
                   Ok (od_set rules (Text.lower field) r))
                rules_raw [];
  Ok (rules, unique_constraints, unique_mode).

(** ** Duplicate map (one pass) *)

(** [tuple(row.get(col) for col in unique_constraints)] as a dictionary
    key. *)
Definition row_key (r : row) (unique_constraints : list string) : list vkey :=
  tuple_key (map (row_get r) unique_constraints).

(** The [enumerate] loop filling [counts] and [first_seen]. *)
Definition index_step (unique_constraints : list string)
    (acc : gmap (list vkey) nat * gmap (list vkey) nat) (item : nat * row)
  : gmap (list vkey) nat * gmap (list vkey) nat :=
  let '(counts, first_seen) := acc in
  let '(idx, r) := item in
  let key := row_key r unique_constraints in
  let counts := <[key := default 0 (counts !! key) + 1]> counts in
  let first_seen :=
    match first_seen !! key with
    | None => <[key := idx]> first_seen
    | Some _ => first_seen
    end in
  (counts, first_seen).

Definition build_duplicate_index (records : list row)
    (unique_constraints : list string) : result dup_index :=
  if is_nil unique_constraints then Ok ∅
  else
    let '(counts, first_seen) :=
      fold_left (index_step unique_constraints) (enumerate 1 records) (∅, ∅) in
    foldM (fun (dup_map : dup_index) '(k, cnt) =>
             match first_seen !! k with
             | Some first => Ok (<[k := (cnt, first)]> dup_map)
             | None => Raise (KeyError "first_seen")
             end)
          (map_to_list counts) ∅.

(** ** Per row validation *)

(** [{k.lower(): v for k, v in row.items()}] *)
Definition normalize (r : row) : row :=
  fold_left (fun acc '(k, v) => od_set acc (Text.lower k) v) r [].

Definition typ_is (typ : option string) (name : string) : bool :=
  match typ with
  | Some t => String.eqb t name
  | None => false
  end.

(** [f"{typ}"] *)
Definition typ_text (typ : option string) : string := default "None" typ.

(** The body of the [try] block: the conversion chosen by [typ]. *)
Definition coerce (typ : option string) (v : value) : result unit :=
  if typ_is typ "int" then py_int v
  else if typ_is typ "float" then py_float v
  else if typ_is typ "decimal" then py_decimal (py_str v)
  else if typ_is typ "date" then
    (if negb (is_date v) then fromisoformat (py_str v) else Ok tt)
  else Ok tt.

(** [value is None or str(value).strip() == ""] *)
Definition blank (v : value) : bool :=
  is_none v || String.eqb (Text.strip (py_str v)) "".

Definition msg_required (field : string) : string := field ++ " is required".
Definition msg_invalid (field : string) (typ : option string) : string :=
  field ++ " invalid " ++ typ_text typ.
Definition msg_pattern (field : string) : string := field ++ " does not match pattern".

(** One iteration of the loop over [rules.items()]: the violations that
    the rule of [field] appends to [errors]. *)
Definition check_field (normalized : row) (field : string) (r : rule)
  : result (list string) :=
  let v := row_get normalized field in
  if required r && blank v then Ok [msg_required field]
  else if is_none v || eq_empty_str v then Ok []
  else
    match coerce (type r) v with
    | Raise _ => Ok [msg_invalid field (type r)]
    | Ok _ =>
        match _regex_compiled r with
        | Some rc =>
            if negb (re_match rc (py_str v)) then Ok [msg_pattern field] else Ok []
        | None => Ok []
        end
    end.

(** The field-level loop. *)
Definition field_errors (normalized : row) (rules : ruleset) : result (list string) :=
  foldM (fun errors '(field, r) =>
           es ← check_field normalized field r;
           Ok (errors ++ es)%list)
        rules [].

Definition msg_duplicate (unique_constraints : list string) : string :=
  "Duplicate based on " ++ Text.join ", " unique_constraints.

(** The duplicate policy: the violations it appends to [errors]. *)
Definition duplicate_errors (normalized : row) (row_index : nat)
    (index : dup_index) (unique_constraints : list string) (unique_mode : string)
  : list string :=
  if negb (is_nil unique_constraints) && negb (String.eqb unique_mode "ignore") then
    let key := row_key normalized unique_constraints in
    let '(cnt, first_idx) := default (1, row_index) (index !! key) in
    if (1 <? cnt)%nat then
      if String.eqb unique_mode "fail_all" then [msg_duplicate unique_constraints]
      else if String.eqb unique_mode "keep_first" then
        (if negb (row_index =? first_idx)%nat then [msg_duplicate unique_constraints] else [])
      else []
    else []
  else [].

(** The list [errors] at the end of [_validate_row]. *)
Definition row_errors (r : row) (row_index : nat) (rules : ruleset)
    (index : dup_index) (unique_constraints : list string) (unique_mode : string)
  : result (list string) :=
  let normalized := normalize r in
  errors ← field_errors normalized rules;
  Ok (errors ++ duplicate_errors normalized row_index index unique_constraints unique_mode)%list.

Definition verdict (errors : list string) : string :=
  if is_nil errors then "Success" else "Fail".

Definition remarks (errors : list string) : string :=
  if negb (is_nil errors) then Text.join ", " errors else "Validated Successfully".

Definition _validate_row (r : row) (row_index : nat) (rules : ruleset)
    (index : dup_index) (unique_constraints : list string) (unique_mode : string)
  : result row :=
  errors ← row_errors r row_index rules index unique_constraints unique_mode;
  let normalized := normalize r in
  let normalized := od_set normalized "Valid" (VStr (verdict errors)) in
  let normalized := od_set normalized "Remarks" (VStr (remarks errors)) in
  Ok normalized.

(** ** Chunk API *)

(** [vr["Valid"] == "Success"] *)
Definition is_success (vr : row) : result bool :=
  valid ← od_getitem vr "Valid";
  Ok (py_eqb valid (VStr "Success")).

Definition validate_chunk (records_slice : list row) (start_index : nat)
    (rules : ruleset) (index : dup_index)
    (unique_constraints : list string) (unique_mode : string)
  : result (list row * nat * nat) :=
  '(validated, success, failure, _) ←
    foldM (fun '(validated, success, failure, idx) r =>
             vr ← _validate_row r idx rules index unique_constraints unique_mode;
             ok ← is_success vr;
             if ok : bool
             then Ok ((validated ++ [vr])%list, success + 1, failure, idx + 1)
             else Ok ((validated ++ [vr])%list, success, failure + 1, idx + 1))
          records_slice ([], 0, 0, start_index);
  Ok (validated, success, failure).

End Validator.

(* ===================================================================== *)
(** * validator.py on input of any shape                                 *)
(* ===================================================================== *)

(** The definitions of the previous section take their input in the shape
    that the rule documents and the record sources are documented to have:
    a rule is three typed members, an [int] converts to text. Python does
    not check either. This section embeds the same functions of
    [validator.py] on what can reach them: a rule document that is any
    JSON value, a rule that is any [dict], with whatever members were
    stored, and an [int] of any length. Where a name is the one of the
    previous section, the module [Dyn] holds the version of this
    section. *)

(** A JSON value as the database driver hands it over: [None], [bool],
    [int], [float], [str], [list] and [dict] with [str] keys. *)
#[warnings="-register-all"]
Inductive json : Type :=
| JNull
| JBool (b : bool)
| JInt (n : Z)
| JFloat (x : spec_float)
| JStr (s : string)
| JArr (items : list json)
| JObj (members : list (string * json)).

(** A value of a prepared rule: a member as stored, or the pattern that
    [re.compile] returned. *)
Inductive member : Type :=
| Stored (j : json)
| Pattern (rc : re_pattern).

(** [sys.int_info.default_max_str_digits]: the interpreter (CPython 3.11,
    which the repository needs for [datetime.UTC], and later) refuses to
    convert an [int] of more decimal digits to [str]. The application does
    not change the limit. *)
Definition int_max_str_digits : Z := 4300.

Definition too_long (n : Z) : bool := (10 ^ int_max_str_digits <=? Z.abs n)%Z.
Arguments too_long : simpl never.

(** [for x in l: out.append(f(x))], where [f] may raise. *)
Fixpoint mapM {A B} (f : A -> result B) (l : list A) : result (list B) :=
  match l with
  | [] => Ok []
  | x :: l' => y ← f x; ys ← mapM f l'; Ok (y :: ys)
  end.

(** [str(value)] for a value that converts: the function of the previous
    section. *)
Definition text_of `{PyRuntime} (v : value) : string := py_str v.

Module Dyn.

(** A [dict] of rule members, by its [str] keys: the validator looks up no
    other key. *)
Definition rule : Type := list (string * member).

Definition ruleset : Type := list (string * rule).

(** [type(j).__name__] *)
Definition type_name (j : json) : string :=
  match j with
  | JNull => "NoneType"
  | JBool _ => "bool"
  | JInt _ => "int"
  | JFloat _ => "float"
  | JStr _ => "str"
  | JArr _ => "list"
  | JObj _ => "dict"
  end.

(** [bool(j)] *)
Definition truthy (j : json) : bool :=
  match j with
  | JNull => false
  | JBool b => b
  | JInt n => negb (n =? 0)%Z
  | JFloat (S754_zero _) => false
  | JFloat _ => true
  | JStr s => negb (String.eqb s "")
  | JArr items => negb (is_nil items)
  | JObj members => negb (is_nil members)
  end.

(** [bool(rule.get(name))]: an absent member is [None]. *)
Definition member_truthy (m : option member) : bool :=
  match m with
  | None => false
  | Some (Stored j) => truthy j
  | Some (Pattern _) => true
  end.

Definition no_attribute (j : json) (name : string) : exn :=
  AttributeError ("'" ++ type_name j ++ "' object has no attribute '" ++ name ++ "'").

Definition not_iterable (j : json) : exn :=
  TypeError ("'" ++ type_name j ++ "' object is not iterable").

(** [cfg.get(name, fallback)] *)
Definition get (cfg : json) (name : string) (fallback : json) : result json :=
  match cfg with
  | JObj members => Ok (default fallback (od_get members name))
  | _ => Raise (no_attribute cfg "get")
  end.

(** [j.items()] *)
Definition items (j : json) : result (list (string * json)) :=
  match j with
  | JObj members => Ok members
  | _ => Raise (no_attribute j "items")
  end.

(** The characters of a [str], each a [str]. *)
Definition characters (s : string) : list json :=
  map (fun c => JStr (String c "")) (list_ascii_of_string s).

(** [list(j)]: what iterating over [j] yields. *)
Definition iterate (j : json) : result (list json) :=
  match j with
  | JArr items => Ok items
  | JStr s => Ok (characters s)
  | JObj members => Ok (map (fun kv => JStr (fst kv)) members)
  | _ => Raise (not_iterable j)
  end.

(** [c.lower()] *)
Definition lower (c : json) : result string :=
  match c with
  | JStr s => Ok (Text.lower s)
  | _ => Raise (no_attribute c "lower")
  end.

(** One element of the sequence given to [dict]: it must be a sequence of
    length two, a key and a value. *)
Definition pair_of (i : nat) (item : json) : result (json * json) :=
  match iterate item with
  | Ok [k; v] => Ok (k, v)
  | Ok l =>
      Raise (ValueError ("dictionary update sequence element #" ++ repr_int (Z.of_nat i)
                         ++ " has length " ++ repr_int (Z.of_nat (length l))
                         ++ "; 2 is required"))
  | Raise _ =>
      Raise (TypeError ("cannot convert dictionary update sequence element #"
                        ++ repr_int (Z.of_nat i) ++ " to a sequence"))
  end.

(** [hash(k)] *)
Definition hashable (k : json) : result unit :=
  match k with
  | JArr _ | JObj _ => Raise (TypeError ("unhashable type: '" ++ type_name k ++ "'"))
  | _ => Ok tt
  end.

(** [dict(j)]. A [dict] is copied; any other iterable is read as a
    sequence of key-value pairs. *)
Definition dict (j : json) : result rule :=
  match j with
  | JObj members => Ok (map (fun kv => (fst kv, Stored (snd kv))) members)
  | _ =>
      elements ← iterate j;
      foldM (fun (r : rule) '(i, item) =>
               '(k, v) ← pair_of i item;
               _ ← hashable k;
               Ok (match k with
                   | JStr name => od_set r name (Stored v)
                   | _ => r
                   end))
            (enumerate 0 elements) []
  end.

Section Dyn.
Context {rt : PyRuntime}.

(** [re.compile(regex)] *)
Definition compile (regex : member) : result re_pattern :=
  match regex with
  | Stored (JStr pattern) => re_compile pattern
  | Stored (JArr _) => Raise (TypeError "unhashable type: 'list'")
  | Stored (JObj _) => Raise (TypeError "unhashable type: 'dict'")
  | Stored _ => Raise (TypeError "first argument must be string or compiled pattern")
  | Pattern rc => Ok rc
  end.

(** The body of the loop of [prep_rules_from_dict] for one rule. *)
Definition prep_rule (raw : json) : result rule :=
  r ← dict raw;
  match od_get r "regex" with
  | Some regex =>
      if member_truthy (Some regex) then
        rc ← compile regex;
        Ok (od_set r "_regex_compiled" (Pattern rc))
      else Ok r
  | None => Ok r
  end.

Definition prep_rules_from_dict (cfg : json)
  : result (ruleset * list string * string) :=
  rules_raw ← get cfg "columns" (JObj []);
  constraints ← get cfg "unique_constraints" (JArr []);
  constraints ← iterate constraints;
  unique_constraints ← mapM lower constraints;
  mode ← get cfg "unique_mode" (JStr "ignore");
  unique_mode ← lower mode;
  columns ← items rules_raw;
  rules ← foldM (fun (rules : ruleset) '(field, raw) =>
                   r ← prep_rule raw;
                   Ok (od_set rules (Text.lower field) r))
                columns [];
  Ok (rules, unique_constraints, unique_mode).

(** [str(value)] *)
Definition py_str (v : value) : result string :=
  match v with
  | VInt n =>
      if too_long n then
        Raise (ValueError ("Exceeds the limit (4300 digits) for integer string "
                           ++ "conversion; use sys.set_int_max_str_digits() "
                           ++ "to increase the limit"))
      else Ok (text_of v)
  | _ => Ok (text_of v)
  end.

(** [value is None or str(value).strip() == ""] *)
Definition blank (v : value) : result bool :=
  if is_none v then Ok true
  else s ← py_str v; Ok (String.eqb (Text.strip s) "").

(** [rule.get("type")], when it is a [str]: no other value equals one of
    the type names. *)
Definition declared_type (r : rule) : option string :=
  match od_get r "type" with
  | Some (Stored (JStr t)) => Some t
  | _ => None
  end.

(** The body of the [try] block. *)
Definition coerce (typ : option string) (v : value) : result unit :=
  if typ_is typ "int" then py_int v
  else if typ_is typ "float" then py_float v
  else if typ_is typ "decimal" then (s ← py_str v; py_decimal s)
  else if typ_is typ "date" then
    (if negb (is_date v) then s ← py_str v; fromisoformat s else Ok tt)
  else if typ_is typ "str" then (_ ← py_str v; Ok tt)
  else Ok tt.

(** One iteration of the loop over [rules.items()]: the violations that
    the rule of [field] appends to [errors], or the exception that
    escapes. The [try] block holds the conversions only. *)
Definition check_field (normalized : row) (field : string) (r : rule)
  : result (list string) :=
  let v := row_get normalized field in
  required_blank ←
    (if member_truthy (od_get r "required") then blank v else Ok false);
  if required_blank : bool then Ok [msg_required field]
  else if is_none v || eq_empty_str v then Ok []
  else
    match coerce (declared_type r) v with
    | Raise _ => Ok [msg_invalid field (declared_type r)]
    | Ok _ =>
        match od_get r "_regex_compiled" with
        | Some (Pattern rc) =>
            s ← py_str v;
            if negb (re_match rc s) then Ok [msg_pattern field] else Ok []
        | Some (Stored j) =>
            if truthy j then Raise (no_attribute j "match") else Ok []
        | None => Ok []
        end
    end.

(** The field-level loop. *)
Definition field_errors (normalized : row) (rules : ruleset) : result (list string) :=
  foldM (fun errors '(field, r) =>
           es ← check_field normalized field r;
           Ok (errors ++ es)%list)
        rules [].

(** The list [errors] at the end of [_validate_row]. *)
Definition row_errors (r : row) (row_index : nat) (rules : ruleset)
    (index : dup_index) (unique_constraints : list string) (unique_mode : string)
  : result (list string) :=
  let normalized := normalize r in
  errors ← field_errors normalized rules;
  Ok (errors ++ duplicate_errors normalized row_index index unique_constraints unique_mode)%list.

Definition _validate_row (r : row) (row_index : nat) (rules : ruleset)
    (index : dup_index) (unique_constraints : list string) (unique_mode : string)
  : result row :=
  errors ← row_errors r row_index rules index unique_constraints unique_mode;
  let normalized := normalize r in
  let normalized := od_set normalized "Valid" (VStr (verdict errors)) in
  let normalized := od_set normalized "Remarks" (VStr (remarks errors)) in
  Ok normalized.

Definition validate_chunk (records_slice : list row) (start_index : nat)
    (rules : ruleset) (index : dup_index)
    (unique_constraints : list string) (unique_mode : string)
  : result (list row * nat * nat) :=
  '(validated, success, failure, _) ←
    foldM (fun '(validated, success, failure, idx) r =>
             vr ← _validate_row r idx rules index unique_constraints unique_mode;
             ok ← is_success vr;
             if ok : bool
             then Ok ((validated ++ [vr])%list, success + 1, failure, idx + 1)
             else Ok ((validated ++ [vr])%list, success, failure + 1, idx + 1))
          records_slice ([], 0, 0, start_index);
  Ok (validated, success, failure).

End Dyn.

End Dyn.

(** ** The documented shape inside the other *)

(** A rule document of the documented shape as the JSON value it is. *)
Definition json_of_raw_rule (raw : raw_rule) : json :=
  JObj ([("required", JBool (raw_required raw))]
        ++ match raw_type raw with Some t => [("type", JStr t)] | None => [] end
        ++ match raw_regex raw with Some p => [("regex", JStr p)] | None => [] end).

Definition json_of_rules_doc (cfg : rules_doc) : json :=
  JObj (match columns cfg with
        | Some cols =>
            [("columns", JObj (map (fun kv => (fst kv, json_of_raw_rule (snd kv))) cols))]
        | None => []
        end
        ++ match unique_constraints cfg with
           | Some ucs => [("unique_constraints", JArr (map JStr ucs))]
           | None => []
           end
        ++ match unique_mode cfg with
           | Some um => [("unique_mode", JStr um)]
           | None => []
           end).

(** A prepared rule of the documented shape as the [dict] it is. *)
Definition dict_of_rule (rl : rule) : Dyn.rule :=
  ([("required", Stored (JBool (required rl)))]
   ++ match type rl with Some t => [("type", Stored (JStr t))] | None => [] end
   ++ match regex rl with Some p => [("regex", Stored (JStr p))] | None => [] end
   ++ match _regex_compiled rl with
      | Some rc => [("_regex_compiled", Pattern rc)]
      | None => []
      end)%list.

Definition dict_of_rules (rules : ruleset) : Dyn.ruleset :=
  map (fun kv => (fst kv, dict_of_rule (snd kv))) rules.

(* ===================================================================== *)
(** * excel_writer.py                                                    *)
(* ===================================================================== *)

(** What [_write_workbook_bytes] hands to the data sheet: the header names
    of the calls [ws.write(0, c, h, header_fmt)] and, per record, the
    values of the calls [ws.write(r, c, rec.get(h))] in header order. What
    the workbook library stores for a value (a binary64 number for an
    [int], a formula for a text that starts with [=], nothing for the
    empty text) is the library's and is not modelled, nor are the legend
    sheet and the formats. *)
Record workbook : Type := {
  wb_headers : list string;
  wb_cells : list (list value);
}.

Definition _write_workbook_bytes (records : list row) (headers : list string) : workbook :=
  {| wb_headers := headers;
     wb_cells := map (fun rec => map (row_get rec) headers) records |}.

(** [None] is the writer's "no artifact". *)
Definition write_validated_excel_stream (validated_records : list row) : option workbook :=
  let records := validated_records in
  match records with
  | [] => None
  | first :: _ =>
      let headers := map fst first in
      Some (_write_workbook_bytes records headers)
  end.

(* ===================================================================== *)
(** * validation_pipeline.py                                             *)
(* ===================================================================== *)

Definition CHUNK_SIZE : nat := 5000.
Definition WORKERS : nat := 4.

(** The float [round((processed / total_records) * 100, 2)], kept as the
    two counts it is computed from. *)
Inductive percent : Type := Round2Percent (processed total_records : nat).

(** The events handed to [safe_publish]. *)
Inductive ws_event : Type :=
| WsInit (message : string)
| WsProgress (processed : nat) (pct : percent)
| WsCompleted (success_count failure_count : nat)
| WsError (error : exn).

Inductive artifact : Type :=
| ExcelArtifact (wb : workbook)
| JsonArtifact (records : list row).

(** The calls of a run to its collaborators, in order. *)
Inductive event : Type :=
| AuditRunning                                         (* update_audit_status RUNNING *)
| ReadS3                                               (* read_file_from_s3 *)
| RecordsLoaded (total_records : nat)                  (* records = list(records_iter) *)
| UpdateProgress (processed total_records : nat)       (* update_progress *)
| Publish (e : ws_event)                               (* safe_publish *)
| Upload (quality : string) (a : artifact)             (* upload_bytes_to_s3 *)
| AuditCompleted (total_records success_count failure_count : nat)
| AuditFailed (error : exn).                           (* update_audit_status FAILED *)

(** A computation that calls collaborators: the events it emitted and how
    it ended. *)
Definition prog (A : Type) : Type := (list event * result A)%type.

Global Instance prog_ret : MRet prog := fun A a => ([], Ok a).
Global Instance prog_bind : MBind prog := fun A B k m =>
  match m with
  | (t, Ok a) => let '(t', r) := k a in ((t ++ t')%list, r)
  | (t, Raise e) => (t, Raise e)
  end.

Definition emit (e : event) : prog unit := ([e], Ok tt).
Definition lift {A} (r : result A) : prog A := ([], r).

(** [try: body except Exception as e: handler(e)] *)
Definition try_except {A} (body : prog A) (handler : exn -> prog A) : prog A :=
  match body with
  | (t, Ok a) => (t, Ok a)
  | (t, Raise e) => let '(t', r) := handler e in ((t ++ t')%list, r)
  end.

(** [for x in l: acc = body(acc, x)] with collaborator calls in the body. *)
Fixpoint for_each {A S} (body : S -> A -> prog S) (l : list A) (acc : S) : prog S :=
  match l with
  | [] => mret acc
  | x :: l' => acc' ← body acc x; for_each body l' acc'
  end.

(** [range(start, stop, step)] for natural numbers. *)
Definition py_range (start stop step : nat) : result (list nat) :=
  match step with
  | O => Raise (ValueError "range() arg 3 must not be zero")
  | S _ => Ok (map (fun k => start + k * step) (seq 0 ((stop - start + step - 1) / step)))
  end.

(** [l[i:j]] *)
Definition py_slice {A} (l : list A) (i j : nat) : list A := take (j - i) (drop i l).

(** [sorted(results, key=lambda x: x[0])]: a stable sort on the first
    component. *)
Fixpoint insert_by_key {A} (x : nat * A) (l : list (nat * A)) : list (nat * A) :=
  match l with
  | [] => [x]
  | y :: l' => if (fst x <=? fst y)%nat then x :: l else y :: insert_by_key x l'
  end.

Fixpoint sorted_by_key {A} (l : list (nat * A)) : list (nat * A) :=
  match l with
  | [] => []
  | x :: l' => insert_by_key x (sorted_by_key l')
  end.

(** What one chunk hands back: [(validated_rows, success, failure)]. *)
Abbreviation chunk_result := (list row * nat * nat)%type.

(** The order in which the tasks of a batch append to [results]: any
    rearrangement of the batch, chosen by the thread scheduler. *)
Abbreviation completion_order :=
  (nat -> list (nat * chunk_result) -> list (nat * chunk_result)).

(** The accumulators of the scheduler loop. *)
Record run_stats : Type := {
  validated_records : list row;
  processed : nat;
  total_success : nat;
  total_failure : nat;
}.

Definition run_stats_init : run_stats :=
  {| validated_records := []; processed := 0; total_success := 0; total_failure := 0 |}.

Section Pipeline.
Context {rt : PyRuntime}.

(** [_collect_results] for each chunk of a batch; the task group re-raises
    what a task raised. *)
Fixpoint run_batch (batch : list (nat * list row)) (rules : ruleset)
    (index : dup_index) (unique_cols : list string) (unique_mode : string)
  : result (list (nat * chunk_result)) :=
  match batch with
  | [] => Ok []
  | (start_idx, rows) :: batch' =>
      res ← validate_chunk rows (start_idx + 1) rules index unique_cols unique_mode;
      rest ← run_batch batch' rules index unique_cols unique_mode;
      Ok ((start_idx, res) :: rest)
  end.

(** The body of the loop over [sorted(results)]. *)
Definition merge_chunk (total_records : nat) (st : run_stats)
    (item : nat * chunk_result) : prog run_stats :=
  let '(start_idx, (chunk_valid, succ, fail)) := item in
  let st := {| validated_records := (validated_records st ++ chunk_valid)%list;
               processed := processed st + length chunk_valid;
               total_success := total_success st + succ;
               total_failure := total_failure st + fail |} in
  let pct := Round2Percent (processed st) total_records in
  emit (UpdateProgress (processed st) total_records);;
  emit (Publish (WsProgress (processed st) pct));;
  mret st.

(** Step 4, with the chunk size and the number of workers as parameters. *)
Definition chunk_scheduler (chunk_size workers : nat) (completion : completion_order)
    (records : list row) (rules : ruleset) (index : dup_index)
    (unique_cols : list string) (unique_mode : string) : prog run_stats :=
  let total_records := length records in
  starts ← lift (py_range 0 total_records chunk_size);
  let chunks := map (fun i => (i, py_slice records i (i + chunk_size))) starts in
  batch_starts ← lift (py_range 0 (length chunks) workers);
  for_each (fun st batch_start =>
              let batch := py_slice chunks batch_start (batch_start + workers) in
              results ← lift (run_batch batch rules index unique_cols unique_mode);
              let results := completion batch_start results in
              for_each (merge_chunk total_records) (sorted_by_key results) st)
           batch_starts run_stats_init.

(** What a run is given: the object found in the bucket, reduced to its
    content type and to the rows that the matching record source yields
    from its bytes, and the document of the rules store. *)
Record world : Type := {
  content_type : option string;
  file_rows : list row;
  rules_json : option rules_doc;
}.

(** [not rules_cfg]: no document, or a document without members. *)
Definition rules_missing (cfg : option rules_doc) : bool :=
  match cfg with
  | None => true
  | Some doc =>
      match columns doc, unique_constraints doc, unique_mode doc with
      | None, None, None => true
      | _, _, _ => false
      end
  end.

(** [o.__class__.__name__] *)
Definition class_name (d : pydate) : string :=
  match d with
  | PyDate _ _ _ => "date"
  | PyDatetime _ _ _ _ _ _ _ => "datetime"
  | PyTime _ _ _ _ => "time"
  | PyTimedelta _ _ _ => "timedelta"
  end.

(** The exception of the encoder for an object without a default. *)
Definition not_serializable (d : pydate) : exn :=
  TypeError ("Object of type " ++ class_name d ++ " is not JSON serializable").

(** The first cell, in the order in which the encoder visits the records
    and their items, that is an object of the [datetime] module. *)
Definition first_unserialisable (records : list row) : option pydate :=
  head (omap (fun kv => match snd kv with VDate d => Some d | _ => None end)
             (concat records)).

(** [json.dumps(validated_records, indent=2)]: the encoder has no default
    for the objects of the [datetime] module and raises on the first one
    it meets. The other cells are serialisable: [None], [str], [bool],
    [float] (also [nan] and the infinities) and the [int]s of a record,
    which a record source parsed from text. *)
Definition json_dumps (records : list row) : result artifact :=
  match first_unserialisable records with
  | Some d => Raise (not_serializable d)
  | None => Ok (JsonArtifact records)
  end.

(** [excel_bytes.getvalue()] *)
Definition getvalue (excel_bytes : option workbook) : result artifact :=
  match excel_bytes with
  | Some wb => Ok (ExcelArtifact wb)
  | None => Raise (AttributeError "'NoneType' object has no attribute 'getvalue'")
  end.

Definition run_excel_validation_pipeline (completion : completion_order) (w : world)
  : prog unit :=
  try_except
    (emit AuditRunning;;
     (* Step 1: read from S3 *)
     emit ReadS3;;
     (* Step 2: detect Excel / CSV *)
     let ct := default "" (content_type w) in
     records_iter ←
       (if Text.contains "spreadsheetml" ct then mret (file_rows w)
        else if Text.contains "csv" ct then mret (file_rows w)
        else lift (Raise (ValueError ("Unsupported S3 Content-Type: "
                                      ++ default "None" (content_type w)))));
     let records := records_iter in
     let total_records := length records in
     emit (RecordsLoaded total_records);;
     emit (UpdateProgress 0 total_records);;
     emit (Publish (WsInit ("Loaded " ++ repr_int (Z.of_nat total_records) ++ " records")));;
     (* Step 3: load validation rules *)
     rules_cfg ←
       (if rules_missing (rules_json w)
        then lift (Raise (ValueError "No rules found"))
        else mret (default {| columns := None; unique_constraints := None;
                              unique_mode := None |} (rules_json w)));
     '(rules, unique_cols, unique_mode) ← lift (prep_rules_from_dict rules_cfg);
     index ← lift (build_duplicate_index records unique_cols);
     (* Step 4: chunked validation *)
     st ← chunk_scheduler CHUNK_SIZE WORKERS completion records rules index
            unique_cols unique_mode;
     (* Step 5: upload the Excel and JSON results *)
     let quality := if (total_failure st =? 0)%nat then "PASS" else "FAIL" in
     let excel_bytes := write_validated_excel_stream (validated_records st) in
     excel ← lift (getvalue excel_bytes);
     emit (Upload quality excel);;
     json_bytes ← lift (json_dumps (validated_records st));
     emit (Upload quality json_bytes);;
     (* Step 6: final broadcast *)
     emit (Publish (WsCompleted (total_success st) (total_failure st)));;
     (* Step 7: update the audit record *)
     emit (AuditCompleted total_records (total_success st) (total_failure st)))
    (fun e =>
       emit (AuditFailed e);;
       emit (Publish (WsError e));;
       lift (Raise e)).

End Pipeline.

(* ===================================================================== *)
(** * A reference run time                                               *)
(* ===================================================================== *)

(** An instance of [PyRuntime] on which the embedding can be evaluated. It
    recognises the decimal literals of [int], [float] and [Decimal]
    (surrounding white space, a sign, digit groups joined by single
    underscores, a fraction, an exponent, and the spellings of infinity
    and NaN), the ISO forms [YYYY-MM-DD] and [YYYY-MM-DD?HH:MM:SS], and
    patterns without metacharacters other than a trailing [$]; a pattern
    with an unclosed [(] or [[] does not compile. The theorems below do not
    depend on it: they hold for every run time. *)
Module Cpy.

Definition is_digit (c : ascii) : bool := Text.between 48 57 (Text.code c).

Definition is_char (c : ascii) (s : string) : bool :=
  match s with
  | String c' EmptyString => Ascii.eqb c c'
  | _ => false
  end.

(** After a digit: [(_? digit)*]; returns what follows the digits. *)
Fixpoint digits_tail (l : list ascii) : list ascii :=
  match l with
  | c :: l' =>
      if is_digit c then digits_tail l'
      else if is_char c "_" then
        match l' with
        | d :: l'' => if is_digit d then digits_tail l'' else l
        | [] => l
        end
      else l
  | [] => []
  end.

Definition digits (l : list ascii) : option (list ascii) :=
  match l with
  | c :: l' => if is_digit c then Some (digits_tail l') else None
  | [] => None
  end.

Definition skip_sign (l : list ascii) : list ascii :=
  match l with
  | c :: l' => if is_char c "+" || is_char c "-" then l' else l
  | [] => []
  end.

Definition chars (s : string) : list ascii := list_ascii_of_string s.

Definition body (s : string) : list ascii := skip_sign (chars (Text.strip s)).

Definition int_lit (s : string) : bool :=
  match digits (body s) with
  | Some [] => true
  | _ => false
  end.

(** [digits [. [digits]] | . digits] *)
Definition mantissa (l : list ascii) : option (list ascii) :=
  match digits l with
  | Some (c :: l') =>
      if is_char c "." then Some (default l' (digits l')) else Some (c :: l')
  | Some [] => Some []
  | None =>
      match l with
      | c :: l' => if is_char c "." then digits l' else None
      | [] => None
      end
  end.

(** [[(e|E) [sign] digits]] up to the end of the text. *)
Definition exponent_end (l : list ascii) : bool :=
  match l with
  | [] => true
  | c :: l' =>
      if is_char c "e" || is_char c "E" then
        match digits (skip_sign l') with
        | Some [] => true
        | _ => false
        end
      else false
  end.

Definition number (l : list ascii) : bool :=
  match mantissa l with
  | Some rest => exponent_end rest
  | None => false
  end.

Definition word (l : list ascii) : string :=
  Text.lower (string_of_list_ascii l).

Definition float_lit (s : string) : bool :=
  let l := body s in
  number l || String.eqb (word l) "inf" || String.eqb (word l) "infinity"
  || String.eqb (word l) "nan".

Definition nan_payload (l : list ascii) : bool := forallb is_digit l.

Definition decimal_lit (s : string) : bool :=
  let l := body s in
  number l || String.eqb (word l) "inf" || String.eqb (word l) "infinity"
  || (String.prefix "nan" (word l) && nan_payload (drop 3 l))
  || (String.prefix "snan" (word l) && nan_payload (drop 4 l)).

Definition digit_val (c : ascii) : N := (Text.code c - 48)%N.

(** [n] digits read as a number. *)
Fixpoint field (n : nat) (l : list ascii) (acc : N) : option (N * list ascii) :=
  match n, l with
  | O, _ => Some (acc, l)
  | S n', c :: l' =>
      if is_digit c then field n' l' (acc * 10 + digit_val c)%N else None
  | S _, [] => None
  end.

Definition leap (y : N) : bool :=
  ((y mod 4 =? 0) && negb (y mod 100 =? 0) || (y mod 400 =? 0))%N.

Definition days_in_month (y m : N) : N :=
  if (m =? 2)%N then (if leap y then 29 else 28)%N
  else if ((m =? 4) || (m =? 6) || (m =? 9) || (m =? 11))%N then 30%N
  else 31%N.

Definition sep (c : string) (l : list ascii) : option (list ascii) :=
  match l with
  | c' :: l' => if is_char c' c then Some l' else None
  | [] => None
  end.

Definition iso_date (l : list ascii) : option (list ascii) :=
  '(y, l) ← field 4 l 0%N; l ← sep "-" l;
  '(m, l) ← field 2 l 0%N; l ← sep "-" l;
  '(d, l) ← field 2 l 0%N;
  if ((1 <=? y) && (1 <=? m) && (m <=? 12) && (1 <=? d) && (d <=? days_in_month y m))%N
  then Some l else None.

Definition iso_time (l : list ascii) : bool :=
  match
    '(hh, l) ← field 2 l 0%N; l ← sep ":" l;
    '(mi, l) ← field 2 l 0%N; l ← sep ":" l;
    '(ss, l) ← field 2 l 0%N;
    Some ((hh <? 24) && (mi <? 60) && (ss <? 60) && is_nil l)%N
  with
  | Some b => b
  | None => false
  end.

Definition iso_lit (s : string) : bool :=
  match iso_date (chars s) with
  | Some [] => true
  | Some (_ :: l) => iso_time l
  | None => false
  end.

(** The unclosed groups and classes of a pattern. *)
Fixpoint unclosed (l : list ascii) (depth : nat) (in_class : bool) : bool :=
  match l with
  | [] => negb (depth =? 0)%nat || in_class
  | c :: l' =>
      if in_class then unclosed l' depth (negb (is_char c "]"))
      else if is_char c "[" then unclosed l' depth true
      else if is_char c "(" then unclosed l' (S depth) false
      else if is_char c ")" then
        match depth with
        | O => true
        | S d => unclosed l' d false
        end
      else unclosed l' depth false
  end.

Definition pattern_ok (p : string) : bool := negb (unclosed (chars p) 0 false).

(** [rc.match(text)] for a literal pattern, with or without a final [$]. *)
Definition pattern_match (rc : re_pattern) (text : string) : bool :=
  let '(Compiled p) := rc in
  match rev (chars p) with
  | c :: l =>
      if is_char c "$" then String.eqb (string_of_list_ascii (rev l)) text
      else String.prefix p text
  | [] => true
  end.

(** [str(d)] for the objects of the [datetime] module. *)
Definition date_text (d : pydate) : string :=
  let two (n : Z) := (if (n <? 10)%Z then "0" else "") ++ repr_int n in
  let four (n : Z) :=
    (if (n <? 10)%Z then "000" else if (n <? 100)%Z then "00"
     else if (n <? 1000)%Z then "0" else "") ++ repr_int n in
  let six (n : Z) :=
    (if (n <? 10)%Z then "00000" else if (n <? 100)%Z then "0000"
     else if (n <? 1000)%Z then "000" else if (n <? 10000)%Z then "00"
     else if (n <? 100000)%Z then "0" else "") ++ repr_int n in
  let micro (us : Z) := if (us =? 0)%Z then "" else "." ++ six us in
  match d with
  | PyDate y m d => four y ++ "-" ++ two m ++ "-" ++ two d
  | PyDatetime y m d hh mi ss us =>
      four y ++ "-" ++ two m ++ "-" ++ two d ++ " "
      ++ two hh ++ ":" ++ two mi ++ ":" ++ two ss ++ micro us
  | PyTime hh mi ss us => two hh ++ ":" ++ two mi ++ ":" ++ two ss ++ micro us
  | PyTimedelta days ss us =>
      (if (days =? 0)%Z then ""
       else repr_int days
            ++ (if (Z.abs days =? 1)%Z then " day, " else " days, "))
      ++ repr_int (ss / 3600)%Z ++ ":" ++ two (ss mod 3600 / 60)%Z ++ ":"
      ++ two (ss mod 60)%Z ++ micro us
  end.

Fixpoint zeros (n : nat) : string :=
  match n with O => "" | S n' => "0" ++ zeros n' end.

Fixpoint drop_zeros (l : list ascii) : list ascii :=
  match l with
  | c :: l' => if is_char c "0" then drop_zeros l' else l
  | [] => []
  end.

(** The digits of [frac / 10^k], without trailing zeros. *)
Definition fraction_text (frac : Z) (k : nat) : string :=
  let d := repr_int frac in
  let padded := chars (zeros (k - String.length d) ++ d) in
  match rev (drop_zeros (rev padded)) with
  | [] => "0"
  | l => string_of_list_ascii l
  end.

(** [str(x)] for a float: the exact decimal expansion of a finite one,
    which is CPython's spelling whenever that expansion is short. *)
Definition float_text (x : spec_float) : string :=
  match x with
  | S754_zero s => if s then "-0.0" else "0.0"
  | S754_infinity s => if s then "-inf" else "inf"
  | S754_nan => "nan"
  | S754_finite s m e =>
      let k := Z.to_nat (- e) in
      let scaled := (Zpos m * 2 ^ e * 10 ^ Z.of_nat k)%Z in
      let scaled := if (e <? 0)%Z then (Zpos m * 5 ^ Z.of_nat k)%Z else scaled in
      (if s then "-" else "") ++ repr_int (scaled / 10 ^ Z.of_nat k) ++ "."
      ++ fraction_text (scaled mod 10 ^ Z.of_nat k) k
  end.

#[export] Instance runtime : PyRuntime := {|
  re_valid := pattern_ok;
  re_match := pattern_match;
  repr_float := float_text;
  repr_date := date_text;
  int_literal := int_lit;
  float_literal := float_lit;
  decimal_literal := decimal_lit;
  iso_literal := iso_lit;
|}.

End Cpy.

(* ===================================================================== *)
(** * Vocabulary of the statements                                       *)
(* ===================================================================== *)

(** A row read by the record sources: a dictionary whose keys are already
    lower-case. *)
Definition lowercase_row (r : row) : Prop :=
  od_wf r /\ Forall (fun k => Text.lower k = k) (map fst r).

Section Violations.
Context {rt : PyRuntime}.

(** The violations of one field, read off [check_field]. *)
Definition field_violations (normalized : row) (field : string) (r : rule) : list string :=
match check_field normalized field r with
| Ok es => es
| Raise _ => []
end.

(** All the violations of a row: field by field in rule order, then the
  duplicate policy. *)
Definition violations (r : row) (row_index : nat) (rules : ruleset)
  (index : dup_index) (unique_constraints : list string) (unique_mode : string)
: list string :=
(flat_map (fun '(field, rl) => field_violations (normalize r) field rl) rules
 ++ duplicate_errors (normalize r) row_index index unique_constraints unique_mode)%list.

End Violations.

(** How many times [key] occurs in a sequence of keys, and the position
    (from 0) of its first occurrence. *)
Fixpoint occurrences (key : list vkey) (keys : list (list vkey)) : nat :=
  match keys with
  | [] => 0
  | k :: keys' => (if decide (k = key) then 1 else 0) + occurrences key keys'
  end.

Fixpoint first_position (key : list vkey) (keys : list (list vkey)) : option nat :=
  match keys with
  | [] => None
  | k :: keys' => if decide (k = key) then Some 0 else S <$> first_position key keys'
  end.

(** The keys of the records, in row order. *)
Definition record_keys (records : list row) (uc : list string) : list (list vkey) :=
  map (fun r => row_key r uc) records.


Section SchedulerVocabulary.
Context {rt : PyRuntime}.

(** The validated row that [_validate_row] returns. *)
Definition validated (r : row) (row_index : nat) (rules : ruleset)
    (index : dup_index) (uc : list string) (um : string) : row :=
  od_set (od_set (normalize r) "Valid"
            (VStr (verdict (violations r row_index rules index uc um))))
         "Remarks" (VStr (remarks (violations r row_index rules index uc um))).

(** The rows of a slice validated one by one, in order, from ordinal
    [start]. *)
Definition validated_from (start : nat) (rows : list row) (rules : ruleset)
    (index : dup_index) (uc : list string) (um : string) : list row :=
  map (fun '(i, r) => validated r i rules index uc um) (enumerate start rows).

Definition passes (rules : ruleset) (index : dup_index) (uc : list string)
    (um : string) (item : nat * row) : bool :=
  is_nil (violations (snd item) (fst item) rules index uc um).

(** What [validate_chunk] returns for a slice. *)
Definition chunk_output (start : nat) (rows : list row) (rules : ruleset)
    (index : dup_index) (uc : list string) (um : string) : chunk_result :=
  (validated_from start rows rules index uc um,
   length (filter (fun item => passes rules index uc um item = true)
             (enumerate start rows)),
   length (filter (fun item => passes rules index uc um item = false)
             (enumerate start rows))).

End SchedulerVocabulary.

(** The two calls that report [processed] rows out of [total]. *)
Definition progress_of (total processed : nat) : list event :=
  [UpdateProgress processed total;
   Publish (WsProgress processed (Round2Percent processed total))].

(** The [processed] payloads of the progress events of a trace, in order. *)
Definition progress_counts (t : list event) : list nat :=
  omap (fun e => match e with
                 | Publish (WsProgress p _) => Some p
                 | _ => None
                 end) t.

(** The number of chunks of [n] rows, and of batches of those chunks. *)
Definition chunk_count (chunk_size n : nat) : nat :=
  (n + chunk_size - 1) / chunk_size.

Definition batch_count (chunk_size workers n : nat) : nat :=
  (chunk_count chunk_size n + workers - 1) / workers.

(** The terminal audit status of a trace. *)
Definition completed_with (t : list event) (total success failure : nat) : Prop :=
  AuditCompleted total success failure ∈ t.

(** The accumulators after one more chunk result, and the events of
    merging a list of chunk results in the order given. *)
Definition merged (st : run_stats) (item : nat * chunk_result) : run_stats :=
  let '(_, (chunk_valid, succ, fail)) := item in
  {| validated_records := (validated_records st ++ chunk_valid)%list;
     processed := processed st + length chunk_valid;
     total_success := total_success st + succ;
     total_failure := total_failure st + fail |}.

Fixpoint merge_trace (total : nat) (st : run_stats)
    (results : list (nat * chunk_result)) : list event :=
  match results with
  | [] => []
  | item :: results' =>
      (progress_of total (processed (merged st item))
       ++ merge_trace total (merged st item) results')%list
  end.

Global Instance lowercase_row_dec (r : row) : Decision (lowercase_row r).
Proof. unfold lowercase_row, od_wf. apply _. Defined.

(** Increasing first components: the order of the chunk start indices. *)
Definition key_lt {A} (x y : nat * A) : Prop := fst x < fst y.

(** The chunks of the records, as the list comprehension builds them. *)
Definition chunks_of (chunk_size : nat) (records : list row) : list (nat * list row) :=
  map (fun i => (i, py_slice records i (i + chunk_size)))
      (map (fun k => k * chunk_size) (seq 0 (chunk_count chunk_size (length records)))).

(** The results of the chunks of a batch, in chunk order. *)
Definition results_of `{PyRuntime} (rules : ruleset) (index : dup_index)
    (uc : list string) (um : string) (batch : list (nat * list row))
  : list (nat * chunk_result) :=
  map (fun '(i, rows) => (i, chunk_output (i + 1) rows rules index uc um)) batch.

(** A computation with the events [t] emitted before it. *)
Definition prepend {A} (t : list event) (p : prog A) : prog A :=
  ((t ++ fst p)%list, snd p).

(** The content types that select a record source. *)
Definition supported (ct : option string) : bool :=
  Text.contains "spreadsheetml" (default "" ct) || Text.contains "csv" (default "" ct).

(** What the [except] clause of the run does with the exception [e]. *)
Definition on_failure (e : exn) : prog unit :=
  emit (AuditFailed e);; emit (Publish (WsError e));; lift (Raise e).

(** The events of a run up to the end of the loading of the records. *)
Definition loading_events (n : nat) : list event :=
  [AuditRunning; ReadS3; RecordsLoaded n; UpdateProgress 0 n;
   Publish (WsInit ("Loaded " ++ repr_int (Z.of_nat n) ++ " records"))].

(** The progress events of the scheduler for [n] records. *)
Definition progress_events (n : nat) : list event :=
  flat_map (fun k => progress_of n (Nat.min ((k + 1) * CHUNK_SIZE) n))
    (seq 0 (chunk_count CHUNK_SIZE n)).

(** Steps 5 to 7 of a run, after the scheduler has returned [st]. *)
Definition publish_results (n : nat) (st : run_stats) : prog unit :=
  let quality := if (total_failure st =? 0)%nat then "PASS" else "FAIL" in
  excel ← lift (getvalue (write_validated_excel_stream (validated_records st)));
  emit (Upload quality excel);;
  json_bytes ← lift (json_dumps (validated_records st));
  emit (Upload quality json_bytes);;
  emit (Publish (WsCompleted (total_success st) (total_failure st)));;
  emit (AuditCompleted n (total_success st) (total_failure st)).

(** A column rule whose pattern is non-empty and does not compile. *)
Definition malformed `{PyRuntime} (raw : raw_rule) : Prop :=
  exists p, raw_regex raw = Some p /\ p <> "" /\ re_valid p = false.

(** No row is read before the failure: the trace has no loading event. *)
Definition fails_before_reading (t : list event) : Prop :=
  forall n, RecordsLoaded n ∉ t.

(** No row is validated: the trace has no progress event. *)
Definition validates_nothing (t : list event) : Prop :=
  progress_counts t = [].

(** ** Sample inputs *)

(** Two rows with the same e-mail address, the second with a bad age. *)
Definition sample_rows : list row :=
  [ [("email", VStr "a@x.com"); ("age", VStr "30")];
    [("email", VStr "a@x.com"); ("age", VStr "bad")] ].

Definition sample_rules_doc : rules_doc :=
  {| columns := Some [("Age", {| raw_required := true; raw_type := Some "int";
                                 raw_regex := None |})];
     unique_constraints := Some ["Email"];
     unique_mode := Some "fail_all" |}.

Definition sample_rules : ruleset :=
  [("age", {| required := true; type := Some "int"; regex := None;
              _regex_compiled := None |})].

Definition sample_world : world :=
  {| content_type := Some "text/csv";
     file_rows := sample_rows;
     rules_json := Some sample_rules_doc |}.

(** The same object with a pattern that does not compile. *)
Definition sample_bad_doc : rules_doc :=
  {| columns := Some [("age", {| raw_required := true; raw_type := Some "int";
                                 raw_regex := Some "(" |})];
     unique_constraints := None;
     unique_mode := None |}.

Definition sample_bad_world : world :=
  {| content_type := Some "text/csv";
     file_rows := sample_rows;
     rules_json := Some sample_bad_doc |}.

(** A sheet with a header row and no data row. *)
Definition sample_empty_world : world :=
  {| content_type :=
       Some "application/vnd.openxmlformats-officedocument.spreadsheetml.sheet";
     file_rows := [];
     rules_json := Some sample_rules_doc |}.

(** One row more than a chunk holds. *)
Definition sample_large_world : world :=
  {| content_type := Some "text/csv";
     file_rows := repeat [("email", VStr "a@x.com"); ("age", VStr "30")] (CHUNK_SIZE + 1);
     rules_json := Some sample_rules_doc |}.

(** The last task started is the first to complete. *)
Definition last_first : completion_order := fun _ results => rev results.


(* ===================================================================== *)
(** * Facts about dictionaries and loops                                 *)
(* ===================================================================== *)

Lemma lower_char_idem c : Text.lower_char (Text.lower_char c) = Text.lower_char c.
Proof.
  destruct c as [[] [] [] [] [] [] [] []]; vm_compute; reflexivity.
Qed.

Lemma lower_idem s : Text.lower (Text.lower s) = Text.lower s.
Proof.
  induction s as [|c s IH]; simpl; [reflexivity|].
  by rewrite lower_char_idem, IH.
Qed.

Section OrderedDictFacts.
Context {V : Type}.
Implicit Types (d : list (string * V)) (k : string) (v : V).

Lemma od_get_set_eq d k v : od_get (od_set d k v) k = Some v.
Proof.
  induction d as [|[k' v'] d IH]; simpl.
  - by rewrite String.eqb_refl.
  - destruct (String.eqb k' k) eqn:E; simpl; rewrite E; [done|apply IH].
Qed.

Lemma od_get_set_ne d k k' v : k ≠ k' -> od_get (od_set d k v) k' = od_get d k'.
Proof.
  intros Hne. induction d as [|[k0 v0] d IH]; simpl.
  - destruct (String.eqb_spec k k'); [contradiction|done].
  - destruct (String.eqb_spec k0 k) as [->|Hk]; simpl.
    + destruct (String.eqb_spec k k'); [contradiction|done].
    + destruct (String.eqb k0 k'); [done|apply IH].
Qed.

Lemma od_set_fresh d k v : k ∉ map fst d -> od_set d k v = (d ++ [(k, v)])%list.
Proof.
  induction d as [|[k' v'] d IH]; simpl; [done|].
  intros Hk. rewrite not_elem_of_cons in Hk. destruct Hk as [Hne Hk].
  destruct (String.eqb_spec k' k); [congruence|]. by rewrite IH.
Qed.

End OrderedDictFacts.

Lemma normalize_lowercase r : lowercase_row r -> normalize r = r.
Proof.
  intros [Hwf Hlow]. unfold normalize.
  enough (forall acc, NoDup (map fst (acc ++ r)%list) ->
            fold_left (fun acc '(k, v) => od_set acc (Text.lower k) v) r acc
            = (acc ++ r)%list) as Hgen by (apply (Hgen []); exact Hwf).
  clear Hwf. induction r as [|[k v] r IH]; intros acc Hnd; simpl.
  - by rewrite app_nil_r.
  - apply Forall_cons in Hlow as [Hk Hlow]. simpl in Hk. rewrite Hk.
    rewrite od_set_fresh.
    + rewrite IH; [by rewrite <- app_assoc|done|].
      by rewrite <- app_assoc.
    + rewrite map_app in Hnd. simpl in Hnd.
      apply NoDup_app in Hnd as (_ & Hdisj & _).
      intros Hin. apply (Hdisj _ Hin). by left.
Qed.

(** No key of a normalised row has a capital letter, hence none is
    ["Valid"] or ["Remarks"]. *)
Lemma normalize_keys r :
  Forall (fun k => Text.lower k = k) (map fst (normalize r)).
Proof.
  unfold normalize.
  enough (forall acc, Forall (fun k => Text.lower k = k) (map fst acc) ->
            Forall (fun k => Text.lower k = k)
              (map fst (fold_left (fun acc '(k, v) => od_set acc (Text.lower k) v) r acc)))
    as Hgen by (apply Hgen; constructor).
  induction r as [|[k v] r IH]; intros acc Hacc; simpl; [done|].
  apply IH. clear IH. induction acc as [|[k' v'] acc IHacc]; simpl.
  - constructor; [apply lower_idem|constructor].
  - apply Forall_cons in Hacc as [Hk' Hacc].
    destruct (String.eqb k' (Text.lower k)); simpl; constructor; auto.
Qed.

(* ===================================================================== *)
(** * The row validator                                                  *)
(* ===================================================================== *)

Section ValidatorFacts.
Context {rt : PyRuntime}.

Lemma check_field_ok normalized field r :
check_field normalized field r = Ok (field_violations normalized field r).
Proof.
unfold field_violations, check_field.
repeat (case_match; simpl; try done).
Qed.

Lemma field_errors_ok normalized rules :
field_errors normalized rules
= Ok (flat_map (fun '(field, r) => field_violations normalized field r) rules).
Proof.
unfold field_errors.
enough (forall acc,
  foldM (fun errors '(field, r) =>
           es ← check_field normalized field r; Ok (errors ++ es)%list) rules acc
  = Ok (acc ++ flat_map (fun '(field, r) => field_violations normalized field r) rules)%list)
  as Hgen by apply (Hgen []).
induction rules as [|[field r] rules IH]; intros acc; simpl.
- by rewrite app_nil_r.
- rewrite check_field_ok. simpl. rewrite IH. by rewrite <- app_assoc.
Qed.

Lemma row_errors_ok r i rules index uc um :
row_errors r i rules index uc um = Ok (violations r i rules index uc um).
Proof. unfold row_errors. by rewrite field_errors_ok. Qed.

Lemma validate_row_ok r i rules index uc um :
_validate_row r i rules index uc um
= Ok (od_set (od_set (normalize r) "Valid"
                (VStr (verdict (violations r i rules index uc um))))
             "Remarks" (VStr (remarks (violations r i rules index uc um)))).
Proof. unfold _validate_row. by rewrite row_errors_ok. Qed.

Lemma validated_Valid r i rules index uc um vr :
_validate_row r i rules index uc um = Ok vr ->
od_get vr "Valid" = Some (VStr (verdict (violations r i rules index uc um))).
Proof.
rewrite validate_row_ok. intros [= <-].
rewrite od_get_set_ne by done. apply od_get_set_eq.
Qed.

Lemma validated_Remarks r i rules index uc um vr :
_validate_row r i rules index uc um = Ok vr ->
od_get vr "Remarks" = Some (VStr (remarks (violations r i rules index uc um))).
Proof. rewrite validate_row_ok. intros [= <-]. apply od_get_set_eq. Qed.

Lemma in_violations_field r i rules index uc um field rl msg :
(field, rl) ∈ rules ->
msg ∈ field_violations (normalize r) field rl ->
msg ∈ violations r i rules index uc um.
Proof.
intros Hin Hmsg. unfold violations. apply elem_of_app. left.
apply list_elem_of_In, in_flat_map. exists (field, rl).
split; by apply list_elem_of_In.
Qed.

End ValidatorFacts.

Lemma append_cancel_l (p a b : string) : p ++ a = p ++ b -> a = b.
Proof. induction p as [|c p IH]; simpl; [done|]. intros [= H]. by apply IH. Qed.

Section ValidatorProperties.
Context {rt : PyRuntime}.

Lemma blank_required_violations normalized field rl :
  required rl = true ->
  blank (row_get normalized field) = true ->
  field_violations normalized field rl = [msg_required field].
Proof.
  intros Hreq Hblank. unfold field_violations, check_field.
  by rewrite Hreq, Hblank.
Qed.

Lemma skipped_violations normalized field rl :
  required rl = false ->
  row_get normalized field = VNone \/ row_get normalized field = VStr "" ->
  field_violations normalized field rl = [].
Proof.
  intros Hreq Hv. unfold field_violations, check_field. rewrite Hreq. simpl.
  by destruct Hv as [-> | ->].
Qed.

Lemma coercion_failure_violations normalized field rl e :
  (required rl && blank (row_get normalized field)) = false ->
  (is_none (row_get normalized field) || eq_empty_str (row_get normalized field)) = false ->
  coerce (type rl) (row_get normalized field) = Raise e ->
  field_violations normalized field rl = [msg_invalid field (type rl)].
Proof.
  intros Hreq Hskip Hraise. unfold field_violations, check_field.
  by rewrite Hreq, Hskip, Hraise.
Qed.


(** C5. When a rule is required and the row's value for its field is absent
    or blank, the rule contributes exactly the violation
    ["<field> is required"]: neither ["<field> invalid <type>"] nor
    ["<field> does not match pattern"] is appended for it, the row fails,
    and its Remarks are the joined violations, which hold the required one. *)
Theorem required_blank_short_circuits
    (r : row) (row_index : nat) (rules : ruleset) (index : dup_index)
    (uc : list string) (um : string) (field : string) (rl : rule) :
  (field, rl) ∈ rules ->
  required rl = true ->
  blank (row_get (normalize r) field) = true ->
  check_field (normalize r) field rl = Ok [msg_required field]
  /\ (msg_invalid field (type rl) ∉ field_violations (normalize r) field rl)
  /\ (msg_pattern field ∉ field_violations (normalize r) field rl)
  /\ exists vr errors,
       _validate_row r row_index rules index uc um = Ok vr
       /\ row_errors r row_index rules index uc um = Ok errors
       /\ msg_required field ∈ errors
       /\ od_get vr "Valid" = Some (VStr "Fail")
       /\ od_get vr "Remarks" = Some (VStr (Text.join ", " errors)).
Proof.
  intros Hin Hreq Hblank.
  pose proof (blank_required_violations _ _ _ Hreq Hblank) as Hfv.
  split; [by rewrite check_field_ok, Hfv|]. rewrite Hfv.
  split; [|split].
  - intros [H|H]%elem_of_cons; [|by apply elem_of_nil in H].
    by apply append_cancel_l in H.
  - intros [H|H]%elem_of_cons; [|by apply elem_of_nil in H].
    by apply append_cancel_l in H.
  - assert (msg_required field ∈ violations r row_index rules index uc um) as Hmem.
    { eapply in_violations_field; [done|]. rewrite Hfv. by left. }
    pose proof (validated_Valid _ _ _ _ _ _ _
                  (validate_row_ok r row_index rules index uc um)) as HValid.
    pose proof (validated_Remarks _ _ _ _ _ _ _
                  (validate_row_ok r row_index rules index uc um)) as HRemarks.
    eexists _, _. split; [apply validate_row_ok|]. split; [apply row_errors_ok|].
    split; [done|]. rewrite HValid, HRemarks.
    destruct (violations r row_index rules index uc um) as [|e errs];
      [by apply elem_of_nil in Hmem|done].
Qed.

(** C4. With an empty list of unique constraints the duplicate index is
    empty and, whatever the index and the mode, the duplicate policy appends
    nothing: the violations of a row are those of its fields alone. *)
Theorem empty_constraints_no_duplicates
    (records : list row) (r : row) (row_index : nat) (rules : ruleset)
    (index : dup_index) (um : string) :
  build_duplicate_index records [] = Ok ∅
  /\ duplicate_errors (normalize r) row_index index [] um = []
  /\ row_errors r row_index rules index [] um = field_errors (normalize r) rules.
Proof.
  split; [done|]. split; [done|].
  rewrite row_errors_ok, field_errors_ok. unfold violations. simpl.
  by rewrite app_nil_r.
Qed.

(** C10. For a rule that is not required, the values that the rule skips
    as blank are [None] and the empty string and no other: a row that
    holds any other value has it handed to the conversion of the declared
    type, so when that conversion raises the rule yields
    ["<field> invalid <type>"], and the rule yields nothing only if the
    conversion returned. In particular a non-empty string of white space,
    which is blank for the required test, is converted: the test
    [value == ""] is stricter than [str(value).strip() == ""]. *)
Theorem whitespace_reaches_coercion (field : string) (rl : rule) :
  required rl = false ->
  (forall v, (is_none v || eq_empty_str v) = true <-> v = VNone \/ v = VStr "")
  /\ (forall v, (is_none v || eq_empty_str v) = true -> blank v = true)
  /\ (forall normalized,
        row_get normalized field = VNone \/ row_get normalized field = VStr "" ->
        check_field normalized field rl = Ok [])
  /\ (forall normalized,
        row_get normalized field <> VNone ->
        row_get normalized field <> VStr "" ->
        (forall e,
            coerce (type rl) (row_get normalized field) = Raise e ->
            check_field normalized field rl = Ok [msg_invalid field (type rl)])
        /\ (check_field normalized field rl = Ok [] ->
            coerce (type rl) (row_get normalized field) = Ok tt))
  /\ (forall normalized s,
        row_get normalized field = VStr s ->
        s <> "" ->
        Text.strip s = "" ->
        blank (VStr s) = true
        /\ (is_none (VStr s) || eq_empty_str (VStr s)) = false
        /\ forall e,
             coerce (type rl) (VStr s) = Raise e ->
             check_field normalized field rl = Ok [msg_invalid field (type rl)]).
Proof.
  intros Hreq.
  assert (forall v, (is_none v || eq_empty_str v) = true <-> v = VNone \/ v = VStr "")
    as Hskip.
  { intros v. split.
    - destruct v as [|[|]| | | |]; simpl; try done; auto.
    - by intros [-> | ->]. }
  assert (forall normalized,
            row_get normalized field <> VNone ->
            row_get normalized field <> VStr "" ->
            (is_none (row_get normalized field)
             || eq_empty_str (row_get normalized field)) = false) as Hkept.
  { intros normalized Hnone Hempty.
    destruct (is_none _ || eq_empty_str _) eqn:E; [|done].
    apply Hskip in E as [E|E]; done. }
  split; [exact Hskip|]. split; [|split; [|split]].
  - intros v [-> | ->]%Hskip; done.
  - intros normalized Hv. rewrite check_field_ok. f_equal.
    by apply skipped_violations.
  - intros normalized Hnone Hempty. split.
    + intros e Hraise. rewrite check_field_ok. f_equal.
      eapply coercion_failure_violations; [by rewrite Hreq|by apply Hkept|done].
    + unfold check_field. rewrite Hreq, (Hkept normalized Hnone Hempty). simpl.
      destruct (coerce (type rl) (row_get normalized field)) as [[]|e]; done.
  - intros normalized s Hv Hne Hstrip.
    split; [unfold blank; simpl; by rewrite Hstrip|].
    split; [by destruct s|].
    intros e Hraise. rewrite check_field_ok. f_equal.
    eapply coercion_failure_violations.
    + by rewrite Hreq.
    + rewrite Hv. by destruct s.
    + by rewrite Hv.
Qed.

End ValidatorProperties.

(* ===================================================================== *)
(** * The duplicate index                                                *)
(* ===================================================================== *)

Lemma first_position_None key keys :
  first_position key keys = None <-> occurrences key keys = 0.
Proof.
  induction keys as [|k keys IH]; simpl; [done|].
  destruct (decide (k = key)); simpl; [done|].
  rewrite <- IH. by destruct (first_position key keys).
Qed.

Lemma occurrences_lookup key keys j :
  keys !! j = Some key -> 0 < occurrences key keys.
Proof.
  revert j. induction keys as [|k keys IH]; intros [|j]; simpl; try done.
  - intros [= ->]. rewrite decide_True by done. lia.
  - intros H. specialize (IH _ H). lia.
Qed.

Section IndexFacts.

(** The loop of [build_duplicate_index], started at ordinal [start] with
    the dictionaries [counts] and [first_seen]. *)
Lemma index_pass_spec (uc : list string) (records : list row) (start : nat)
    (counts first_seen : gmap (list vkey) nat) (key : list vkey) :
  let '(counts', first_seen') :=
    fold_left (index_step uc) (enumerate start records) (counts, first_seen) in
  default 0 (counts' !! key)
    = default 0 (counts !! key) + occurrences key (record_keys records uc)
  /\ (counts' !! key = None <->
        counts !! key = None /\ occurrences key (record_keys records uc) = 0)
  /\ first_seen' !! key
     = match first_seen !! key with
       | Some first => Some first
       | None => (fun j => start + j) <$> first_position key (record_keys records uc)
       end.
Proof.
  revert start counts first_seen.
  induction records as [|r records IH]; intros start counts first_seen; simpl.
  - split; [lia|]. split; [intuition|]. by destruct (first_seen !! key).
  - set (k := row_key r uc).
    set (counts1 := <[k := default 0 (counts !! k) + 1]> counts).
    set (first1 := match first_seen !! k with
                   | None => <[k := start]> first_seen
                   | Some _ => first_seen
                   end).
    specialize (IH (S start) counts1 first1).
    destruct (fold_left (index_step uc) (enumerate (S start) records)
                (counts1, first1)) as [counts' first_seen'].
    destruct IH as (Hcount & Hnone & Hfirst).
    destruct (decide (k = key)) as [Heq|Hne].
    + assert (counts1 !! key = Some (default 0 (counts !! key) + 1)) as Hc1.
      { unfold counts1. rewrite Heq. apply lookup_insert_eq. }
      assert (first1 !! key = Some (default start (first_seen !! key))) as Hf1.
      { unfold first1. rewrite Heq.
        destruct (first_seen !! key) eqn:E; simpl; [done|].
        apply lookup_insert_eq. }
      rewrite Hc1 in Hcount, Hnone. rewrite Hf1 in Hfirst. simpl in Hcount.
      split; [lia|]. split.
      * rewrite Hnone. split; [by intros [? _]|]. intros [_ ?]. lia.
      * rewrite Hfirst. destruct (first_seen !! key); simpl; [done|].
        f_equal. lia.
    + assert (counts1 !! key = counts !! key) as Hc1.
      { unfold counts1. by apply lookup_insert_ne. }
      assert (first1 !! key = first_seen !! key) as Hf1.
      { unfold first1. destruct (first_seen !! k); [done|].
        by apply lookup_insert_ne. }
      rewrite Hc1 in Hcount, Hnone. rewrite Hf1 in Hfirst.
      split; [done|]. split; [done|].
      rewrite Hfirst. destruct (first_seen !! key); [done|].
      destruct (first_position key (record_keys records uc)); simpl; [|done].
      f_equal. lia.
Qed.

(** The last loop of [build_duplicate_index] over the items of [counts]. *)
Lemma index_merge_spec (first_seen : gmap (list vkey) nat)
    (items : list (list vkey * nat)) (acc : dup_index) :
  NoDup (map fst items) ->
  (forall k cnt, (k, cnt) ∈ items -> is_Some (first_seen !! k)) ->
  exists dup_map : dup_index,
    foldM (fun (dup_map : dup_index) '(k, cnt) =>
             match first_seen !! k with
             | Some first => Ok (<[k := (cnt, first)]> dup_map)
             | None => Raise (KeyError "first_seen")
             end) items acc = Ok dup_map
    /\ (forall k cnt, (k, cnt) ∈ items ->
          exists first, first_seen !! k = Some first
                        /\ dup_map !! k = Some (cnt, first))
    /\ (forall k, k ∉ map fst items -> dup_map !! k = acc !! k).
Proof.
  revert acc. induction items as [|[k0 cnt0] items IH]; intros acc Hnd Hsome; simpl.
  - exists acc. split; [done|]. split; [|done].
    intros k cnt Hin. by apply elem_of_nil in Hin.
  - apply NoDup_cons in Hnd as [Hk0 Hnd].
    destruct (Hsome k0 cnt0) as [first0 Hfirst0]; [by left|].
    rewrite Hfirst0. simpl.
    destruct (IH (<[k0 := (cnt0, first0)]> acc) Hnd) as (dm & Hrun & Hin & Hout).
    { intros k cnt Hmem. apply (Hsome k cnt). by right. }
    exists dm. split; [done|]. split.
    + intros k cnt [Heq|Hmem]%elem_of_cons.
      * injection Heq as -> ->. exists first0. split; [done|].
        rewrite Hout by done. apply lookup_insert_eq.
      * by apply Hin.
    + intros k Hk. simpl in Hk. apply not_elem_of_cons in Hk as [Hne Hk].
      rewrite Hout by done. by apply lookup_insert_ne.
Qed.

(** What [build_duplicate_index] returns for a non-empty uniqueness key:
    every key of the records is mapped to its number of occurrences and to
    the 1-based ordinal of its first occurrence, and nothing else is. *)
Lemma build_duplicate_index_spec (records : list row) (uc : list string) :
  uc <> [] ->
  exists index : dup_index,
    build_duplicate_index records uc = Ok index
    /\ forall key,
         index !! key
         = (fun j => (occurrences key (record_keys records uc), S j))
             <$> first_position key (record_keys records uc).
Proof.
  intros Huc. unfold build_duplicate_index.
  destruct uc as [|c uc']; [done|]. simpl is_nil. cbv iota.
  set (uc := c :: uc').
  pose proof (index_pass_spec uc records 1 ∅ ∅) as Hpass.
  destruct (fold_left (index_step uc) (enumerate 1 records) (∅, ∅))
    as [counts first_seen].
  assert (forall key,
            counts !! key = (if decide (occurrences key (record_keys records uc) = 0)
                             then None
                             else Some (occurrences key (record_keys records uc)))
            /\ first_seen !! key = S <$> first_position key (record_keys records uc))
    as Hspec.
  { intros key. destruct (Hpass key) as (Hcount & Hnone & Hfirst).
    rewrite lookup_empty in Hcount, Hnone, Hfirst. simpl in Hcount. split.
    - case_decide as Hocc.
      + apply Hnone. by split.
      + destruct (counts !! key) eqn:E; simpl in Hcount; [by subst|].
        exfalso. apply Hocc. by apply Hnone.
    - rewrite Hfirst. by destruct (first_position key (record_keys records uc)). }
  destruct (index_merge_spec first_seen (map_to_list counts) ∅)
    as (index & Hrun & Hin & Hout).
  { apply NoDup_fst_map_to_list. }
  { intros k cnt Hmem%elem_of_map_to_list.
    destruct (Hspec k) as [Hc Hf]. rewrite Hc in Hmem. case_decide; [done|].
    rewrite Hf.
    destruct (first_position k (record_keys records uc)) eqn:E; [by eexists|].
    by apply first_position_None in E. }
  exists index. split; [done|]. intros key.
  destruct (Hspec key) as [Hc Hf].
  destruct (first_position key (record_keys records uc)) as [j|] eqn:E; simpl.
  - assert (occurrences key (record_keys records uc) <> 0) as Hocc.
    { intros H0. apply first_position_None in H0. congruence. }
    rewrite decide_False in Hc by done.
    apply elem_of_map_to_list in Hc.
    destruct (Hin _ _ Hc) as (first & Hfirst & Hidx).
    rewrite Hidx. rewrite Hf in Hfirst. simpl in Hfirst. congruence.
  - rewrite Hout; [apply lookup_empty|].
    intros Hmem. apply list_elem_of_fmap in Hmem as ([k cnt] & -> & Hmem).
    apply elem_of_map_to_list in Hmem. simpl in *.
    apply first_position_None in E. rewrite Hc in Hmem.
    by rewrite decide_True in Hmem.
Qed.

End IndexFacts.

Section DuplicateProperties.
Context {rt : PyRuntime}.

Lemma validated_failed r i rules index uc um msg :
  msg ∈ violations r i rules index uc um ->
  exists vr,
    _validate_row r i rules index uc um = Ok vr
    /\ od_get vr "Valid" = Some (VStr "Fail")
    /\ od_get vr "Remarks"
       = Some (VStr (Text.join ", " (violations r i rules index uc um))).
Proof.
  intros Hmem.
  pose proof (validated_Valid _ _ _ _ _ _ _
                (validate_row_ok r i rules index uc um)) as HValid.
  pose proof (validated_Remarks _ _ _ _ _ _ _
                (validate_row_ok r i rules index uc um)) as HRemarks.
  eexists. split; [apply validate_row_ok|]. rewrite HValid, HRemarks.
  destruct (violations r i rules index uc um); [by apply elem_of_nil in Hmem|done].
Qed.

(** The duplicate policy on a row of the records the index was built
    from, in terms of the occurrences of its key. *)
Lemma duplicate_errors_indexed (records : list row) (uc : list string)
    (um : string) (index : dup_index) (i : nat) (r : row) :
  uc <> [] ->
  lowercase_row r ->
  records !! i = Some r ->
  build_duplicate_index records uc = Ok index ->
  exists first,
    first_position (row_key r uc) (record_keys records uc) = Some first
    /\ duplicate_errors (normalize r) (S i) index uc um
       = if negb (String.eqb um "ignore")
            && (1 <? occurrences (row_key r uc) (record_keys records uc))%nat
         then
           if String.eqb um "fail_all" then [msg_duplicate uc]
           else if String.eqb um "keep_first" then
             (if negb (i =? first)%nat then [msg_duplicate uc] else [])
           else []
         else [].
Proof.
  intros Huc Hlow Hi Hbuild.
  destruct (build_duplicate_index_spec records uc Huc) as (index' & Hbuild' & Hidx).
  assert (index' = index) as -> by congruence.
  assert (record_keys records uc !! i = Some (row_key r uc)) as Hkey.
  { unfold record_keys. by rewrite list_lookup_fmap, Hi. }
  destruct (first_position (row_key r uc) (record_keys records uc)) as [first|] eqn:E.
  2: { apply first_position_None in E. apply occurrences_lookup in Hkey. lia. }
  exists first. split; [done|].
  unfold duplicate_errors. rewrite (normalize_lowercase r Hlow), Hidx, E. simpl.
  destruct uc; [done|]. simpl.
  destruct (String.eqb um "ignore"); simpl; [done|].
  done.
Qed.

(** C3. For a non-empty uniqueness key and rows as the record sources
    deliver them, a row whose key tuple occurs more than once among the
    records gets the duplicate violation naming the key fields under
    [fail_all]; under [keep_first] it gets it unless its ordinal is the
    first-seen ordinal of its key, in which case the duplicate policy
    appends nothing. *)
Theorem duplicate_policy_marks_rows
    (records : list row) (uc : list string) (rules : ruleset) (i : nat) (r : row) :
  uc <> [] ->
  Forall lowercase_row records ->
  records !! i = Some r ->
  1 < occurrences (row_key r uc) (record_keys records uc) ->
  exists index first,
    build_duplicate_index records uc = Ok index
    /\ first_position (row_key r uc) (record_keys records uc) = Some first
    /\ duplicate_errors (normalize r) (S i) index uc "fail_all" = [msg_duplicate uc]
    /\ msg_duplicate uc ∈ violations r (S i) rules index uc "fail_all"
    /\ (exists vr,
          _validate_row r (S i) rules index uc "fail_all" = Ok vr
          /\ od_get vr "Valid" = Some (VStr "Fail")
          /\ od_get vr "Remarks"
             = Some (VStr (Text.join ", " (violations r (S i) rules index uc "fail_all"))))
    /\ (S i <> S first ->
          duplicate_errors (normalize r) (S i) index uc "keep_first" = [msg_duplicate uc]
          /\ msg_duplicate uc ∈ violations r (S i) rules index uc "keep_first")
    /\ (S i = S first ->
          duplicate_errors (normalize r) (S i) index uc "keep_first" = []).
Proof.
  intros Huc Hrows Hi Hocc.
  destruct (build_duplicate_index_spec records uc Huc) as (index & Hbuild & _).
  assert (lowercase_row r) as Hlow.
  { eapply Forall_lookup_1; eauto. }
  destruct (duplicate_errors_indexed records uc "fail_all" index i r)
    as (first & Hfirst & Hall); try done.
  destruct (duplicate_errors_indexed records uc "keep_first" index i r)
    as (first' & Hfirst' & Hkeep); try done.
  assert (first' = first) as -> by congruence.
  apply Nat.ltb_lt in Hocc. rewrite Hocc in Hall, Hkeep. simpl in Hall, Hkeep.
  assert (msg_duplicate uc ∈ violations r (S i) rules index uc "fail_all") as Hmem.
  { unfold violations. rewrite Hall. apply elem_of_app. right. by left. }
  exists index, first. repeat split; try done.
  - by apply validated_failed in Hmem.
  - rewrite Hkeep. destruct (Nat.eqb_spec i first); [lia|done].
  - unfold violations. rewrite Hkeep.
    destruct (Nat.eqb_spec i first); [lia|]. apply elem_of_app. right. by left.
  - intros [= ->]. rewrite Hkeep. by rewrite Nat.eqb_refl.
Qed.

End DuplicateProperties.

(* ===================================================================== *)
(** * The validator on input of any shape                                *)
(* ===================================================================== *)

(** [str(value)] returns: the value is not an [int] beyond the digit
    limit. *)
Definition printable (v : value) : Prop :=
  match v with
  | VInt n => too_long n = false
  | _ => True
  end.

(** The member ["_regex_compiled"] of the rule is absent, falsy or a
    compiled pattern: true of every rule that [prep_rules_from_dict]
    prepared from a rule without a stored member of that name. *)
Definition pattern_or_falsy (r : Dyn.rule) : Prop :=
  match od_get r "_regex_compiled" with
  | Some (Stored j) => Dyn.truthy j = false
  | _ => True
  end.

Section DynViolations.
Context {rt : PyRuntime}.

(** The violations of one field, read off [Dyn.check_field]. *)
Definition dyn_field_violations (normalized : row) (field : string) (r : Dyn.rule)
  : list string :=
  match Dyn.check_field normalized field r with
  | Ok es => es
  | Raise _ => []
  end.

(** All the violations of a row: field by field in rule order, then the
    duplicate policy. *)
Definition dyn_violations (r : row) (row_index : nat) (rules : Dyn.ruleset)
    (index : dup_index) (unique_constraints : list string) (unique_mode : string)
  : list string :=
  (flat_map (fun '(field, rl) => dyn_field_violations (normalize r) field rl) rules
   ++ duplicate_errors (normalize r) row_index index unique_constraints unique_mode)%list.

End DynViolations.

Lemma od_set_values {V} (P : V -> Prop) (d : list (string * V)) (k : string) (v : V) :
  Forall P (map snd d) -> P v -> Forall P (map snd (od_set d k v)).
Proof.
  intros Hd Hv. induction d as [|[k' v'] d IH]; simpl.
  - by constructor.
  - simpl in Hd. apply Forall_cons in Hd as [Hv' Hd].
    destruct (String.eqb k' k); simpl; constructor; auto.
Qed.

Lemma normalize_values (P : value -> Prop) (r : row) :
  Forall P (map snd r) -> Forall P (map snd (normalize r)).
Proof.
  unfold normalize.
  enough (forall acc, Forall P (map snd acc) -> Forall P (map snd r) ->
            Forall P (map snd (fold_left
                                 (fun acc '(k, v) => od_set acc (Text.lower k) v) r acc)))
    as Hgen by (intros; apply Hgen; [constructor|done]).
  induction r as [|[k v] r IH]; intros acc Hacc Hr; [done|].
  simpl in Hr. apply Forall_cons in Hr as [Hv Hr]. simpl.
  apply IH; [by apply od_set_values|done].
Qed.

Lemma row_get_values (P : value -> Prop) (d : row) (k : string) :
  Forall P (map snd d) -> P VNone -> P (row_get d k).
Proof.
  intros Hd Hnone. unfold row_get.
  induction d as [|[k' v'] d IH]; simpl; [done|].
  simpl in Hd. apply Forall_cons in Hd as [Hv' Hd].
  destruct (String.eqb k' k); simpl; [done|by apply IH].
Qed.

Lemma od_set_map {A B} (f : A -> B) (d : list (string * A)) (k : string) (v : A) :
  map (fun kv => (fst kv, f (snd kv))) (od_set d k v)
  = od_set (map (fun kv => (fst kv, f (snd kv))) d) k (f v).
Proof.
  induction d as [|[k' v'] d IH]; simpl; [done|].
  destruct (String.eqb k' k); simpl; [done|by rewrite IH].
Qed.

Lemma foldM_app {A S} (body : S -> A -> result S) (a b : list A) (acc : S) :
  foldM body (a ++ b)%list acc = acc' ← foldM body a acc; foldM body b acc'.
Proof.
  revert acc. induction a as [|x a IH]; intros acc; [done|].
  simpl. destruct (body acc x); simpl; [apply IH|done].
Qed.

Section DynFacts.
Context {rt : PyRuntime}.

Lemma py_str_printable (v : value) :
  printable v -> Dyn.py_str v = Ok (py_str v).
Proof. destruct v; simpl; try done. by intros ->. Qed.

Lemma blank_printable (v : value) :
  printable v -> Dyn.blank v = Ok (blank v).
Proof.
  intros Hv. unfold Dyn.blank, blank.
  destruct (is_none v); [done|]. by rewrite py_str_printable.
Qed.

Lemma coerce_printable (typ : option string) (v : value) :
  printable v -> Dyn.coerce typ v = coerce typ v.
Proof.
  intros Hv. unfold Dyn.coerce, coerce. rewrite py_str_printable by done. simpl.
  repeat case_match; done.
Qed.

(** ** The two embeddings agree on the documented shape *)

Lemma declared_type_dict_of_rule (rl : rule) :
  Dyn.declared_type (dict_of_rule rl) = type rl.
Proof. by destruct rl as [req [t|] [p|] [rc|]]. Qed.

Lemma required_dict_of_rule (rl : rule) :
  Dyn.member_truthy (od_get (dict_of_rule rl) "required") = required rl.
Proof. by destruct rl as [req [t|] [p|] [rc|]]. Qed.

Lemma compiled_dict_of_rule (rl : rule) :
  od_get (dict_of_rule rl) "_regex_compiled" = Pattern <$> _regex_compiled rl.
Proof. by destruct rl as [req [t|] [p|] [rc|]]. Qed.

Lemma check_field_refines (normalized : row) (field : string) (rl : rule) :
  printable (row_get normalized field) ->
  Dyn.check_field normalized field (dict_of_rule rl) = check_field normalized field rl.
Proof.
  intros Hv. unfold Dyn.check_field, check_field.
  rewrite required_dict_of_rule, declared_type_dict_of_rule, compiled_dict_of_rule.
  rewrite coerce_printable by done.
  destruct (required rl); simpl.
  - rewrite blank_printable by done. simpl.
    destruct (blank _); [done|].
    destruct (is_none _ || eq_empty_str _); [done|].
    destruct (coerce _ _); [|done].
    destruct (_regex_compiled rl); simpl; [|done]. by rewrite py_str_printable.
  - destruct (is_none _ || eq_empty_str _); [done|].
    destruct (coerce _ _); [|done].
    destruct (_regex_compiled rl); simpl; [|done]. by rewrite py_str_printable.
Qed.

Lemma field_errors_refines (normalized : row) (rules : ruleset) :
  Forall printable (map snd normalized) ->
  Dyn.field_errors normalized (dict_of_rules rules) = field_errors normalized rules.
Proof.
  intros Hv. unfold Dyn.field_errors, field_errors. generalize (@nil string).
  induction rules as [|[field rl] rules IH]; intros acc; [done|].
  cbn [dict_of_rules map foldM fst snd].
  rewrite check_field_refines by (by apply row_get_values).
  destruct (check_field normalized field rl); simpl; [apply IH|done].
Qed.

(** On rules of the documented shape and cells that convert to text, the
    validator of this section is the one of the previous section. *)
Lemma validate_row_refines (r : row) (row_index : nat) (rules : ruleset)
    (index : dup_index) (uc : list string) (um : string) :
  Forall printable (map snd r) ->
  Dyn._validate_row r row_index (dict_of_rules rules) index uc um
  = _validate_row r row_index rules index uc um.
Proof.
  intros Hv. unfold Dyn._validate_row, _validate_row, Dyn.row_errors, row_errors.
  by rewrite field_errors_refines by (by apply normalize_values).
Qed.

Lemma validate_chunk_refines (records : list row) (start : nat) (rules : ruleset)
    (index : dup_index) (uc : list string) (um : string) :
  Forall (fun r => Forall printable (map snd r)) records ->
  Dyn.validate_chunk records start (dict_of_rules rules) index uc um
  = validate_chunk records start rules index uc um.
Proof.
  intros Hv. unfold Dyn.validate_chunk, validate_chunk. f_equal.
  generalize (@nil row, 0, 0, start).
  induction records as [|r records IH]; intros acc; [done|].
  apply Forall_cons in Hv as [Hr Hv]. destruct acc as [[[validated s] f] idx].
  cbn [foldM]. rewrite validate_row_refines by done.
  destruct (_validate_row r idx rules index uc um) as [vr|e]; simpl; [|done].
  destruct (is_success vr) as [[]|e]; simpl; [by apply IH|by apply IH|done].
Qed.

Lemma mapM_lower_strings (l : list string) :
  mapM Dyn.lower (map JStr l) = Ok (map Text.lower l).
Proof. induction l as [|x l IH]; simpl; [done|]. by rewrite IH. Qed.

Lemma prep_rule_refines (raw : raw_rule) :
  Dyn.prep_rule (json_of_raw_rule raw) = rl ← prep_rule raw; Ok (dict_of_rule rl).
Proof.
  unfold Dyn.prep_rule, prep_rule.
  destruct raw as [req [t|] [p|]]; simpl; try reflexivity.
  - destruct (String.eqb p ""); simpl; [reflexivity|].
    unfold re_compile. destruct (re_valid p); reflexivity.
  - destruct (String.eqb p ""); simpl; [reflexivity|].
    unfold re_compile. destruct (re_valid p); reflexivity.
Qed.

Lemma prep_loop_refines (cols : list (string * raw_rule)) (acc : ruleset) :
  foldM (fun (rules : Dyn.ruleset) '(field, raw) =>
           r ← Dyn.prep_rule raw; Ok (od_set rules (Text.lower field) r))
        (map (fun kv => (fst kv, json_of_raw_rule (snd kv))) cols) (dict_of_rules acc)
  = rules ← foldM (fun rules '(field, raw) =>
                     r ← prep_rule raw; Ok (od_set rules (Text.lower field) r))
                  cols acc;
    Ok (dict_of_rules rules).
Proof.
  revert acc. induction cols as [|[field raw] cols IH]; intros acc; [done|].
  cbn [map foldM fst snd]. rewrite prep_rule_refines.
  destruct (prep_rule raw) as [rl|e]; simpl; [|done].
  unfold dict_of_rules at 1. rewrite <- (od_set_map dict_of_rule). apply IH.
Qed.

(** On a rule document of the documented shape, preparation in this
    section is preparation in the previous one. *)
Lemma prep_rules_refines (cfg : rules_doc) :
  Dyn.prep_rules_from_dict (json_of_rules_doc cfg)
  = '(rules, uc, um) ← prep_rules_from_dict cfg; Ok (dict_of_rules rules, uc, um).
Proof.
  unfold Dyn.prep_rules_from_dict, prep_rules_from_dict.
  assert (forall cols,
            foldM (fun (rules : Dyn.ruleset) '(field, raw) =>
                     r ← Dyn.prep_rule raw; Ok (od_set rules (Text.lower field) r))
                  (map (fun kv => (fst kv, json_of_raw_rule (snd kv))) cols) []
            = rules ← foldM (fun rules '(field, raw) =>
                               r ← prep_rule raw; Ok (od_set rules (Text.lower field) r))
                            cols [];
              Ok (dict_of_rules rules)) as Hloop.
  { intros cols. apply (prep_loop_refines cols []). }
  destruct cfg as [[cols|] [ucs|] [um|]];
    cbn -[foldM mapM Dyn.prep_rule prep_rule Text.lower];
    rewrite ?mapM_lower_strings; cbn -[foldM Dyn.prep_rule prep_rule Text.lower];
    try rewrite Hloop;
    try (destruct (foldM _ cols []) as [rules|e]); reflexivity.
Qed.

(** ** When no exception escapes *)

Lemma dyn_check_field_ok (normalized : row) (field : string) (rl : Dyn.rule) :
  printable (row_get normalized field) ->
  pattern_or_falsy rl ->
  Dyn.check_field normalized field rl
  = Ok (dyn_field_violations normalized field rl).
Proof.
  intros Hv Hrc. unfold dyn_field_violations.
  enough (exists es, Dyn.check_field normalized field rl = Ok es) as [es ->] by done.
  unfold Dyn.check_field, pattern_or_falsy in *.
  rewrite blank_printable, py_str_printable by done.
  destruct (Dyn.member_truthy _); simpl.
  - destruct (blank _); [by eexists|].
    destruct (is_none _ || eq_empty_str _); [by eexists|].
    destruct (Dyn.coerce _ _); [|by eexists].
    destruct (od_get rl "_regex_compiled") as [[j|rc]|]; simpl.
    + rewrite Hrc. by eexists.
    + destruct (negb _); by eexists.
    + by eexists.
  - destruct (is_none _ || eq_empty_str _); [by eexists|].
    destruct (Dyn.coerce _ _); [|by eexists].
    destruct (od_get rl "_regex_compiled") as [[j|rc]|]; simpl.
    + rewrite Hrc. by eexists.
    + destruct (negb _); by eexists.
    + by eexists.
Qed.

Lemma dyn_field_errors_ok (normalized : row) (rules : Dyn.ruleset) :
  Forall printable (map snd normalized) ->
  Forall (fun item => pattern_or_falsy (snd item)) rules ->
  Dyn.field_errors normalized rules
  = Ok (flat_map (fun '(field, rl) => dyn_field_violations normalized field rl) rules).
Proof.
  intros Hv Hrules. unfold Dyn.field_errors.
  enough (forall acc,
            foldM (fun errors '(field, r) =>
                     es ← Dyn.check_field normalized field r; Ok (errors ++ es)%list)
                  rules acc
            = Ok (acc ++ flat_map (fun '(field, rl) =>
                                     dyn_field_violations normalized field rl) rules)%list)
    as Hgen by apply (Hgen []).
  induction rules as [|[field rl] rules IH]; intros acc; simpl.
  - by rewrite app_nil_r.
  - apply Forall_cons in Hrules as [Hrl Hrules].
    rewrite dyn_check_field_ok by (by try apply row_get_values).
    simpl. rewrite IH by done. by rewrite <- app_assoc.
Qed.

Lemma dyn_validate_row_ok (r : row) (row_index : nat) (rules : Dyn.ruleset)
    (index : dup_index) (uc : list string) (um : string) :
  Forall printable (map snd r) ->
  Forall (fun item => pattern_or_falsy (snd item)) rules ->
  Dyn.row_errors r row_index rules index uc um
  = Ok (dyn_violations r row_index rules index uc um)
  /\ Dyn._validate_row r row_index rules index uc um
     = Ok (od_set (od_set (normalize r) "Valid"
                     (VStr (verdict (dyn_violations r row_index rules index uc um))))
                  "Remarks"
                  (VStr (remarks (dyn_violations r row_index rules index uc um)))).
Proof.
  intros Hv Hrules.
  assert (Dyn.row_errors r row_index rules index uc um
          = Ok (dyn_violations r row_index rules index uc um)) as Herr.
  { unfold Dyn.row_errors.
    by rewrite dyn_field_errors_ok by (by try apply normalize_values). }
  split; [done|]. unfold Dyn._validate_row. by rewrite Herr.
Qed.

(** The [except] clause catches whatever the conversion raises. *)
Lemma dyn_conversion_failure (normalized : row) (field : string) (rl : Dyn.rule)
    (e : exn) :
  printable (row_get normalized field) ->
  (Dyn.member_truthy (od_get rl "required") && blank (row_get normalized field)) = false ->
  (is_none (row_get normalized field) || eq_empty_str (row_get normalized field)) = false ->
  Dyn.coerce (Dyn.declared_type rl) (row_get normalized field) = Raise e ->
  Dyn.check_field normalized field rl = Ok [msg_invalid field (Dyn.declared_type rl)].
Proof.
  intros Hv Hreq Hskip Hraise. unfold Dyn.check_field.
  rewrite blank_printable by done.
  destruct (Dyn.member_truthy _); simpl in *; by rewrite ?Hreq, Hskip, Hraise.
Qed.

(** The conversions are those of the five type names. *)
Lemma dyn_coerce_raises (typ : option string) (v : value) (e : exn) :
  Dyn.coerce typ v = Raise e ->
  typ = Some "int" \/ typ = Some "float" \/ typ = Some "decimal"
  \/ typ = Some "date" \/ typ = Some "str".
Proof.
  unfold Dyn.coerce, typ_is. destruct typ as [t|]; [|done].
  destruct (String.eqb_spec t "int") as [->|_]; [auto|].
  destruct (String.eqb_spec t "float") as [->|_]; [auto|].
  destruct (String.eqb_spec t "decimal") as [->|_]; [auto|].
  destruct (String.eqb_spec t "date") as [->|_]; [auto 6|].
  destruct (String.eqb_spec t "str") as [->|_]; [auto 6|done].
Qed.

End DynFacts.

Section DynClaims.
Context {rt : PyRuntime}.

(** A rule that preparation returns holds no stored ["_regex_compiled"]
    that the rule document did not hold: the member is absent, the one
    that was stored, or the compiled pattern. *)
Lemma prep_rule_pattern_or_falsy (raw : json) (r : Dyn.rule) :
  (forall r0, Dyn.dict raw = Ok r0 -> pattern_or_falsy r0) ->
  Dyn.prep_rule raw = Ok r ->
  pattern_or_falsy r.
Proof.
  intros Hraw. unfold Dyn.prep_rule.
  destruct (Dyn.dict raw) as [r0|e]; simpl; [|done].
  specialize (Hraw r0 eq_refl).
  destruct (od_get r0 "regex") as [regex|]; [|by intros [= <-]].
  assert (forall rc, pattern_or_falsy (od_set r0 "_regex_compiled" (Pattern rc)))
    as Hset.
  { intros rc. unfold pattern_or_falsy. by rewrite od_get_set_eq. }
  destruct regex as [j|rc0]; [destruct (Dyn.truthy j); [|by intros [= <-]]|].
  - destruct (Dyn.compile (Stored j)) as [rc|e]; simpl; [|done]. by intros [= <-].
  - simpl. by intros [= <-].
Qed.

(** C9, as the code has it. The [try] block of [_validate_row] holds the
    conversions and nothing else. On a row whose cells convert to text and
    a rule set in which every ["_regex_compiled"] is absent, falsy or a
    compiled pattern, [_validate_row] returns a validated row and raises
    nothing: the result carries [Valid] and [Remarks] computed from the
    violations, and whenever the conversion that a rule declares ([int],
    [float], [decimal], [date] or [str]) raises on a checked value,
    whatever the exception, the rule yields ["<field> invalid <type>"],
    the row fails and its Remarks are the joined violations, which hold
    that one. *)
Theorem validate_row_captures_conversion_failures
    (r : row) (row_index : nat) (rules : Dyn.ruleset) (index : dup_index)
    (uc : list string) (um : string) :
  Forall printable (map snd r) ->
  Forall (fun item => pattern_or_falsy (snd item)) rules ->
  exists errors vr,
    Dyn.row_errors r row_index rules index uc um = Ok errors
    /\ Dyn._validate_row r row_index rules index uc um = Ok vr
    /\ od_get vr "Valid" = Some (VStr (verdict errors))
    /\ od_get vr "Remarks" = Some (VStr (remarks errors))
    /\ forall field rl e,
         (field, rl) ∈ rules ->
         (Dyn.member_truthy (od_get rl "required")
          && blank (row_get (normalize r) field)) = false ->
         (is_none (row_get (normalize r) field)
          || eq_empty_str (row_get (normalize r) field)) = false ->
         Dyn.coerce (Dyn.declared_type rl) (row_get (normalize r) field) = Raise e ->
         (exists t, Dyn.declared_type rl = Some t
                    /\ t ∈ ["int"; "float"; "decimal"; "date"; "str"])
         /\ Dyn.check_field (normalize r) field rl
            = Ok [msg_invalid field (Dyn.declared_type rl)]
         /\ msg_invalid field (Dyn.declared_type rl) ∈ errors
         /\ od_get vr "Valid" = Some (VStr "Fail")
         /\ od_get vr "Remarks" = Some (VStr (Text.join ", " errors)).
Proof.
  intros Hcells Hrules.
  destruct (dyn_validate_row_ok r row_index rules index uc um Hcells Hrules)
    as [Herr Hrow].
  set (errors := dyn_violations r row_index rules index uc um) in *.
  eexists errors, _. split; [exact Herr|]. split; [exact Hrow|].
  assert (forall (d : row) a b,
            od_get (od_set (od_set d "Valid" a) "Remarks" b) "Valid" = Some a) as HValid.
  { intros. rewrite od_get_set_ne by done. apply od_get_set_eq. }
  rewrite HValid, od_get_set_eq.
  split; [done|]. split; [done|].
  intros field rl e Hin Hreq Hskip Hraise.
  assert (printable (row_get (normalize r) field)) as Hv.
  { apply row_get_values; [by apply normalize_values|exact I]. }
  pose proof (dyn_conversion_failure _ _ _ _ Hv Hreq Hskip Hraise) as Hfield.
  assert (msg_invalid field (Dyn.declared_type rl) ∈ errors) as Hmem.
  { unfold errors, dyn_violations. apply elem_of_app. left.
    apply list_elem_of_In, in_flat_map. exists (field, rl).
    split; [by apply list_elem_of_In|].
    unfold dyn_field_violations. rewrite Hfield. by left. }
  split.
  { apply dyn_coerce_raises in Hraise.
    destruct Hraise as [->|[->|[->|[->| ->]]]]; eexists; (split; [done|]);
      rewrite !elem_of_cons; auto 6. }
  split; [done|]. split; [done|].
  unfold verdict, remarks.
  destruct errors as [|msg errors']; [by apply elem_of_nil in Hmem|done].
Qed.

End DynClaims.

(* ===================================================================== *)
(** * The chunk API and the chunk scheduler                              *)
(* ===================================================================== *)

Section ChunkFacts.
Context {rt : PyRuntime}.

Lemma validate_row_validated r i rules index uc um :
  _validate_row r i rules index uc um = Ok (validated r i rules index uc um).
Proof. apply validate_row_ok. Qed.

(** A validated row is the normalised input row followed by its verdict
    and its remarks. *)
Lemma validated_shape r i rules index uc um :
  validated r i rules index uc um
  = (normalize r
     ++ [("Valid", VStr (verdict (violations r i rules index uc um)));
         ("Remarks", VStr (remarks (violations r i rules index uc um)))])%list.
Proof.
  unfold validated.
  assert (forall k, Text.lower k <> k -> k ∉ map fst (normalize r)) as Hfresh.
  { intros k Hk Hin. pose proof (normalize_keys r) as Hall.
    rewrite Forall_forall in Hall. by apply Hk, Hall. }
  rewrite (od_set_fresh (normalize r) "Valid") by (by apply Hfresh).
  rewrite od_set_fresh; [by rewrite <- app_assoc|].
  rewrite map_app. simpl. intros [Hin|Hin]%elem_of_app.
  - by apply (Hfresh "Remarks").
  - apply list_elem_of_singleton in Hin. discriminate.
Qed.

Lemma is_success_validated r i rules index uc um :
  is_success (validated r i rules index uc um) = Ok (passes rules index uc um (i, r)).
Proof.
  unfold is_success, od_getitem.
  rewrite (validated_Valid _ _ _ _ _ _ _ (validate_row_validated r i rules index uc um)).
  unfold passes, verdict. simpl.
  by destruct (violations r i rules index uc um).
Qed.

Lemma count_cons {A} (test : A -> bool) (b : bool) (x : A) (l : list A) :
  length (filter (fun item => test item = b) (x :: l))
  = (if bool_decide (test x = b) then 1 else 0)
    + length (filter (fun item => test item = b) l).
Proof.
  rewrite filter_cons. destruct (decide (test x = b)) as [H|H].
  - by rewrite bool_decide_eq_true_2.
  - by rewrite bool_decide_eq_false_2.
Qed.

Lemma validate_chunk_ok rows start rules index uc um :
  validate_chunk rows start rules index uc um
  = Ok (chunk_output start rows rules index uc um).
Proof.
  unfold validate_chunk, chunk_output, validated_from.
  match goal with |- context [foldM ?b _ _] => set (body := b) end.
  enough (forall vs s f idx,
    foldM body rows (vs, s, f, idx)
    = Ok ((vs ++ map (fun '(i, r) => validated r i rules index uc um)
                     (enumerate idx rows))%list,
          s + length (filter (fun item => passes rules index uc um item = true)
                        (enumerate idx rows)),
          f + length (filter (fun item => passes rules index uc um item = false)
                        (enumerate idx rows)),
          idx + length rows)) as Hloop.
  { by rewrite Hloop. }
  induction rows as [|r rows IH]; intros vs s f idx; simpl.
  - by rewrite app_nil_r, !Nat.add_0_r.
  - rewrite validate_row_validated. simpl. rewrite is_success_validated. simpl.
    rewrite !count_cons.
    destruct (passes rules index uc um (idx, r)) eqn:Hpass; simpl.
    + rewrite IH, Nat.add_1_r, <- app_assoc. simpl. f_equal.
      repeat match goal with |- (_, _) = (_, _) => f_equal end; lia.
    + rewrite IH, Nat.add_1_r, <- app_assoc. simpl. f_equal.
      repeat match goal with |- (_, _) = (_, _) => f_equal end; lia.
Qed.

Lemma enumerate_length {A} (start : nat) (l : list A) :
  length (enumerate start l) = length l.
Proof. revert start. induction l; intros start; simpl; [done|]. by rewrite IHl. Qed.

Lemma validated_from_length start rows rules index uc um :
  length (validated_from start rows rules index uc um) = length rows.
Proof. unfold validated_from. by rewrite length_map, enumerate_length. Qed.

(** [validate_chunk] counts each row once: as a success or as a failure. *)
Lemma chunk_output_counts start rows rules index uc um :
  let '(vs, s, f) := chunk_output start rows rules index uc um in
  s + f = length vs.
Proof.
  unfold chunk_output. rewrite validated_from_length.
  rewrite <- (enumerate_length start rows).
  induction (enumerate start rows) as [|item l IH]; [done|].
  rewrite !count_cons. simpl.
  destruct (passes rules index uc um item); simpl; lia.
Qed.

Lemma run_batch_ok batch rules index uc um :
  run_batch batch rules index uc um
  = Ok (map (fun '(i, rows) => (i, chunk_output (i + 1) rows rules index uc um)) batch).
Proof.
  induction batch as [|[i rows] batch IH]; simpl; [done|].
  rewrite validate_chunk_ok. simpl. by rewrite IH.
Qed.

End ChunkFacts.

(** ** Sorting the results of a batch *)

Section SortFacts.
Context {A : Type}.

Lemma insert_by_key_place (x : nat * A) (l1 l2 : list (nat * A)) :
  (forall y, y ∈ l1 -> key_lt y x) ->
  (forall y, y ∈ l2 -> key_lt x y) ->
  insert_by_key x (l1 ++ l2)%list = (l1 ++ x :: l2)%list.
Proof.
  intros Hl1 Hl2. induction l1 as [|y l1 IH]; simpl.
  - destruct l2 as [|y l2]; simpl; [done|].
    assert (key_lt x y) as Hxy by (apply Hl2; by left).
    unfold key_lt in Hxy. destruct (Nat.leb_spec (fst x) (fst y)); [done|lia].
  - assert (key_lt y x) as Hyx by (apply Hl1; by left).
    unfold key_lt in Hyx. destruct (Nat.leb_spec (fst x) (fst y)); [lia|].
    rewrite IH; [done|]. intros z Hz. apply Hl1. by right.
Qed.

(** Sorting any rearrangement of a list whose keys increase strictly gives
    that list back. *)
Lemma sorted_by_key_permutation (l l' : list (nat * A)) :
  StronglySorted key_lt l -> l' ≡ₚ l -> sorted_by_key l' = l.
Proof.
  revert l. induction l' as [|x l' IH]; intros l Hsorted Hperm; simpl.
  - symmetry. by apply Permutation_nil.
  - assert (x ∈ l) as Hx by (rewrite <- Hperm; by left).
    apply list_elem_of_split in Hx as (l1 & l2 & ->).
    apply Permutation_cons_app_inv in Hperm.
    apply StronglySorted_app in Hsorted as (Hcross & Hs1 & Hs2).
    apply StronglySorted_cons in Hs2 as (Hx2 & Hs2).
    rewrite (IH (l1 ++ l2)%list); [|by apply StronglySorted_app_2; auto; intros; apply Hcross; auto; by right|done].
    apply insert_by_key_place.
    + intros y Hy. apply Hcross; [done|by left].
    + intros y Hy. by eapply Forall_forall in Hx2.
Qed.

Lemma StronglySorted_take {B} (R : relation B) (l : list B) (n : nat) :
  StronglySorted R l -> StronglySorted R (take n l).
Proof.
  intros Hs. rewrite <- (take_drop n l) in Hs.
  by apply StronglySorted_app in Hs as (_ & Hs & _).
Qed.

Lemma StronglySorted_drop {B} (R : relation B) (l : list B) (n : nat) :
  StronglySorted R l -> StronglySorted R (drop n l).
Proof.
  intros Hs. rewrite <- (take_drop n l) in Hs.
  by apply StronglySorted_app in Hs as (_ & _ & Hs).
Qed.

End SortFacts.

(** ** Ranges and slices *)

Lemma py_range_from_zero (n step : nat) :
  0 < step ->
  py_range 0 n step = Ok (map (fun k => k * step) (seq 0 (chunk_count step n))).
Proof.
  intros Hstep. unfold py_range, chunk_count. destruct step as [|step]; [lia|].
  by rewrite Nat.sub_0_r.
Qed.

Lemma chunk_count_covers (n step : nat) :
  0 < step -> n <= chunk_count step n * step.
Proof.
  intros Hstep. unfold chunk_count.
  pose proof (Nat.div_mod_eq (n + step - 1) step) as Hdiv.
  pose proof (Nat.mod_upper_bound (n + step - 1) step) as Hmod.
  nia.
Qed.

Lemma chunk_count_tight (n step k : nat) :
  0 < step -> k < chunk_count step n -> k * step < n.
Proof.
  intros Hstep Hk. unfold chunk_count in Hk.
  pose proof (Nat.div_mod_eq (n + step - 1) step) as Hdiv.
  pose proof (Nat.mod_upper_bound (n + step - 1) step) as Hmod.
  nia.
Qed.

Lemma py_slice_step {A} (l : list A) (i step : nat) :
  py_slice l i (i + step) = take step (drop i l).
Proof. unfold py_slice. f_equal. lia. Qed.

(** The first [m] slices of width [step], put end to end, are the first
    [m * step] elements. *)
Lemma slices_concat {A} (l : list A) (step m : nat) :
  concat (map (fun k => py_slice l (k * step) (k * step + step)) (seq 0 m))
  = take (m * step) l.
Proof.
  induction m as [|m IH]; [done|].
  rewrite seq_S, map_app, concat_app, IH. simpl.
  rewrite app_nil_r, py_slice_step, take_take_drop. f_equal. lia.
Qed.

Lemma slices_cover {A} (l : list A) (step : nat) :
  0 < step ->
  concat (map (fun k => py_slice l (k * step) (k * step + step))
            (seq 0 (chunk_count step (length l)))) = l.
Proof.
  intros Hstep. rewrite slices_concat. apply take_ge.
  by apply chunk_count_covers.
Qed.

Lemma enumerate_drop {A} (start i : nat) (l : list A) :
  drop i (enumerate start l) = enumerate (start + i) (drop i l).
Proof.
  revert start i. induction l as [|x l IH]; intros start [|i]; simpl;
    rewrite ?Nat.add_0_r; try done.
  rewrite IH. f_equal. lia.
Qed.

Lemma enumerate_take {A} (start i : nat) (l : list A) :
  take i (enumerate start l) = enumerate start (take i l).
Proof.
  revert start i. induction l as [|x l IH]; intros start [|i]; simpl; try done.
  by rewrite IH.
Qed.

(** ** The scheduler loop *)

Lemma lift_ok_bind {A B} (a : A) (k : A -> prog B) : (lift (Ok a) ≫= k) = k a.
Proof. unfold lift. simpl. by destruct (k a). Qed.

Lemma merge_chunk_run (total : nat) (st : run_stats) (item : nat * chunk_result) :
  merge_chunk total st item
  = (progress_of total (processed (merged st item)), Ok (merged st item)).
Proof. by destruct item as [i [[vs s] f]]. Qed.

Lemma for_each_merge (total : nat) (results : list (nat * chunk_result))
    (st : run_stats) :
  for_each (merge_chunk total) results st
  = (merge_trace total st results, Ok (fold_left merged results st)).
Proof.
  revert st. induction results as [|item results IH]; intros st; simpl; [done|].
  rewrite merge_chunk_run. simpl. by rewrite IH.
Qed.

Lemma merge_trace_app (total : nat) (st : run_stats)
    (l1 l2 : list (nat * chunk_result)) :
  merge_trace total st (l1 ++ l2)%list
  = (merge_trace total st l1 ++ merge_trace total (fold_left merged l1 st) l2)%list.
Proof.
  revert st. induction l1 as [|item l1 IH]; intros st; simpl; [done|].
  by rewrite IH.
Qed.

Section SchedulerFacts.
Context {rt : PyRuntime}.
Context (completion : completion_order).
Context (completion_permutes :
  forall (batch_start : nat) (results : list (nat * chunk_result)),
    completion batch_start results ≡ₚ results).
Context (rules : ruleset) (index : dup_index) (uc : list string) (um : string).

Lemma results_of_sorted (batch : list (nat * list row)) :
  StronglySorted key_lt batch ->
  StronglySorted key_lt (results_of rules index uc um batch).
Proof.
  apply StronglySorted_fmap. by intros [i rows] [j rows'].
Qed.

(** However the tasks of a batch complete, the merge loop sees the chunk
    results in chunk order. *)
Lemma batch_merge_order (batch_start : nat) (batch : list (nat * list row)) :
  StronglySorted key_lt batch ->
  sorted_by_key (completion batch_start (results_of rules index uc um batch))
  = results_of rules index uc um batch.
Proof.
  intros Hs. apply sorted_by_key_permutation; [by apply results_of_sorted|done].
Qed.

Lemma scheduler_batches (total workers : nat) (chunks : list (nat * list row))
    (batch_starts : list nat) (st : run_stats) :
  StronglySorted key_lt chunks ->
  for_each (fun st batch_start =>
              let batch := py_slice chunks batch_start (batch_start + workers) in
              results ← lift (run_batch batch rules index uc um);
              let results := completion batch_start results in
              for_each (merge_chunk total) (sorted_by_key results) st)
           batch_starts st
  = (merge_trace total st
       (results_of rules index uc um
          (concat (map (fun b => py_slice chunks b (b + workers)) batch_starts))),
     Ok (fold_left merged
           (results_of rules index uc um
          (concat (map (fun b => py_slice chunks b (b + workers)) batch_starts)))
           st)).
Proof.
  intros Hs. revert st.
  induction batch_starts as [|b bs IH]; intros st; [done|].
  cbn [for_each map concat]. rewrite run_batch_ok, lift_ok_bind.
  fold (results_of rules index uc um (py_slice chunks b (b + workers))).
  rewrite batch_merge_order
    by (unfold py_slice; by apply StronglySorted_take, StronglySorted_drop).
  rewrite for_each_merge. cbn [mbind prog_bind]. rewrite IH.
  unfold results_of. rewrite map_app, merge_trace_app, fold_left_app. done.
Qed.

Lemma chunks_of_sorted (chunk_size : nat) (records : list row) :
  0 < chunk_size -> StronglySorted key_lt (chunks_of chunk_size records).
Proof.
  intros Hc. unfold chunks_of. rewrite <- list_fmap_compose.
  generalize (chunk_count chunk_size (length records)). intros m.
  induction m as [|m IH]; [constructor|].
  rewrite seq_S, fmap_app. apply StronglySorted_app_2; [|done|repeat constructor].
  intros x1 x2 Hx1 Hx2. apply list_elem_of_fmap in Hx1 as (k & -> & Hk).
  apply list_elem_of_singleton in Hx2 as ->. apply elem_of_seq in Hk.
  unfold key_lt. simpl. nia.
Qed.

(** The scheduler merges the chunk results in chunk order, whatever the
    completion order and the number of workers. *)
Lemma chunk_scheduler_run (chunk_size workers : nat) (records : list row) :
  0 < chunk_size -> 0 < workers ->
  chunk_scheduler chunk_size workers completion records rules index uc um
  = (merge_trace (length records) run_stats_init
       (results_of rules index uc um (chunks_of chunk_size records)),
     Ok (fold_left merged (results_of rules index uc um (chunks_of chunk_size records))
           run_stats_init)).
Proof.
  intros Hc Hw. unfold chunk_scheduler.
  rewrite py_range_from_zero, lift_ok_bind by done.
  fold (chunks_of chunk_size records).
  rewrite py_range_from_zero, lift_ok_bind by done.
  rewrite scheduler_batches by (by apply chunks_of_sorted).
  rewrite <- list_fmap_compose.
  assert (concat ((fun b => py_slice (chunks_of chunk_size records) b (b + workers))
                    ∘ (fun k => k * workers)
                  <$> seq 0 (chunk_count workers (length (chunks_of chunk_size records))))
          = chunks_of chunk_size records) as ->; [|done].
  apply (slices_cover (chunks_of chunk_size records) workers Hw).
Qed.

End SchedulerFacts.

Section SchedulerOutcome.
Context {rt : PyRuntime}.
Context (rules : ruleset) (index : dup_index) (uc : list string) (um : string).

(** A chunk validated on its own, from its starting ordinal, is the
    matching slice of the records validated in one go. *)
Lemma chunk_valid_slice (chunk_size k : nat) (records : list row) :
  validated_from (k * chunk_size + 1)
    (py_slice records (k * chunk_size) (k * chunk_size + chunk_size)) rules index uc um
  = py_slice (validated_from 1 records rules index uc um)
      (k * chunk_size) (k * chunk_size + chunk_size).
Proof.
  rewrite !py_slice_step. unfold validated_from.
  rewrite <- fmap_drop, <- fmap_take, enumerate_drop, enumerate_take.
  do 2 f_equal. lia.
Qed.

(** The accumulators and the events after the first [m] chunks. *)
Lemma scheduler_prefix (total chunk_size m : nat) (records : list row) :
  let V := validated_from 1 records rules index uc um in
  let results :=
    results_of rules index uc um
      (map (fun i => (i, py_slice records i (i + chunk_size)))
           (map (fun k => k * chunk_size) (seq 0 m))) in
  let st := fold_left merged results run_stats_init in
  validated_records st = take (m * chunk_size) V
  /\ processed st = length (take (m * chunk_size) V)
  /\ total_success st + total_failure st = processed st
  /\ merge_trace total run_stats_init results
     = flat_map (fun k => progress_of total (length (take ((k + 1) * chunk_size) V)))
         (seq 0 m).
Proof.
  intros V. induction m as [|m IH]; [done|].
  cbv zeta in IH |- *. destruct IH as (Hv & Hp & Hsum & Htrace).
  unfold results_of in *.
  rewrite seq_S, !map_app, fold_left_app, merge_trace_app, flat_map_app.
  cbn [map fold_left merge_trace flat_map plus].
  rewrite Htrace. clear Htrace.
  set (st := fold_left merged _ run_stats_init) in *.
  pose proof (chunk_output_counts (m * chunk_size + 1)
                (py_slice records (m * chunk_size) (m * chunk_size + chunk_size))
                rules index uc um) as Hcounts.
  unfold chunk_output in Hcounts |- *. rewrite chunk_valid_slice in Hcounts |- *.
  fold V in Hcounts |- *. cbn [merged validated_records processed total_success
                              total_failure].
  assert (take (m * chunk_size) V
            ++ py_slice V (m * chunk_size) (m * chunk_size + chunk_size)
          = take (S m * chunk_size) V)%list as Hstep.
  { rewrite py_slice_step, take_take_drop. f_equal. lia. }
  rewrite Hv, Hp, Hstep, app_nil_r.
  assert (length (take (m * chunk_size) V)
          + length (py_slice V (m * chunk_size) (m * chunk_size + chunk_size))
          = length (take (S m * chunk_size) V)) as Hlen.
  { by rewrite <- Hstep, length_app. }
  rewrite Hlen. replace ((m + 1) * chunk_size) with (S m * chunk_size) by lia.
  repeat split; try done. lia.
Qed.

End SchedulerOutcome.

(** ** What the scheduler returns *)

Section SchedulerResult.
Context {rt : PyRuntime}.
Context (completion : completion_order).
Context (completion_permutes :
  forall (batch_start : nat) (results : list (nat * chunk_result)),
    completion batch_start results ≡ₚ results).

Lemma scheduler_outcome (chunk_size workers : nat) (records : list row)
    (rules : ruleset) (index : dup_index) (uc : list string) (um : string) :
  0 < chunk_size -> 0 < workers ->
  exists st,
    chunk_scheduler chunk_size workers completion records rules index uc um
    = (flat_map (fun k => progress_of (length records)
                            (Nat.min ((k + 1) * chunk_size) (length records)))
         (seq 0 (chunk_count chunk_size (length records))),
       Ok st)
    /\ validated_records st = validated_from 1 records rules index uc um
    /\ processed st = length records
    /\ total_success st + total_failure st = length records.
Proof.
  intros Hc Hw.
  rewrite (chunk_scheduler_run completion completion_permutes) by done.
  destruct (scheduler_prefix rules index uc um (length records) chunk_size
              (chunk_count chunk_size (length records)) records)
    as (Hv & Hp & Hsum & Htrace).
  unfold chunks_of. eexists. split; [|split; [|split]].
  - rewrite Htrace. f_equal. apply flat_map_ext. intros k.
    by rewrite length_take, validated_from_length.
  - rewrite Hv. apply take_ge. rewrite validated_from_length.
    by apply chunk_count_covers.
  - rewrite Hp, take_ge, validated_from_length; [done|].
    rewrite validated_from_length. by apply chunk_count_covers.
  - rewrite Hsum, Hp, take_ge, validated_from_length; [done|].
    rewrite validated_from_length. by apply chunk_count_covers.
Qed.

End SchedulerResult.

Lemma progress_counts_app (t1 t2 : list event) :
  progress_counts (t1 ++ t2)%list = (progress_counts t1 ++ progress_counts t2)%list.
Proof. apply omap_app. Qed.

Lemma progress_counts_chunks (total : nat) (p : nat -> nat) (m : nat) :
  progress_counts (flat_map (fun k => progress_of total (p k)) (seq 0 m))
  = map p (seq 0 m).
Proof.
  induction (seq 0 m) as [|k l IH]; [done|].
  cbn [flat_map map]. rewrite progress_counts_app, IH. done.
Qed.

(** The counts reported chunk after chunk increase strictly. *)
Lemma chunk_progress_increasing (chunk_size n m : nat) :
  0 < chunk_size -> m <= chunk_count chunk_size n ->
  StronglySorted lt (map (fun k => Nat.min ((k + 1) * chunk_size) n) (seq 0 m)).
Proof.
  intros Hc. induction m as [|m IH]; intros Hm; [constructor|].
  rewrite seq_S, map_app.
  apply StronglySorted_app_2; [|apply IH; lia|repeat constructor].
  intros x1 x2 Hx1 Hx2. apply list_elem_of_fmap in Hx1 as (k & -> & Hk).
  apply list_elem_of_singleton in Hx2 as ->. apply elem_of_seq in Hk.
  assert (m * chunk_size < n) by (apply chunk_count_tight; [done|lia]).
  simpl. nia.
Qed.

(* ===================================================================== *)
(** * The run driver                                                     *)
(* ===================================================================== *)

Lemma emit_bind {B} (e : event) (k : unit -> prog B) :
  (emit e ≫= k) = prepend [e] (k tt).
Proof. unfold emit, prepend. simpl. by destruct (k tt). Qed.

Lemma raise_bind {A B} (e : exn) (k : A -> prog B) :
  (lift (Raise e) ≫= k) = ([], Raise e).
Proof. done. Qed.

Lemma run_bind {A B} (t : list event) (a : A) (k : A -> prog B) :
  ((t, Ok a) ≫= k) = prepend t (k a).
Proof. unfold prepend. simpl. by destruct (k a). Qed.

Lemma mret_bind {A B} (a : A) (k : A -> prog B) : (mret a ≫= k) = k a.
Proof. unfold mret, prog_ret. simpl. by destruct (k a). Qed.

Lemma prepend_prepend {A} (t1 t2 : list event) (p : prog A) :
  prepend t1 (prepend t2 p) = prepend (t1 ++ t2) p.
Proof. unfold prepend. simpl. by rewrite app_assoc. Qed.

Lemma try_except_prepend {A} (t : list event) (p : prog A) (handler : exn -> prog A) :
  try_except (prepend t p) handler = prepend t (try_except p handler).
Proof.
  unfold prepend. destruct p as [t' [a|e]]; simpl; [done|].
  destruct (handler e). simpl. by rewrite app_assoc.
Qed.

Lemma try_except_raise {A} (e : exn) (handler : exn -> prog A) :
  try_except ([], Raise e) handler = handler e.
Proof. simpl. by destruct (handler e). Qed.

Lemma on_failure_run (e : exn) :
  on_failure e = ([AuditFailed e; Publish (WsError e)], Raise e).
Proof. done. Qed.

Lemma completed_not_progress (total : nat) (p : nat -> nat) (l : list nat) a b c :
  AuditCompleted a b c ∉ flat_map (fun k => progress_of total (p k)) l.
Proof.
  induction l as [|k l IH]; simpl; [by intros ?%elem_of_nil|].
  intros [H|[H|H]%elem_of_cons]%elem_of_cons; [done|done|auto].
Qed.

Section PipelineFacts.
Context {rt : PyRuntime}.
Context (completion : completion_order).
Context (completion_permutes :
  forall (batch_start : nat) (results : list (nat * chunk_result)),
    completion batch_start results ≡ₚ results).

Lemma pipeline_unsupported (w : world) :
  supported (content_type w) = false ->
  exists e,
    run_excel_validation_pipeline completion w
    = ([AuditRunning; ReadS3; AuditFailed e; Publish (WsError e)], Raise e).
Proof.
  intros Hct. unfold supported in Hct. apply orb_false_iff in Hct as [Hx Hc].
  eexists. unfold run_excel_validation_pipeline.
  rewrite Hx, Hc, !emit_bind, raise_bind, !try_except_prepend, try_except_raise.
  fold (on_failure (ValueError ("Unsupported S3 Content-Type: "
                                ++ default "None" (content_type w)))).
  by rewrite on_failure_run.
Qed.

(** A run on a supported object, up to the preparation of the rules. *)
Lemma pipeline_loaded (w : world) :
  supported (content_type w) = true ->
  run_excel_validation_pipeline completion w
  = prepend (loading_events (length (file_rows w)))
      (try_except
         (rules_cfg ←
            (if rules_missing (rules_json w)
             then lift (Raise (ValueError "No rules found"))
             else mret (default {| columns := None; unique_constraints := None;
                                   unique_mode := None |} (rules_json w)));
          '(rules, unique_cols, unique_mode) ← lift (prep_rules_from_dict rules_cfg);
          index ← lift (build_duplicate_index (file_rows w) unique_cols);
          st ← chunk_scheduler CHUNK_SIZE WORKERS completion (file_rows w) rules
                 index unique_cols unique_mode;
          publish_results (length (file_rows w)) st)
         on_failure).
Proof.
  intros Hct. unfold run_excel_validation_pipeline.
  assert ((if Text.contains "spreadsheetml" (default "" (content_type w))
           then mret (file_rows w)
           else if Text.contains "csv" (default "" (content_type w))
                then mret (file_rows w)
                else lift (Raise (ValueError ("Unsupported S3 Content-Type: "
                                              ++ default "None" (content_type w)))))
          = (mret (file_rows w) : prog (list row))) as ->.
  { unfold supported in Hct.
    destruct (Text.contains "spreadsheetml" (default "" (content_type w))); [done|].
    simpl in Hct. by rewrite Hct. }
  rewrite !emit_bind, mret_bind, !emit_bind, !try_except_prepend, !prepend_prepend.
  done.
Qed.

Lemma pipeline_rules_missing (w : world) :
  supported (content_type w) = true ->
  rules_missing (rules_json w) = true ->
  run_excel_validation_pipeline completion w
  = ((loading_events (length (file_rows w))
      ++ [AuditFailed (ValueError "No rules found");
          Publish (WsError (ValueError "No rules found"))])%list,
     Raise (ValueError "No rules found")).
Proof.
  intros Hct Hmiss. rewrite pipeline_loaded by done.
  by rewrite Hmiss, raise_bind, try_except_raise, on_failure_run.
Qed.

(** A run whose rule document does not compile: it fails with the error of
    [prep_rules_from_dict] once the records are loaded, and validates
    nothing. *)
Lemma pipeline_rules_error (w : world) (cfg : rules_doc) (e : exn) :
  supported (content_type w) = true ->
  rules_missing (rules_json w) = false ->
  rules_json w = Some cfg ->
  prep_rules_from_dict cfg = Raise e ->
  run_excel_validation_pipeline completion w
  = ((loading_events (length (file_rows w))
      ++ [AuditFailed e; Publish (WsError e)])%list,
     Raise e).
Proof.
  intros Hct Hmiss Hcfg Hprep. rewrite pipeline_loaded by done.
  rewrite Hmiss, Hcfg, mret_bind. simpl default.
  by rewrite Hprep, raise_bind, try_except_raise, on_failure_run.
Qed.

Lemma build_duplicate_index_ok (records : list row) (uc : list string) :
  exists index, build_duplicate_index records uc = Ok index.
Proof.
  destruct uc as [|c uc]; [by exists ∅|].
  destruct (build_duplicate_index_spec records (c :: uc)) as (index & H & _);
    [done|by exists index].
Qed.

(** A run whose rules compile: the scheduler validates every record, then
    the results are published. *)
Lemma pipeline_validated (w : world) (cfg : rules_doc)
    (rules : ruleset) (uc : list string) (um : string) :
  supported (content_type w) = true ->
  rules_missing (rules_json w) = false ->
  rules_json w = Some cfg ->
  prep_rules_from_dict cfg = Ok (rules, uc, um) ->
  exists index st,
    build_duplicate_index (file_rows w) uc = Ok index
    /\ validated_records st = validated_from 1 (file_rows w) rules index uc um
    /\ processed st = length (file_rows w)
    /\ total_success st + total_failure st = length (file_rows w)
    /\ run_excel_validation_pipeline completion w
       = prepend (loading_events (length (file_rows w))
                  ++ progress_events (length (file_rows w)))
           (try_except (publish_results (length (file_rows w)) st) on_failure).
Proof.
  intros Hct Hmiss Hcfg Hprep.
  destruct (build_duplicate_index_ok (file_rows w) uc) as [index Hindex].
  destruct (scheduler_outcome completion completion_permutes CHUNK_SIZE WORKERS
              (file_rows w) rules index uc um) as (st & Hrun & Hv & Hp & Hsum).
  { unfold CHUNK_SIZE. lia. }
  { unfold WORKERS. lia. }
  exists index, st. repeat (split; [done|]).
  rewrite pipeline_loaded by done.
  rewrite Hmiss, Hcfg, mret_bind. simpl default.
  rewrite Hprep, lift_ok_bind, Hindex, lift_ok_bind, Hrun, run_bind.
  by rewrite try_except_prepend, prepend_prepend.
Qed.

(** Steps 5 to 7 when there is nothing to write: the writer hands back
    [None] and the driver fails on it. *)
Lemma publish_results_empty (n : nat) (st : run_stats) :
  validated_records st = [] ->
  try_except (publish_results n st) on_failure
  = ([AuditFailed (AttributeError "'NoneType' object has no attribute 'getvalue'");
      Publish (WsError (AttributeError "'NoneType' object has no attribute 'getvalue'"))],
     Raise (AttributeError "'NoneType' object has no attribute 'getvalue'")).
Proof. intros Hv. unfold publish_results. by rewrite Hv. Qed.

Lemma publish_results_completed (n : nat) (st : run_stats) a b c :
  AuditCompleted a b c ∈ fst (try_except (publish_results n st) on_failure) ->
  a = n /\ b = total_success st /\ c = total_failure st.
Proof.
  unfold publish_results.
  destruct (getvalue _) as [excel|e]; simpl.
  2: { intros [H|[H|H]%elem_of_cons]%elem_of_cons; try done.
       by apply elem_of_nil in H. }
  destruct (json_dumps _) as [json|e]; simpl.
  - intros H. repeat (apply elem_of_cons in H as [H|H]; [try done|]).
    + by injection H as -> -> ->.
    + by apply elem_of_nil in H.
  - intros H. repeat (apply elem_of_cons in H as [H|H]; [try done|]).
    by apply elem_of_nil in H.
Qed.

End PipelineFacts.

(* ===================================================================== *)
(** * Counts, order and progress of a run                                *)
(* ===================================================================== *)

Lemma enumerate_lookup {A} (start i : nat) (l : list A) :
  enumerate start l !! i = (fun x => (start + i, x)) <$> l !! i.
Proof.
  revert start i. induction l as [|x l IH]; intros start [|i]; simpl; try done.
  - by rewrite Nat.add_0_r.
  - rewrite IH. destruct (l !! i); simpl; [|done]. do 2 f_equal. lia.
Qed.

Section RunProperties.
Context {rt : PyRuntime}.

(** C1. Whatever the rule set and the rows: [validate_chunk] counts every
    row of its slice once, as a success or as a failure; the scheduler
    returns with [total_success + total_failure] equal to the number of
    input rows; and the counts that a completed run records add up to its
    [total_records], the number of rows read. *)
Theorem counts_add_up
    (completion : completion_order) (chunk_size workers : nat)
    (records : list row) (rules : ruleset) (index : dup_index)
    (uc : list string) (um : string) (w : world) :
  0 < chunk_size ->
  0 < workers ->
  (forall batch_start results, completion batch_start results ≡ₚ results) ->
  (forall start rows, exists vs s f,
      validate_chunk rows start rules index uc um = Ok (vs, s, f)
      /\ s + f = length rows /\ length vs = length rows)
  /\ (exists t st,
        chunk_scheduler chunk_size workers completion records rules index uc um
        = (t, Ok st)
        /\ total_success st + total_failure st = length records
        /\ processed st = length records
        /\ length (validated_records st) = length records)
  /\ (forall total s f,
        completed_with (fst (run_excel_validation_pipeline completion w)) total s f ->
        total = length (file_rows w) /\ s + f = total).
Proof.
  intros Hc Hw Hperm. split; [|split].
  - intros start rows. rewrite validate_chunk_ok.
    pose proof (chunk_output_counts start rows rules index uc um) as Hcount.
    unfold chunk_output in *. eexists _, _, _. split; [done|].
    rewrite validated_from_length in *. done.
  - destruct (scheduler_outcome completion Hperm chunk_size workers records
                rules index uc um Hc Hw) as (st & Hrun & Hv & Hp & Hsum).
    eexists _, st. split; [done|]. repeat split; try done.
    by rewrite Hv, validated_from_length.
  - intros total s f. unfold completed_with.
    destruct (supported (content_type w)) eqn:Hct.
    2: { destruct (pipeline_unsupported completion w Hct) as [e ->]. simpl.
         intros H. repeat (apply elem_of_cons in H as [H|H]; [done|]).
         by apply elem_of_nil in H. }
    destruct (rules_missing (rules_json w)) eqn:Hmiss.
    { rewrite pipeline_rules_missing by done. simpl.
      intros H. repeat (apply elem_of_cons in H as [H|H]; [done|]).
      by apply elem_of_nil in H. }
    assert (exists cfg, rules_json w = Some cfg) as [cfg Hcfg].
    { destruct (rules_json w); [by eexists|discriminate Hmiss]. }
    destruct (prep_rules_from_dict cfg) as [[[rules' uc'] um']|e] eqn:Hprep.
    2: { rewrite (pipeline_rules_error completion w cfg e) by done. simpl.
         intros H. repeat (apply elem_of_cons in H as [H|H]; [done|]).
         by apply elem_of_nil in H. }
    destruct (pipeline_validated completion Hperm w cfg rules' uc' um')
      as (index' & st & _ & _ & _ & Hsum & ->); try done.
    unfold prepend. cbn [fst].
    intros [[H|H]%elem_of_app|H]%elem_of_app.
    + unfold loading_events in H.
      repeat (apply elem_of_cons in H as [H|H]; [done|]).
      by apply elem_of_nil in H.
    + by apply completed_not_progress in H.
    + apply publish_results_completed in H as (-> & -> & ->). done.
Qed.

(** C2. Whatever the chunk size, the number of workers and the order in
    which the chunks of a batch complete, the scheduler returns the
    validated rows in input order: the row at position [i] of the output is
    the input row at position [i], validated with ordinal [i + 1], that is,
    the normalised input row followed by its verdict and remarks. *)
Theorem output_order_is_input_order
    (completion : completion_order) (chunk_size workers : nat)
    (records : list row) (rules : ruleset) (index : dup_index)
    (uc : list string) (um : string) :
  0 < chunk_size ->
  0 < workers ->
  (forall batch_start results, completion batch_start results ≡ₚ results) ->
  exists t st,
    chunk_scheduler chunk_size workers completion records rules index uc um
    = (t, Ok st)
    /\ validated_records st = validated_from 1 records rules index uc um
    /\ length (validated_records st) = length records
    /\ forall i r,
         records !! i = Some r ->
         validated_records st !! i = Some (validated r (S i) rules index uc um)
         /\ _validate_row r (S i) rules index uc um
            = Ok (validated r (S i) rules index uc um)
         /\ take (length (normalize r)) (validated r (S i) rules index uc um)
            = normalize r.
Proof.
  intros Hc Hw Hperm.
  destruct (scheduler_outcome completion Hperm chunk_size workers records
              rules index uc um Hc Hw) as (st & Hrun & Hv & Hp & Hsum).
  eexists _, st. split; [done|]. split; [done|].
  split; [by rewrite Hv, validated_from_length|].
  intros i r Hi. split; [|split].
  - rewrite Hv. unfold validated_from.
    by rewrite list_lookup_fmap, enumerate_lookup, Hi.
  - apply validate_row_validated.
  - rewrite validated_shape. by rewrite take_app_length.
Qed.

(** C8, as the code has it. The scheduler emits one progress event per
    chunk, in chunk order: after chunk [k] it reports
    [processed = min ((k + 1) * chunk_size) total] with the percentage
    computed from [processed] and [total]. The reported counts increase
    strictly over the run, and there are as many as there are chunks. *)
Theorem progress_once_per_chunk
    (completion : completion_order) (chunk_size workers : nat)
    (records : list row) (rules : ruleset) (index : dup_index)
    (uc : list string) (um : string) :
  0 < chunk_size ->
  0 < workers ->
  (forall batch_start results, completion batch_start results ≡ₚ results) ->
  exists t st,
    chunk_scheduler chunk_size workers completion records rules index uc um
    = (t, Ok st)
    /\ t = flat_map
             (fun k =>
                let processed := Nat.min ((k + 1) * chunk_size) (length records) in
                [UpdateProgress processed (length records);
                 Publish (WsProgress processed
                            (Round2Percent processed (length records)))])
             (seq 0 (chunk_count chunk_size (length records)))
    /\ length (progress_counts t) = chunk_count chunk_size (length records)
    /\ StronglySorted lt (progress_counts t).
Proof.
  intros Hc Hw Hperm.
  destruct (scheduler_outcome completion Hperm chunk_size workers records
              rules index uc um Hc Hw) as (st & Hrun & _).
  eexists _, st. split; [done|]. split; [done|].
  rewrite progress_counts_chunks. split.
  - by rewrite length_map, length_seq.
  - by apply chunk_progress_increasing.
Qed.

End RunProperties.

(* ===================================================================== *)
(** * Runs that fail                                                     *)
(* ===================================================================== *)

Section FailureProperties.
Context {rt : PyRuntime}.






Lemma progress_events_none : progress_events 0 = [].
Proof.
  unfold progress_events, chunk_count.
  rewrite Nat.div_small; [done|]. unfold CHUNK_SIZE. lia.
Qed.

(** C6 on the code. With no rows the writer returns no artifact, and the
    run driver then fails on the missing artifact: the run is recorded as
    failed and no completion with zero counts is recorded. *)
Theorem empty_input_run_fails
    (completion : completion_order) (w : world) (cfg : rules_doc)
    (rules : ruleset) (uc : list string) (um : string) :
  (forall batch_start results, completion batch_start results ≡ₚ results) ->
  supported (content_type w) = true ->
  rules_json w = Some cfg ->
  rules_missing (rules_json w) = false ->
  prep_rules_from_dict cfg = Ok (rules, uc, um) ->
  file_rows w = [] ->
  write_validated_excel_stream [] = None
  /\ run_excel_validation_pipeline completion w
     = ((loading_events 0
         ++ [AuditFailed (AttributeError "'NoneType' object has no attribute 'getvalue'");
             Publish (WsError (AttributeError
                                 "'NoneType' object has no attribute 'getvalue'"))])%list,
        Raise (AttributeError "'NoneType' object has no attribute 'getvalue'"))
  /\ forall total s f,
       ~ completed_with (fst (run_excel_validation_pipeline completion w)) total s f.
Proof.
  intros Hperm Hct Hcfg Hmiss Hprep Hrows. split; [done|].
  destruct (pipeline_validated completion Hperm w cfg rules uc um)
    as (index & st & _ & Hv & _ & _ & Hrun); try done.
  rewrite Hrows in Hv, Hrun. simpl in Hv.
  rewrite publish_results_empty in Hrun by done.
  cbn [length] in Hrun. rewrite progress_events_none, app_nil_r in Hrun.
  rewrite Hrun. split; [done|].
  intros total s f H. unfold completed_with in H. simpl in H.
  repeat (apply elem_of_cons in H as [H|H]; [done|]).
  by apply elem_of_nil in H.
Qed.

End FailureProperties.

(* ===================================================================== *)
(** * excel_reader.py and csv_reader.py                                  *)
(* ===================================================================== *)

(** [{headers[i]: row[i] if i < len(row) else None
      for i in range(len(headers))}] *)
Definition record_of (headers : list string) (cells : list value) : row :=
  fold_left (fun d i =>
               od_set d (default "" (headers !! i))
                 (if (i <? length cells)%nat then default VNone (cells !! i) else VNone))
            (seq 0 (length headers)) [].

(** [stream_excel_records]. The sheet is given by the tuples that
    [iter_rows(values_only=True)] yields: its first row, then the rows from
    the second on. *)
Definition stream_excel_records `{PyRuntime} (header_row : list value)
    (data_rows : list (list value)) : list row :=
  let headers :=
    map (fun h => if negb (is_none h) then Text.lower (Text.strip (py_str h)) else "")
        header_row in
  map (fun cells => record_of headers cells) data_rows.

(** [stream_csv_records], once the dialect is sniffed. [rows] is
    [list(reader)]: the lines of the text split into fields by that
    dialect. *)
Definition stream_csv_records (rows : list (list string)) : list row :=
  match rows with
  | [] => []
  | first :: rest =>
      let headers := map (fun h => Text.lower (Text.strip h)) first in
      map (fun cells => record_of headers (map VStr cells)) rest
  end.

(** The position of the last occurrence of [h] among the headers. *)
Fixpoint last_position (h : string) (headers : list string) : option nat :=
  match headers with
  | [] => None
  | h' :: headers' =>
      match last_position h headers' with
      | Some i => Some (S i)
      | None => if String.eqb h' h then Some 0 else None
      end
  end.

Section ReaderFacts.

Lemma od_set_keys {V} (d : list (string * V)) (k : string) (v : V) :
  map fst (od_set d k v) = if bool_decide (k ∈ map fst d) then map fst d
                           else (map fst d ++ [k])%list.
Proof.
  induction d as [|[k' v'] d IH]; simpl; [done|].
  destruct (String.eqb_spec k' k) as [->|Hne]; simpl.
  - rewrite bool_decide_eq_true_2; [done|by left].
  - rewrite IH. destruct (bool_decide (k ∈ map fst d)) eqn:E.
    + apply bool_decide_eq_true in E.
      rewrite bool_decide_eq_true_2; [done|by right].
    + apply bool_decide_eq_false in E.
      rewrite bool_decide_eq_false_2; [done|].
      intros [?|?]%elem_of_cons; congruence.
Qed.

Lemma od_set_wf {V} (d : list (string * V)) (k : string) (v : V) :
  od_wf d -> od_wf (od_set d k v).
Proof.
  unfold od_wf. intros Hd. rewrite od_set_keys.
  destruct (bool_decide (k ∈ map fst d)) eqn:E; [done|].
  apply bool_decide_eq_false in E. apply NoDup_app. split; [done|].
  split; [|apply NoDup_singleton].
  intros x Hx ->%list_elem_of_singleton. done.
Qed.

(** The loop of [record_of] from any dictionary [d], over the headers from
    position [start] on. *)
Lemma record_loop_get (headers hs : list string) (cells : list value)
    (start : nat) (d : row) (h : string) :
  (forall j, hs !! j = headers !! (start + j)) ->
  od_get (fold_left (fun d i =>
                       od_set d (default "" (headers !! i))
                         (if (i <? length cells)%nat
                          then default VNone (cells !! i) else VNone))
            (seq start (length hs)) d) h
  = match last_position h hs with
    | Some j => Some (default VNone (cells !! (start + j)))
    | None => od_get d h
    end.
Proof.
  revert start d. induction hs as [|h0 hs IH]; intros start d Hhs; [done|].
  cbn [length seq fold_left].
  assert (headers !! start = Some h0) as Hh0.
  { rewrite <- (Nat.add_0_r start), <- Hhs. done. }
  rewrite IH.
  2: { intros j. specialize (Hhs (S j)). simpl in Hhs. rewrite Hhs. f_equal. lia. }
  rewrite Hh0. simpl. destruct (last_position h hs) as [j|].
  - repeat f_equal. lia.
  - destruct (String.eqb_spec h0 h) as [->|Hne].
    + rewrite od_get_set_eq, Nat.add_0_r. f_equal.
      destruct (Nat.ltb_spec start (length cells)); [done|].
      by rewrite lookup_ge_None_2.
    + by rewrite od_get_set_ne.
Qed.

Lemma record_loop_keys (headers : list string) (cells : list value)
    (indices : list nat) (d : row) :
  od_wf d ->
  Forall (fun k => Text.lower k = k) (map fst d) ->
  Forall (fun i => Text.lower (default "" (headers !! i)) = default "" (headers !! i))
         indices ->
  lowercase_row
    (fold_left (fun d i =>
                  od_set d (default "" (headers !! i))
                    (if (i <? length cells)%nat
                     then default VNone (cells !! i) else VNone))
       indices d).
Proof.
  revert d. induction indices as [|i indices IH]; intros d Hwf Hlow Hidx; [done|].
  apply Forall_cons in Hidx as [Hi Hidx]. cbn [fold_left].
  apply IH; [by apply od_set_wf| |done].
  rewrite od_set_keys. destruct (bool_decide _); [done|].
  apply Forall_app. split; [done|]. by constructor.
Qed.

Lemma record_of_lowercase (headers : list string) (cells : list value) :
  Forall (fun h => Text.lower h = h) headers ->
  lowercase_row (record_of headers cells).
Proof.
  intros Hh. apply record_loop_keys; [constructor|constructor|].
  apply Forall_forall. intros i _.
  destruct (headers !! i) as [h|] eqn:E; simpl; [|done].
  rewrite Forall_forall in Hh. apply Hh. by eapply list_elem_of_lookup_2.
Qed.

Lemma record_of_get (headers : list string) (cells : list value) (h : string) :
  od_get (record_of headers cells) h
  = (fun j => default VNone (cells !! j)) <$> last_position h headers.
Proof.
  unfold record_of. rewrite (record_loop_get headers headers cells 0 [] h) by done.
  by destruct (last_position h headers).
Qed.

End ReaderFacts.

(** The header names of a sheet, as [stream_excel_records] normalises
    them. *)
Definition excel_headers `{PyRuntime} (header_row : list value) : list string :=
  map (fun h => if negb (is_none h) then Text.lower (Text.strip (py_str h)) else "")
      header_row.

(** The header names of a delimited text. *)
Definition csv_headers (first : list string) : list string :=
  map (fun h => Text.lower (Text.strip h)) first.

Section ReaderProperties.
Context {rt : PyRuntime}.

Lemma excel_headers_lowercase (header_row : list value) :
  Forall (fun h => Text.lower h = h) (excel_headers header_row).
Proof.
  unfold excel_headers. apply Forall_fmap, Forall_forall. intros h _. simpl.
  destruct (is_none h); simpl; [done|apply lower_idem].
Qed.

Lemma csv_headers_lowercase (first : list string) :
  Forall (fun h => Text.lower h = h) (csv_headers first).
Proof.
  unfold csv_headers. apply Forall_fmap, Forall_forall. intros h _. simpl.
  apply lower_idem.
Qed.

Lemma readers_lowercase_aux (header_row : list value) (data_rows : list (list value)) :
  Forall lowercase_row (stream_excel_records header_row data_rows).
Proof.
  unfold stream_excel_records. apply Forall_fmap, Forall_forall. intros cells _.
  apply record_of_lowercase, excel_headers_lowercase.
Qed.

(** X1. Both record sources deliver rows as the validator expects them: every
    row is a dictionary without repeated keys whose keys are lower-case, so
    the validator's own normalisation leaves it as it is. *)
Theorem readers_deliver_lowercase_rows
    (header_row : list value) (data_rows : list (list value))
    (rows : list (list string)) :
  Forall lowercase_row (stream_excel_records header_row data_rows)
  /\ Forall lowercase_row (stream_csv_records rows)
  /\ Forall (fun r => normalize r = r) (stream_excel_records header_row data_rows)
  /\ Forall (fun r => normalize r = r) (stream_csv_records rows).
Proof.
  pose proof (readers_lowercase_aux header_row data_rows) as Hx.
  assert (Forall lowercase_row (stream_csv_records rows)) as Hc.
  { destruct rows as [|first rest]; [constructor|].
    unfold stream_csv_records. apply Forall_fmap, Forall_forall. intros cells _.
    apply record_of_lowercase, csv_headers_lowercase. }
  repeat split; try done.
  - eapply Forall_impl; [exact Hx|]. intros r. apply normalize_lowercase.
  - eapply Forall_impl; [exact Hc|]. intros r. apply normalize_lowercase.
Qed.

(** X2. Each data row becomes one record, in row order. A record maps a header
    name to the cell of the rightmost column that carries the name, to
    [None] when the row is too short to have that cell, and holds no other
    key. *)
Theorem reader_records_by_header
    (header_row : list value) (data_rows : list (list value))
    (first : list string) (rest : list (list string))
    (i : nat) (cells : list value) (fields : list string) (h : string) :
  data_rows !! i = Some cells ->
  rest !! i = Some fields ->
  length (stream_excel_records header_row data_rows) = length data_rows
  /\ length (stream_csv_records (first :: rest)) = length rest
  /\ (exists r,
        stream_excel_records header_row data_rows !! i = Some r
        /\ od_get r h
           = (fun j => default VNone (cells !! j))
               <$> last_position h (excel_headers header_row))
  /\ (exists r,
        stream_csv_records (first :: rest) !! i = Some r
        /\ od_get r h
           = (fun j => default VNone (VStr <$> fields !! j))
               <$> last_position h (csv_headers first)).
Proof.
  intros Hcells Hfields. unfold stream_excel_records, stream_csv_records.
  rewrite !length_map. split; [done|]. split; [done|]. split.
  - eexists. rewrite list_lookup_fmap, Hcells. split; [done|].
    apply record_of_get.
  - eexists. rewrite list_lookup_fmap, Hfields. split; [done|].
    rewrite record_of_get. fold (csv_headers first).
    destruct (last_position h (csv_headers first)); simpl; [|done].
    by rewrite list_lookup_fmap.
Qed.

(** X3. Read and validated: among the records of a sheet, a row whose key
    tuple occurs more than once gets the duplicate violation under
    [fail_all], with no assumption on the sheet. *)
Theorem sheet_duplicates_are_marked
    (header_row : list value) (data_rows : list (list value))
    (uc : list string) (rules : ruleset) (i : nat) (r : row) :
  uc <> [] ->
  stream_excel_records header_row data_rows !! i = Some r ->
  1 < occurrences (row_key r uc)
        (record_keys (stream_excel_records header_row data_rows) uc) ->
  exists index,
    build_duplicate_index (stream_excel_records header_row data_rows) uc = Ok index
    /\ msg_duplicate uc ∈ violations r (S i) rules index uc "fail_all".
Proof.
  intros Huc Hi Hocc.
  set (records := stream_excel_records header_row data_rows) in *.
  destruct (build_duplicate_index_ok records uc) as [index Hindex].
  assert (lowercase_row r) as Hlow.
  { pose proof (readers_lowercase_aux header_row data_rows) as Hall.
    eapply Forall_lookup_1; eauto. }
  destruct (duplicate_errors_indexed records uc "fail_all" index i r)
    as (first & _ & Hdup); try done.
  apply Nat.ltb_lt in Hocc. rewrite Hocc in Hdup. simpl in Hdup.
  exists index. split; [done|].
  unfold violations. rewrite Hdup. apply elem_of_app. right. by left.
Qed.

Lemma record_of_columns (headers : list string) (cells cells' : list value) :
  map fst (record_of headers cells) = map fst (record_of headers cells').
Proof.
  unfold record_of. generalize (seq 0 (length headers)) as indices.
  enough (forall indices (d d' : row), map fst d = map fst d' ->
            map fst (fold_left (fun d i =>
                       od_set d (default "" (headers !! i))
                         (if (i <? length cells)%nat
                          then default VNone (cells !! i) else VNone)) indices d)
            = map fst (fold_left (fun d i =>
                         od_set d (default "" (headers !! i))
                           (if (i <? length cells')%nat
                            then default VNone (cells' !! i) else VNone)) indices d'))
    as Hgen by (intros indices; by apply Hgen).
  induction indices as [|i indices IH]; intros d d' Hd; simpl; [done|].
  apply IH. by rewrite !od_set_keys, Hd.
Qed.

(** X4. All records of one sheet, and all records of one delimited text, have
    the same columns in the same order, whatever the length of each line:
    a short line is padded and the cells beyond the headers are dropped. *)
Theorem reader_records_share_columns
    (header_row : list value) (data_rows : list (list value))
    (lines : list (list string)) :
  (exists columns,
      Forall (fun r => map fst r = columns) (stream_excel_records header_row data_rows))
  /\ (exists columns,
        Forall (fun r => map fst r = columns) (stream_csv_records lines)).
Proof.
  split.
  - exists (map fst (record_of (excel_headers header_row) [])).
    unfold stream_excel_records. apply Forall_fmap, Forall_forall.
    intros cells _. apply record_of_columns.
  - destruct lines as [|first rest]; [by exists []|].
    exists (map fst (record_of (csv_headers first) [])).
    unfold stream_csv_records. apply Forall_fmap, Forall_forall.
    intros cells _. apply record_of_columns.
Qed.

End ReaderProperties.

(* ===================================================================== *)
(** * Rule preparation                                                   *)
(* ===================================================================== *)

(** The prepared form of a column rule whose pattern compiles. *)
Definition compiled_rule (raw : raw_rule) : rule :=
  {| required := raw_required raw;
     type := raw_type raw;
     regex := raw_regex raw;
     _regex_compiled :=
       match raw_regex raw with
       | Some p => if negb (String.eqb p "") then Some (Compiled p) else None
       | None => None
       end |}.

(** The last column rule whose case-folded name is [name]. *)
Fixpoint last_rule (name : string) (cols : list (string * raw_rule)) : option raw_rule :=
  match cols with
  | [] => None
  | (field, raw) :: cols' =>
      match last_rule name cols' with
      | Some r => Some r
      | None => if String.eqb (Text.lower field) name then Some raw else None
      end
  end.

Section RuleProperties.
Context {rt : PyRuntime}.

Lemma prep_rule_ok (raw : raw_rule) :
  ~ malformed raw -> prep_rule raw = Ok (compiled_rule raw).
Proof.
  intros Hgood. unfold prep_rule, compiled_rule, re_compile.
  destruct (raw_regex raw) as [p|] eqn:Hp; [|done].
  destruct (String.eqb_spec p "") as [->|Hne]; simpl; [done|].
  destruct (re_valid p) eqn:Hvalid; [done|].
  exfalso. apply Hgood. by exists p.
Qed.

Lemma prep_loop_ok (cols : list (string * raw_rule)) (acc : ruleset) :
  Forall (fun item => ~ malformed (snd item)) cols ->
  od_wf acc ->
  Forall (fun k => Text.lower k = k) (map fst acc) ->
  exists rules,
    foldM (fun rules '(field, raw) =>
             r ← prep_rule raw; Ok (od_set rules (Text.lower field) r))
          cols acc = Ok rules
    /\ od_wf rules
    /\ Forall (fun k => Text.lower k = k) (map fst rules)
    /\ forall name,
         od_get rules name
         = match last_rule name cols with
           | Some raw => Some (compiled_rule raw)
           | None => od_get acc name
           end.
Proof.
  revert acc. induction cols as [|[field raw] cols IH]; intros acc Hgood Hwf Hlow.
  - exists acc. by repeat split.
  - apply Forall_cons in Hgood as [Hraw Hgood]. simpl in Hraw.
    cbn [foldM]. rewrite (prep_rule_ok raw Hraw). simpl.
    destruct (IH (od_set acc (Text.lower field) (compiled_rule raw)))
      as (rules & Hrun & Hwf' & Hlow' & Hget); [done|by apply od_set_wf| |].
    { rewrite od_set_keys. destruct (bool_decide _); [done|].
      apply Forall_app. split; [done|]. constructor; [apply lower_idem|constructor]. }
    exists rules. repeat split; try done.
    intros name. rewrite Hget. simpl.
    destruct (last_rule name cols); [done|].
    destruct (String.eqb_spec (Text.lower field) name) as [<-|Hne].
    + apply od_get_set_eq.
    + by apply od_get_set_ne.
Qed.

(** X5. When every pattern compiles, preparation returns a rule set keyed by
    case-folded field names, each held once: a name is mapped to the
    prepared form of the last column rule that folds to it. The uniqueness
    key is case-folded, and the mode is case-folded with ["ignore"] for an
    absent one. *)
Theorem prepared_rules_are_case_folded (cfg : rules_doc) :
  Forall (fun item => ~ malformed (snd item)) (default [] (columns cfg)) ->
  exists rules,
    prep_rules_from_dict cfg
    = Ok (rules, map Text.lower (default [] (unique_constraints cfg)),
          Text.lower (default "ignore" (unique_mode cfg)))
    /\ od_wf rules
    /\ Forall (fun k => Text.lower k = k) (map fst rules)
    /\ forall name,
         od_get rules name
         = compiled_rule <$> last_rule name (default [] (columns cfg)).
Proof.
  intros Hgood. unfold prep_rules_from_dict.
  destruct (prep_loop_ok (default [] (columns cfg)) [] Hgood)
    as (rules & Hrun & Hwf & Hlow & Hget); [constructor|constructor|].
  exists rules. rewrite Hrun. split; [done|]. split; [done|]. split; [done|].
  intros name. rewrite Hget. by destruct (last_rule _ _).
Qed.

End RuleProperties.

(* ===================================================================== *)
(** * Rule preparation on any document                                   *)
(* ===================================================================== *)









(** The column rules of a document. *)
Definition columns_of (cfg : json) : list (string * json) :=
  match cfg with
  | JObj members =>
      match default (JObj []) (od_get members "columns") with
      | JObj cols => cols
      | _ => []
      end
  | _ => []
  end.



(** An exception of a kind that an ill-shaped document raises. *)
Definition shape_error (e : exn) : Prop :=
  match e with
  | AttributeError _ | TypeError _ | ValueError _ => True
  | _ => False
  end.

(** One step of the loop in which [dict] reads a sequence of pairs. *)
Definition dict_step (r : Dyn.rule) (element : nat * json) : result Dyn.rule :=
  let '(i, item) := element in
  '(k, v) ← Dyn.pair_of i item;
  _ ← Dyn.hashable k;
  Ok (match k with
      | JStr name => od_set r name (Stored v)
      | _ => r
      end).



Lemma dict_sequence (j : json) (elements : list json) :
  (forall members, j <> JObj members) ->
  Dyn.iterate j = Ok elements ->
  Dyn.dict j = foldM dict_step (enumerate 0 elements) [].
Proof.
  intros Hj. destruct j; simpl; try done; try (by intros [= <-]).
  by destruct (Hj members).
Qed.


Section PreparationFacts.
Context {rt : PyRuntime}.

Lemma compile_spec (j : json) :
  Dyn.truthy j = true ->
  match j with
  | JStr p => Dyn.compile (Stored j) = re_compile p
  | _ => exists e, Dyn.compile (Stored j) = Raise e /\ shape_error e
  end.
Proof.
  destruct j; simpl; try done; intros _; eexists; split; try reflexivity; exact I.
Qed.





Lemma prep_loop_pattern_or_falsy (cols : list (string * json))
    (acc rules : Dyn.ruleset) :
  foldM (fun (rules : Dyn.ruleset) '(field, raw) =>
           r ← Dyn.prep_rule raw; Ok (od_set rules (Text.lower field) r))
        cols acc = Ok rules ->
  Forall (fun kv => forall r0, Dyn.dict (snd kv) = Ok r0 -> pattern_or_falsy r0) cols ->
  Forall pattern_or_falsy (map snd acc) ->
  Forall pattern_or_falsy (map snd rules).
Proof.
  revert acc. induction cols as [|[field raw] cols IH]; intros acc Hrun Hcols Hacc.
  - by injection Hrun as <-.
  - apply Forall_cons in Hcols as [Hraw Hcols]. cbn [foldM] in Hrun.
    destruct (Dyn.prep_rule raw) as [r|e] eqn:Hr; simpl in Hrun; [|done].
    apply (IH _ Hrun Hcols). apply od_set_values; [done|].
    by apply (prep_rule_pattern_or_falsy raw).
Qed.

(** The rule sets that preparation returns for a document whose rules
    store no ["_regex_compiled"] of their own are rule sets as the
    validator needs them. *)
Lemma prepared_rules_pattern_or_falsy (cfg : json) (rules : Dyn.ruleset)
    (uc : list string) (um : string) :
  Dyn.prep_rules_from_dict cfg = Ok (rules, uc, um) ->
  Forall (fun kv => forall r0, Dyn.dict (snd kv) = Ok r0 -> pattern_or_falsy r0)
         (columns_of cfg) ->
  Forall (fun item => pattern_or_falsy (snd item)) rules.
Proof.
  unfold Dyn.prep_rules_from_dict, columns_of.
  destruct cfg as [| | | | | |members]; simpl; try done.
  destruct (Dyn.iterate _) as [elements|e]; simpl; [|done].
  destruct (mapM Dyn.lower elements) as [names|e]; simpl; [|done].
  destruct (default (JStr "ignore") (od_get members "unique_mode"))
    as [| | | |mode| |]; simpl; try done.
  destruct (default (JObj []) (od_get members "columns"))
    as [| | | | | |cols]; simpl; try done.
  intros Hrun Hcols.
  match type of Hrun with
  | context [foldM ?body cols []] =>
      destruct (foldM body cols []) as [rules'|e] eqn:Hloop; simpl in Hrun; [|done]
  end.
  injection Hrun as <- _ _.
  apply (Forall_fmap snd pattern_or_falsy).
  by apply (prep_loop_pattern_or_falsy cols [] rules' Hloop).
Qed.

End PreparationFacts.

(* ===================================================================== *)
(** * More on the row validator                                          *)
(* ===================================================================== *)

Lemma occurrences_two (key : list vkey) (keys : list (list vkey)) (i j : nat) :
  i <> j -> keys !! i = Some key -> keys !! j = Some key ->
  1 < occurrences key keys.
Proof.
  revert i j. induction keys as [|k keys IH]; intros i j Hne Hi Hj; [done|].
  simpl. destruct i as [|i], j as [|j]; simpl in *; try done.
  - injection Hi as ->. rewrite decide_True by done.
    apply occurrences_lookup in Hj. lia.
  - injection Hj as ->. rewrite decide_True by done.
    apply occurrences_lookup in Hi. lia.
  - assert (1 < occurrences key keys) by (apply (IH i j); auto). lia.
Qed.

Lemma od_get_app_l {V} (d d' : list (string * V)) (k : string) (v : V) :
  od_get d k = Some v -> od_get (d ++ d')%list k = Some v.
Proof.
  induction d as [|[k0 v0] d IH]; simpl; [done|].
  by destruct (String.eqb k0 k).
Qed.

Section ValidatorMore.
Context {rt : PyRuntime}.

(** X7. A row whose key tuple occurs at most once among the indexed records is
    never marked as a duplicate, whatever the mode; this includes a row
    whose key the index does not hold. *)
Theorem unique_rows_are_not_marked
    (records : list row) (uc : list string) (um : string) (index : dup_index)
    (r : row) (row_index : nat) :
  uc <> [] ->
  lowercase_row r ->
  build_duplicate_index records uc = Ok index ->
  occurrences (row_key r uc) (record_keys records uc) <= 1 ->
  duplicate_errors (normalize r) row_index index uc um = [].
Proof.
  intros Huc Hlow Hbuild Hocc.
  destruct (build_duplicate_index_spec records uc Huc) as (index' & Hbuild' & Hidx).
  assert (index' = index) as -> by congruence.
  unfold duplicate_errors. rewrite (normalize_lowercase r Hlow), Hidx.
  destruct (negb (is_nil uc) && negb (String.eqb um "ignore")); [|done].
  destruct (first_position (row_key r uc) (record_keys records uc)); simpl.
  - destruct (Nat.ltb_spec 1 (occurrences (row_key r uc) (record_keys records uc)));
      [lia|done].
  - done.
Qed.

(** X8. A mode other than [fail_all] and [keep_first] marks nothing, whatever
    the index holds: the violations of a row are those of its fields. *)
Theorem unknown_mode_marks_nothing
    (r : row) (row_index : nat) (rules : ruleset) (index : dup_index)
    (uc : list string) (um : string) :
  um <> "fail_all" ->
  um <> "keep_first" ->
  duplicate_errors (normalize r) row_index index uc um = []
  /\ row_errors r row_index rules index uc um = field_errors (normalize r) rules.
Proof.
  intros Hall Hkeep.
  assert (duplicate_errors (normalize r) row_index index uc um = []) as Hdup.
  { unfold duplicate_errors.
    destruct (negb (is_nil uc) && negb (String.eqb um "ignore")); [|done].
    destruct (default (1, row_index) (index !! row_key (normalize r) uc)) as [cnt first].
    destruct (1 <? cnt)%nat; [|done].
    destruct (String.eqb_spec um "fail_all"); [done|].
    destruct (String.eqb_spec um "keep_first"); done. }
  split; [done|].
  rewrite row_errors_ok, field_errors_ok. unfold violations.
  by rewrite Hdup, app_nil_r.
Qed.


(** X10. Validation keeps the fields of a row as a record source delivers it:
    the validated row is the input row, in its order, followed by [Valid]
    and [Remarks]. *)
Theorem validation_keeps_fields
    (r : row) (row_index : nat) (rules : ruleset) (index : dup_index)
    (uc : list string) (um : string) :
  lowercase_row r ->
  exists errors,
    row_errors r row_index rules index uc um = Ok errors
    /\ _validate_row r row_index rules index uc um
       = Ok (r ++ [("Valid", VStr (verdict errors));
                   ("Remarks", VStr (remarks errors))])%list
    /\ forall k v, od_get r k = Some v ->
         od_get (r ++ [("Valid", VStr (verdict errors));
                       ("Remarks", VStr (remarks errors))])%list k = Some v.
Proof.
  intros Hlow. exists (violations r row_index rules index uc um).
  split; [apply row_errors_ok|]. split.
  - rewrite validate_row_validated, validated_shape.
    by rewrite (normalize_lowercase r Hlow).
  - intros k v Hk. by apply od_get_app_l.
Qed.

(** X11. Absent key fields are a key like any other: two rows of the records
    that both lack every field of the uniqueness key share the key of
    [None]s, and both are marked under [fail_all]. *)
Theorem rows_without_key_fields_collide
    (records : list row) (uc : list string) (rules : ruleset)
    (i j : nat) (ri rj : row) :
  uc <> [] ->
  Forall lowercase_row records ->
  i <> j ->
  records !! i = Some ri ->
  records !! j = Some rj ->
  Forall (fun c => row_get ri c = VNone) uc ->
  Forall (fun c => row_get rj c = VNone) uc ->
  exists index,
    build_duplicate_index records uc = Ok index
    /\ msg_duplicate uc ∈ violations ri (S i) rules index uc "fail_all"
    /\ msg_duplicate uc ∈ violations rj (S j) rules index uc "fail_all".
Proof.
  intros Huc Hrows Hne Hi Hj Hni Hnj.
  destruct (build_duplicate_index_ok records uc) as [index Hindex].
  assert (forall r, Forall (fun c => row_get r c = VNone) uc ->
            row_key r uc = map (fun _ => KNone) uc) as Hkey.
  { intros r Hr. unfold row_key, tuple_key. rewrite map_map.
    apply map_ext_Forall. eapply Forall_impl; [exact Hr|].
    intros c Hc. simpl in Hc. by rewrite Hc. }
  assert (forall k r, records !! k = Some r ->
            record_keys records uc !! k = Some (row_key r uc)) as Hat.
  { intros k r Hk. unfold record_keys. by rewrite list_lookup_fmap, Hk. }
  assert (1 < occurrences (map (fun _ => KNone) uc) (record_keys records uc)) as Hocc.
  { apply (occurrences_two _ _ i j Hne).
    - rewrite (Hat i ri Hi). f_equal. by apply Hkey.
    - rewrite (Hat j rj Hj). f_equal. by apply Hkey. }
  apply Nat.ltb_lt in Hocc.
  exists index. split; [done|]. split.
  - destruct (duplicate_errors_indexed records uc "fail_all" index i ri)
      as (first & _ & Hdup); try done.
    { eapply Forall_lookup_1; eauto. }
    rewrite (Hkey ri Hni), Hocc in Hdup. simpl in Hdup.
    unfold violations. rewrite Hdup. apply elem_of_app. right. by left.
  - destruct (duplicate_errors_indexed records uc "fail_all" index j rj)
      as (first & _ & Hdup); try done.
    { eapply Forall_lookup_1; eauto. }
    rewrite (Hkey rj Hnj), Hocc in Hdup. simpl in Hdup.
    unfold violations. rewrite Hdup. apply elem_of_app. right. by left.
Qed.

End ValidatorMore.

Section StoredMembers.
Context {rt : PyRuntime}.

(** X22. A rule that holds a truthy ["_regex_compiled"] which is not a
    compiled pattern (a member stored in the rule document: preparation
    leaves it in place when the rule has no pattern of its own) makes
    [_validate_row] raise [AttributeError] on every row whose value for
    the field gets as far as the pattern match, when the rules before it
    raise nothing: the match is outside the [try] block. *)
Theorem stored_compiled_member_fails_row
    (r : row) (row_index : nat) (before after : Dyn.ruleset)
    (field : string) (rl : Dyn.rule) (j : json)
    (index : dup_index) (uc : list string) (um : string) :
  Forall printable (map snd r) ->
  Forall (fun item => pattern_or_falsy (snd item)) before ->
  od_get rl "_regex_compiled" = Some (Stored j) ->
  Dyn.truthy j = true ->
  (Dyn.member_truthy (od_get rl "required")
   && blank (row_get (normalize r) field)) = false ->
  (is_none (row_get (normalize r) field)
   || eq_empty_str (row_get (normalize r) field)) = false ->
  Dyn.coerce (Dyn.declared_type rl) (row_get (normalize r) field) = Ok tt ->
  Dyn.check_field (normalize r) field rl = Raise (Dyn.no_attribute j "match")
  /\ Dyn._validate_row r row_index (before ++ (field, rl) :: after)%list index uc um
     = Raise (Dyn.no_attribute j "match").
Proof.
  intros Hcells Hbefore Hrc Htruthy Hreq Hskip Hcoerce.
  assert (Dyn.check_field (normalize r) field rl = Raise (Dyn.no_attribute j "match"))
    as Hfield.
  { unfold Dyn.check_field.
    rewrite blank_printable
      by (apply row_get_values; [by apply normalize_values|exact I]).
    destruct (Dyn.member_truthy _); simpl in *;
      by rewrite ?Hreq, Hskip, Hcoerce, Hrc, Htruthy. }
  split; [done|].
  unfold Dyn._validate_row, Dyn.row_errors, Dyn.field_errors.
  rewrite foldM_app.
  pose proof (dyn_field_errors_ok (normalize r) before
                (normalize_values _ _ Hcells) Hbefore) as Hprefix.
  unfold Dyn.field_errors in Hprefix. rewrite Hprefix.
  cbn [mbind result_bind foldM]. by rewrite Hfield.
Qed.

End StoredMembers.

(* ===================================================================== *)
(** * Chunks compose                                                     *)
(* ===================================================================== *)

(** The accumulators that hold one chunk result. *)
Definition stats_of (out : chunk_result) : run_stats :=
  let '(vs, s, f) := out in
  {| validated_records := vs; processed := length vs;
     total_success := s; total_failure := f |}.

Lemma enumerate_app {A} (start : nat) (a b : list A) :
  enumerate start (a ++ b)%list
  = (enumerate start a ++ enumerate (start + length a) b)%list.
Proof.
  revert start. induction a as [|x a IH]; intros start; simpl.
  - by rewrite Nat.add_0_r.
  - rewrite IH. do 3 f_equal. lia.
Qed.

Section ChunkLoop.
Context {rt : PyRuntime}.
Context (rules : Dyn.ruleset) (index : dup_index) (uc : list string) (um : string).

(** The body of the loop of [validate_chunk]. *)
Definition chunk_step (acc : list row * nat * nat * nat) (r : row)
  : result (list row * nat * nat * nat) :=
  let '(validated, success, failure, idx) := acc in
  vr ← Dyn._validate_row r idx rules index uc um;
  ok ← is_success vr;
  if ok : bool
  then Ok ((validated ++ [vr])%list, success + 1, failure, idx + 1)
  else Ok ((validated ++ [vr])%list, success, failure + 1, idx + 1).

Lemma validate_chunk_loop (rows : list row) (start : nat) :
  Dyn.validate_chunk rows start rules index uc um
  = '(validated, success, failure, _) ← foldM chunk_step rows ([], 0, 0, start);
    Ok (validated, success, failure).
Proof.
  unfold Dyn.validate_chunk. f_equal.
  generalize (@nil row, 0, 0, start).
  induction rows as [|r rows IH]; intros acc; [done|].
  destruct acc as [[[validated s] f] idx]. cbn [foldM chunk_step].
  destruct (Dyn._validate_row r idx rules index uc um) as [vr|e]; simpl; [|done].
  destruct (is_success vr) as [[]|e]; simpl; [apply IH|apply IH|done].
Qed.

(** The loop from any state of its accumulators is the loop from the
    initial state at the same ordinal, shifted. *)
Lemma chunk_loop_shift (rows : list row) (v : list row) (s f idx : nat) :
  foldM chunk_step rows (v, s, f, idx)
  = '(v', s', f', _) ← foldM chunk_step rows ([], 0, 0, idx);
    Ok ((v ++ v')%list, s + s', f + f', idx + length rows).
Proof.
  revert v s f idx. induction rows as [|r rows IH]; intros v s f idx.
  - simpl. by rewrite app_nil_r, !Nat.add_0_r.
  - cbn [foldM chunk_step].
    destruct (Dyn._validate_row r idx rules index uc um) as [vr|e]; simpl; [|done].
    destruct (is_success vr) as [[]|e]; simpl; [| |done].
    + rewrite (IH (v ++ [vr])%list), (IH [vr]).
      destruct (foldM chunk_step rows ([], 0, 0, idx + 1)) as [[[[v' s'] f'] i']|e];
        simpl; [|done].
      rewrite <- app_assoc. f_equal.
      repeat (apply pair_equal_spec; split); try done; lia.
    + rewrite (IH (v ++ [vr])%list), (IH [vr]).
      destruct (foldM chunk_step rows ([], 0, 0, idx + 1)) as [[[[v' s'] f'] i']|e];
        simpl; [|done].
      rewrite <- app_assoc. f_equal.
      repeat (apply pair_equal_spec; split); try done; lia.
Qed.

(** X12. Validating two slices one after the other, the second from the
    ordinal that follows the first, is validating their concatenation,
    for rules and cells of any shape: the validated rows are appended and
    the counts added, and an exception that escapes from a row of either
    slice escapes from the concatenation, the first one in row order. *)
Theorem validate_chunk_concatenates (start : nat) (a b : list row) :
  Dyn.validate_chunk (a ++ b)%list start rules index uc um
  = '(va, sa, fa) ← Dyn.validate_chunk a start rules index uc um;
    '(vb, sb, fb) ← Dyn.validate_chunk b (start + length a) rules index uc um;
    Ok ((va ++ vb)%list, sa + sb, fa + fb).
Proof.
  rewrite !validate_chunk_loop, foldM_app.
  rewrite (chunk_loop_shift a [] 0 0 start).
  destruct (foldM chunk_step a ([], 0, 0, start)) as [[[[va sa] fa] ia]|e];
    simpl; [|done].
  rewrite (chunk_loop_shift b va sa fa).
  destruct (foldM chunk_step b ([], 0, 0, start + length a)) as [[[[vb sb] fb] ib]|e];
    simpl; done.
Qed.

End ChunkLoop.

Section ChunksCompose.
Context {rt : PyRuntime}.
Context (rules : ruleset) (index : dup_index) (uc : list string) (um : string).

Lemma chunk_output_app (start : nat) (a b : list row) :
  chunk_output start (a ++ b)%list rules index uc um
  = let '(va, sa, fa) := chunk_output start a rules index uc um in
    let '(vb, sb, fb) := chunk_output (start + length a) b rules index uc um in
    ((va ++ vb)%list, sa + sb, fa + fb).
Proof.
  unfold chunk_output, validated_from.
  by rewrite enumerate_app, map_app, !filter_app, !length_app.
Qed.


(** After the first [m] chunks the accumulators hold what one pass over
    the first [m * chunk_size] records returns. *)
Lemma scheduler_prefix_sequential (chunk_size m : nat) (records : list row) :
  0 < chunk_size ->
  m <= chunk_count chunk_size (length records) ->
  fold_left merged
    (results_of rules index uc um
       (map (fun i => (i, py_slice records i (i + chunk_size)))
            (map (fun k => k * chunk_size) (seq 0 m))))
    run_stats_init
  = stats_of (chunk_output 1 (take (m * chunk_size) records) rules index uc um).
Proof.
  intros Hc. induction m as [|m IH]; intros Hm; [done|].
  unfold results_of in *.
  rewrite seq_S, !map_app, fold_left_app, IH by lia.
  cbn [map fold_left plus].
  assert (m * chunk_size < length records) as Hlt
    by (apply chunk_count_tight; [done|lia]).
  assert (take (S m * chunk_size) records
          = take (m * chunk_size) records
            ++ py_slice records (m * chunk_size) (m * chunk_size + chunk_size))%list
    as ->.
  { rewrite py_slice_step, take_take_drop. f_equal. lia. }
  rewrite chunk_output_app.
  rewrite length_take_le by lia.
  replace (1 + m * chunk_size) with (m * chunk_size + 1) by lia.
  destruct (chunk_output 1 (take (m * chunk_size) records) rules index uc um)
    as [[va sa] fa].
  destruct (chunk_output (m * chunk_size + 1)
              (py_slice records (m * chunk_size) (m * chunk_size + chunk_size))
              rules index uc um) as [[vb sb] fb].
  simpl. by rewrite length_app.
Qed.

End ChunksCompose.

Section SequentialEquivalence.
Context {rt : PyRuntime}.

(** X13. Chunked, batched validation returns what one sequential pass over all
    the records returns: the same validated rows and the same two counts,
    whatever the chunk size, the number of workers and the completion
    order within a batch. *)
Theorem scheduler_equals_one_pass
    (completion : completion_order) (chunk_size workers : nat)
    (records : list row) (rules : ruleset) (index : dup_index)
    (uc : list string) (um : string) :
  0 < chunk_size ->
  0 < workers ->
  (forall batch_start results, completion batch_start results ≡ₚ results) ->
  exists t st,
    chunk_scheduler chunk_size workers completion records rules index uc um
    = (t, Ok st)
    /\ validate_chunk records 1 rules index uc um
       = Ok (validated_records st, total_success st, total_failure st).
Proof.
  intros Hc Hw Hperm.
  rewrite (chunk_scheduler_run completion Hperm) by done.
  eexists _, _. split; [done|].
  unfold chunks_of.
  rewrite (scheduler_prefix_sequential rules index uc um chunk_size
             (chunk_count chunk_size (length records)) records Hc) by done.
  rewrite take_ge by (by apply chunk_count_covers).
  rewrite validate_chunk_ok.
  by destruct (chunk_output 1 records rules index uc um) as [[vs s] f].
Qed.

End SequentialEquivalence.

(* ===================================================================== *)
(** * Outcomes of a run                                                  *)
(* ===================================================================== *)

(** The updates of the audit status in a trace, in order. *)
Definition status_events (t : list event) : list event :=
  List.filter (fun e => match e with
                        | AuditRunning | AuditCompleted _ _ _ | AuditFailed _ => true
                        | _ => false
                        end) t.

(** The artifacts uploaded in a trace, in order. *)
Definition uploads (t : list event) : list artifact :=
  omap (fun e => match e with Upload _ a => Some a | _ => None end) t.

(** [_run_validation_bg] of [routers/ingest.py]: the run, with whatever it
    raises logged and dropped. *)
Definition _run_validation_bg `{PyRuntime} (completion : completion_order) (w : world)
  : prog unit :=
  try_except (run_excel_validation_pipeline completion w) (fun e => mret tt).

(** [value] is an object of the [datetime] module. *)
Definition is_temporal (v : value) : bool :=
  match v with VDate _ => true | _ => false end.

(** Some cell of some record is a date, a datetime, a time or a
    timedelta. *)
Definition has_temporal (records : list row) : bool :=
  existsb (fun rec => existsb (fun kv => is_temporal (snd kv)) rec) records.

Lemma status_events_app (t1 t2 : list event) :
  status_events (t1 ++ t2)%list = (status_events t1 ++ status_events t2)%list.
Proof. apply List.filter_app. Qed.

Lemma status_events_progress (n : nat) : status_events (progress_events n) = [].
Proof.
  unfold progress_events.
  induction (seq 0 (chunk_count CHUNK_SIZE n)) as [|k l IH]; [done|].
  cbn [flat_map]. by rewrite status_events_app, IH.
Qed.

Lemma uploads_app (t1 t2 : list event) :
  uploads (t1 ++ t2)%list = (uploads t1 ++ uploads t2)%list.
Proof. apply omap_app. Qed.

Lemma uploads_progress (n : nat) : uploads (progress_events n) = [].
Proof.
  unfold progress_events.
  induction (seq 0 (chunk_count CHUNK_SIZE n)) as [|k l IH]; [done|].
  cbn [flat_map]. by rewrite uploads_app, IH.
Qed.

(** The encoder fails exactly when some cell is an object of the
    [datetime] module. *)
Lemma first_unserialisable_spec (records : list row) :
  first_unserialisable records = None <-> has_temporal records = false.
Proof.
  unfold first_unserialisable, has_temporal.
  induction records as [|rec records IH]; [done|].
  cbn [concat existsb]. rewrite omap_app, orb_false_iff, <- IH. clear IH.
  assert (omap (fun kv : string * value =>
                  match snd kv with VDate d => Some d | _ => None end) rec = []
          <-> existsb (fun kv => is_temporal (snd kv)) rec = false) as Hrec.
  { induction rec as [|[k v] rec IHrec]; [done|].
    destruct v; simpl; try exact IHrec. by split. }
  destruct (omap _ rec) as [|d ds] eqn:Hds.
  - simpl. split; [intros Hnone; split; [by apply Hrec|done]|by intros [_ ?]].
  - simpl. split; [done|]. intros [Hf _]. apply Hrec in Hf. done.
Qed.

Lemma json_dumps_temporal (records : list row) :
  has_temporal records = true ->
  exists d, json_dumps records = Raise (not_serializable d).
Proof.
  intros Ht. unfold json_dumps.
  destruct (first_unserialisable records) as [d|] eqn:Hd; [by exists d|].
  apply first_unserialisable_spec in Hd. congruence.
Qed.

Lemma json_dumps_plain (records : list row) :
  has_temporal records = false -> json_dumps records = Ok (JsonArtifact records).
Proof.
  intros Ht%first_unserialisable_spec. unfold json_dumps. by rewrite Ht.
Qed.

(** Steps 5 to 7 on a non-empty list of validated rows. *)
Lemma publish_results_run (n : nat) (st : run_stats) (first : row) (others : list row) :
  validated_records st = first :: others ->
  let quality := if (total_failure st =? 0)%nat then "PASS" else "FAIL" in
  let excel :=
    ExcelArtifact (_write_workbook_bytes (validated_records st) (map fst first)) in
  try_except (publish_results n st) on_failure
  = match json_dumps (validated_records st) with
    | Raise e =>
        ([Upload quality excel; AuditFailed e; Publish (WsError e)], Raise e)
    | Ok json =>
        ([Upload quality excel;
          Upload quality json;
          Publish (WsCompleted (total_success st) (total_failure st));
          AuditCompleted n (total_success st) (total_failure st)],
         Ok tt)
    end.
Proof.
  intros Hv. cbv zeta. unfold publish_results.
  assert (write_validated_excel_stream (validated_records st)
          = Some (_write_workbook_bytes (validated_records st) (map fst first))) as ->.
  { by rewrite Hv. }
  cbn [getvalue]. rewrite lift_ok_bind, emit_bind.
  destruct (json_dumps (validated_records st)) as [json|e].
  - rewrite lift_ok_bind, !emit_bind. rewrite !try_except_prepend. done.
  - rewrite raise_bind.
    rewrite try_except_prepend, try_except_raise, on_failure_run. done.
Qed.

Section RunOutcomes.
Context {rt : PyRuntime}.

Lemma row_has_temporal_spec (rec : row) :
  existsb (fun kv => is_temporal (snd kv)) rec = false
  <-> Forall (fun v => is_temporal v = false) (map snd rec).
Proof.
  induction rec as [|kv rec IH]; simpl; [by split; [constructor|]|].
  rewrite orb_false_iff, Forall_cons, IH. done.
Qed.

(** Validation adds no such cell and, on rows as the record sources deliver
    them, removes none. *)
Lemma validated_has_temporal (rows : list row) (start : nat) (rules : ruleset)
    (index : dup_index) (uc : list string) (um : string) :
  (has_temporal rows = false ->
   has_temporal (validated_from start rows rules index uc um) = false)
  /\ (Forall lowercase_row rows ->
      has_temporal (validated_from start rows rules index uc um) = has_temporal rows).
Proof.
  unfold validated_from. split.
  - revert start. induction rows as [|r rows IH]; intros start; [done|].
    simpl. intros [Hr Hrows]%orb_false_iff. rewrite IH by done.
    rewrite orb_false_r, validated_shape.
    apply row_has_temporal_spec. rewrite map_app. apply Forall_app. split.
    + apply normalize_values. by apply row_has_temporal_spec.
    + by repeat constructor.
  - revert start. induction rows as [|r rows IH]; intros start Hlow; [done|].
    apply Forall_cons in Hlow as [Hr Hlow]. simpl. rewrite IH by done. f_equal.
    rewrite validated_shape, (normalize_lowercase r Hr), existsb_app. simpl.
    by rewrite orb_false_r.
Qed.

(** X14. An object whose content type names neither a spreadsheet nor
    delimited text makes the run fail at once: the failure is recorded and
    published, and no record is loaded. *)
Theorem unsupported_content_type_reads_nothing
    (completion : completion_order) (w : world) :
  supported (content_type w) = false ->
  run_excel_validation_pipeline completion w
  = ([AuditRunning; ReadS3;
      AuditFailed (ValueError ("Unsupported S3 Content-Type: "
                               ++ default "None" (content_type w)));
      Publish (WsError (ValueError ("Unsupported S3 Content-Type: "
                                    ++ default "None" (content_type w))))],
     Raise (ValueError ("Unsupported S3 Content-Type: "
                        ++ default "None" (content_type w))))
  /\ fails_before_reading (fst (run_excel_validation_pipeline completion w)).
Proof.
  intros Hct.
  assert (run_excel_validation_pipeline completion w
          = ([AuditRunning; ReadS3;
              AuditFailed (ValueError ("Unsupported S3 Content-Type: "
                                       ++ default "None" (content_type w)));
              Publish (WsError (ValueError ("Unsupported S3 Content-Type: "
                                            ++ default "None" (content_type w))))],
             Raise (ValueError ("Unsupported S3 Content-Type: "
                                ++ default "None" (content_type w))))) as Hrun.
  { unfold supported in Hct. apply orb_false_iff in Hct as [Hx Hc].
    unfold run_excel_validation_pipeline.
    rewrite Hx, Hc, !emit_bind, raise_bind, !try_except_prepend, try_except_raise.
    fold (on_failure (ValueError ("Unsupported S3 Content-Type: "
                                  ++ default "None" (content_type w)))).
    by rewrite on_failure_run. }
  split; [done|]. rewrite Hrun. intros n H. simpl in H.
  repeat (apply elem_of_cons in H as [H|H]; [done|]).
  by apply elem_of_nil in H.
Qed.

(** X15. When the rules store has no document for the run (or an empty one) the
    run fails with a [ValueError], which it records and publishes; the
    records have been loaded by then, and none is validated. *)
Theorem missing_rules_fail_after_loading
    (completion : completion_order) (w : world) :
  supported (content_type w) = true ->
  rules_missing (rules_json w) = true ->
  (exists msg,
      run_excel_validation_pipeline completion w
      = ((loading_events (length (file_rows w))
          ++ [AuditFailed (ValueError msg);
              Publish (WsError (ValueError msg))])%list,
         Raise (ValueError msg)))
  /\ validates_nothing (fst (run_excel_validation_pipeline completion w))
  /\ RecordsLoaded (length (file_rows w))
     ∈ fst (run_excel_validation_pipeline completion w).
Proof.
  intros Hct Hmiss. rewrite pipeline_rules_missing by done.
  split; [by eexists|]. split; [done|].
  cbn [fst]. apply elem_of_app. left. unfold loading_events.
  rewrite !elem_of_cons. auto.
Qed.

(** The accumulators at the end of the scheduling loop hold what one
    pass of [validate_chunk] over all the records returns. *)
Lemma scheduler_outcome_counts (completion : completion_order)
    (chunk_size workers : nat) (records : list row) (rules : ruleset)
    (index : dup_index) (uc : list string) (um : string) :
  (forall batch_start results, completion batch_start results ≡ₚ results) ->
  0 < chunk_size -> 0 < workers ->
  exists st,
    chunk_scheduler chunk_size workers completion records rules index uc um
    = (flat_map (fun k => progress_of (length records)
                            (Nat.min ((k + 1) * chunk_size) (length records)))
         (seq 0 (chunk_count chunk_size (length records))),
       Ok st)
    /\ validated_records st = validated_from 1 records rules index uc um
    /\ total_success st + total_failure st = length records
    /\ validate_chunk records 1 rules index uc um
       = Ok (validated_records st, total_success st, total_failure st).
Proof.
  intros Hperm Hc Hw.
  destruct (scheduler_outcome completion Hperm chunk_size workers records
              rules index uc um Hc Hw) as (st & Hrun & Hv & _ & Hsum).
  exists st. split; [done|]. split; [done|]. split; [done|].
  rewrite (chunk_scheduler_run completion Hperm) in Hrun by done.
  injection Hrun as _ <-.
  unfold chunks_of.
  rewrite (scheduler_prefix_sequential rules index uc um chunk_size
             (chunk_count chunk_size (length records)) records Hc) by done.
  rewrite take_ge by (by apply chunk_count_covers).
  rewrite validate_chunk_ok.
  by destruct (chunk_output 1 records rules index uc um) as [[vs s] f].
Qed.

(** A run whose rules compile, on at least one record. *)
Lemma pipeline_published (completion : completion_order) (w : world)
    (cfg : rules_doc) (rules : ruleset) (uc : list string) (um : string) :
  (forall batch_start results, completion batch_start results ≡ₚ results) ->
  supported (content_type w) = true ->
  rules_missing (rules_json w) = false ->
  rules_json w = Some cfg ->
  prep_rules_from_dict cfg = Ok (rules, uc, um) ->
  file_rows w <> [] ->
  exists index st first,
    build_duplicate_index (file_rows w) uc = Ok index
    /\ validated_records st = validated_from 1 (file_rows w) rules index uc um
    /\ total_success st + total_failure st = length (file_rows w)
    /\ validate_chunk (file_rows w) 1 rules index uc um
       = Ok (validated_records st, total_success st, total_failure st)
    /\ hd_error (validated_records st) = Some first
    /\ run_excel_validation_pipeline completion w
       = prepend (loading_events (length (file_rows w))
                  ++ progress_events (length (file_rows w)))
           (let quality := if (total_failure st =? 0)%nat then "PASS" else "FAIL" in
            let excel :=
              ExcelArtifact (_write_workbook_bytes (validated_records st)
                               (map fst first)) in
            match json_dumps (validated_records st) with
            | Raise e =>
                ([Upload quality excel; AuditFailed e; Publish (WsError e)], Raise e)
            | Ok json =>
                ([Upload quality excel;
                  Upload quality json;
                  Publish (WsCompleted (total_success st) (total_failure st));
                  AuditCompleted (length (file_rows w))
                    (total_success st) (total_failure st)],
                 Ok tt)
            end).
Proof.
  intros Hperm Hct Hmiss Hcfg Hprep Hrows.
  destruct (build_duplicate_index_ok (file_rows w) uc) as [index Hindex].
  destruct (scheduler_outcome_counts completion CHUNK_SIZE WORKERS
              (file_rows w) rules index uc um Hperm)
    as (st & Hsched & Hv & Hsum & Hpass).
  { unfold CHUNK_SIZE. lia. }
  { unfold WORKERS. lia. }
  destruct (validated_records st) as [|first others] eqn:Hvs.
  { exfalso. apply Hrows. apply (f_equal length) in Hv.
    rewrite validated_from_length in Hv. by destruct (file_rows w). }
  exists index, st, first. rewrite <- Hvs in *.
  split; [done|]. split; [done|]. split; [done|]. split; [done|].
  split; [by rewrite Hvs|].
  rewrite (pipeline_loaded completion) by done.
  rewrite Hmiss, Hcfg, mret_bind. simpl default.
  rewrite Hprep, lift_ok_bind, Hindex, lift_ok_bind.
  fold (progress_events (length (file_rows w))) in Hsched.
  rewrite Hsched, run_bind.
  rewrite try_except_prepend, prepend_prepend. f_equal.
  by apply (publish_results_run _ st first others).
Qed.

(** X16. A cell that holds an object of the [datetime] module (a date, a
    datetime, a time, a timedelta) cannot be serialised: the run uploads
    the Excel artifact, fails on the JSON one and is recorded as failed. *)
Theorem date_cells_fail_after_excel_upload
    (completion : completion_order) (w : world)
    (cfg : rules_doc) (rules : ruleset) (uc : list string) (um : string) :
  (forall batch_start results, completion batch_start results ≡ₚ results) ->
  supported (content_type w) = true ->
  rules_missing (rules_json w) = false ->
  rules_json w = Some cfg ->
  prep_rules_from_dict cfg = Ok (rules, uc, um) ->
  Forall lowercase_row (file_rows w) ->
  has_temporal (file_rows w) = true ->
  exists wb msg,
    snd (run_excel_validation_pipeline completion w) = Raise (TypeError msg)
    /\ uploads (fst (run_excel_validation_pipeline completion w)) = [ExcelArtifact wb]
    /\ length (wb_cells wb) = length (file_rows w)
    /\ status_events (fst (run_excel_validation_pipeline completion w))
       = [AuditRunning; AuditFailed (TypeError msg)].
Proof.
  intros Hperm Hct Hmiss Hcfg Hprep Hlow Hdate.
  destruct (pipeline_published completion w cfg rules uc um)
    as (index & st & first & _ & Hv & _ & _ & _ & Hrun); try done.
  { intros Hnil. by rewrite Hnil in Hdate. }
  assert (has_temporal (validated_records st) = true) as Hvd.
  { rewrite Hv. destruct (validated_has_temporal (file_rows w) 1 rules index uc um)
      as [_ Heq]. by rewrite Heq. }
  destruct (json_dumps_temporal _ Hvd) as [d Hjson].
  rewrite Hjson in Hrun. rewrite Hrun. unfold prepend. cbn [fst snd].
  eexists _, _. split; [reflexivity|].
  rewrite !uploads_app, !status_events_app, uploads_progress, status_events_progress.
  split; [done|]. split; [|done].
  simpl. by rewrite length_map, Hv, validated_from_length.
Qed.

(** X17. A run on a supported object with at least one record, a rule
    document of the documented shape whose patterns compile, and cells
    that convert to text and hold no date, datetime, time or timedelta,
    completes: after the loading and the progress events it uploads the
    Excel and the JSON artifact of the validated rows, in input order,
    under the quality [PASS] exactly when no row failed. The rows and the
    two counts that it records are those that one pass of the validator
    over all the records returns, on the rules as [prep_rules_from_dict]
    prepares them from the stored document, and the counts add up to the
    number of records. *)
Theorem clean_run_completes
    (completion : completion_order) (w : world)
    (cfg : rules_doc) (rules : ruleset) (uc : list string) (um : string) :
  (forall batch_start results, completion batch_start results ≡ₚ results) ->
  supported (content_type w) = true ->
  rules_missing (rules_json w) = false ->
  rules_json w = Some cfg ->
  prep_rules_from_dict cfg = Ok (rules, uc, um) ->
  file_rows w <> [] ->
  Forall (fun r => Forall printable (map snd r)) (file_rows w) ->
  has_temporal (file_rows w) = false ->
  exists index wb s f,
    build_duplicate_index (file_rows w) uc = Ok index
    /\ Dyn.prep_rules_from_dict (json_of_rules_doc cfg)
       = Ok (dict_of_rules rules, uc, um)
    /\ Dyn.validate_chunk (file_rows w) 1 (dict_of_rules rules) index uc um
       = Ok (validated_from 1 (file_rows w) rules index uc um, s, f)
    /\ s + f = length (file_rows w)
    /\ length (wb_cells wb) = length (file_rows w)
    /\ run_excel_validation_pipeline completion w
       = ((loading_events (length (file_rows w))
           ++ progress_events (length (file_rows w))
           ++ [Upload (if (f =? 0)%nat then "PASS" else "FAIL") (ExcelArtifact wb);
               Upload (if (f =? 0)%nat then "PASS" else "FAIL")
                 (JsonArtifact (validated_from 1 (file_rows w) rules index uc um));
               Publish (WsCompleted s f);
               AuditCompleted (length (file_rows w)) s f])%list,
          Ok tt).
Proof.
  intros Hperm Hct Hmiss Hcfg Hprep Hrows Hcells Hdate.
  destruct (pipeline_published completion w cfg rules uc um)
    as (index & st & first & Hindex & Hv & Hsum & Hpass & _ & Hrun); try done.
  assert (has_temporal (validated_records st) = false) as Hvd.
  { rewrite Hv. by apply validated_has_temporal. }
  rewrite (json_dumps_plain _ Hvd) in Hrun.
  exists index, (_write_workbook_bytes (validated_records st) (map fst first)),
         (total_success st), (total_failure st).
  split; [done|]. split; [by rewrite prep_rules_refines, Hprep|].
  split; [by rewrite validate_chunk_refines, Hpass, Hv|].
  split; [done|]. split.
  - simpl. by rewrite length_map, Hv, validated_from_length.
  - rewrite Hrun. unfold prepend. cbn [fst snd]. by rewrite Hv, <- app_assoc.
Qed.

(** Every run ends in one of two ways: it records the completion as its
    last event and returns, or it records the failure, publishes it and
    re-raises it. Before that it has set the status to running and to
    nothing else. *)
Lemma pipeline_ends (completion : completion_order) (w : world) :
  (forall batch_start results, completion batch_start results ≡ₚ results) ->
  exists t,
    status_events t = [AuditRunning]
    /\ ((exists n s f,
           run_excel_validation_pipeline completion w
           = ((t ++ [AuditCompleted n s f])%list, Ok tt))
        \/ (exists e,
              run_excel_validation_pipeline completion w
              = ((t ++ [AuditFailed e; Publish (WsError e)])%list, Raise e))).
Proof.
  intros Hperm.
  destruct (supported (content_type w)) eqn:Hct.
  2: { destruct (pipeline_unsupported completion w Hct) as [e ->].
       exists [AuditRunning; ReadS3]. split; [done|]. right. by exists e. }
  destruct (rules_missing (rules_json w)) eqn:Hmiss.
  { rewrite pipeline_rules_missing by done.
    exists (loading_events (length (file_rows w))). split; [done|].
    right. by eexists. }
  assert (exists cfg, rules_json w = Some cfg) as [cfg Hcfg].
  { destruct (rules_json w); [by eexists|discriminate Hmiss]. }
  destruct (prep_rules_from_dict cfg) as [[[rules uc] um]|e] eqn:Hprep.
  2: { rewrite (pipeline_rules_error completion w cfg e) by done.
       exists (loading_events (length (file_rows w))). split; [done|].
       right. by exists e. }
  destruct (file_rows w) as [|r0 rows0] eqn:Hrows.
  { destruct (pipeline_validated completion Hperm w cfg rules uc um)
      as (index & st & _ & Hv & _ & _ & Hrun); try done.
    rewrite Hrows in Hv, Hrun. simpl in Hv.
    rewrite publish_results_empty in Hrun by done.
    rewrite Hrun. unfold prepend. cbn [fst snd length].
    rewrite progress_events_none, app_nil_r.
    exists (loading_events 0). split; [done|]. right. by eexists. }
  destruct (pipeline_published completion w cfg rules uc um)
    as (index & st & first & _ & _ & _ & _ & _ & Hrun); try done.
  { by rewrite Hrows. }
  rewrite Hrun. unfold prepend. cbv zeta.
  set (pre := (loading_events (length (file_rows w))
               ++ progress_events (length (file_rows w)))%list).
  set (excel := Upload _ (ExcelArtifact _)).
  assert (status_events pre = [AuditRunning]) as Hpre.
  { unfold pre. by rewrite status_events_app, status_events_progress. }
  destruct (json_dumps (validated_records st)) as [json|e].
  - exists (pre ++ [excel; Upload (if (total_failure st =? 0)%nat
                                   then "PASS" else "FAIL") json;
                    Publish (WsCompleted (total_success st) (total_failure st))])%list.
    split.
    + rewrite status_events_app, Hpre. reflexivity.
    + left. eexists _, _, _. rewrite <- app_assoc. reflexivity.
  - exists (pre ++ [excel])%list. split.
    + rewrite status_events_app, Hpre. reflexivity.
    + right. eexists. rewrite <- app_assoc. reflexivity.
Qed.

(** X18. Every run sets the audit status to running once and then to exactly
    one terminal status that matches how the run ends: completed when it
    returns, failed with the exception that it re-raises and publishes
    last. *)
Theorem run_sets_one_terminal_status
    (completion : completion_order) (w : world) :
  (forall batch_start results, completion batch_start results ≡ₚ results) ->
  (exists n s f,
      status_events (fst (run_excel_validation_pipeline completion w))
      = [AuditRunning; AuditCompleted n s f]
      /\ snd (run_excel_validation_pipeline completion w) = Ok tt)
  \/ (exists e,
        status_events (fst (run_excel_validation_pipeline completion w))
        = [AuditRunning; AuditFailed e]
        /\ snd (run_excel_validation_pipeline completion w) = Raise e
        /\ last (fst (run_excel_validation_pipeline completion w))
           = Some (Publish (WsError e))).
Proof.
  intros Hperm.
  destruct (pipeline_ends completion w Hperm)
    as (t & Ht & [(n & s & f & Hrun)|(e & Hrun)]); rewrite Hrun; cbn [fst snd].
  - left. exists n, s, f. by rewrite status_events_app, Ht.
  - right. exists e. rewrite status_events_app, Ht.
    split; [done|]. split; [done|].
    change [AuditFailed e; Publish (WsError e)]
      with ([AuditFailed e] ++ [Publish (WsError e)])%list.
    by rewrite app_assoc, last_snoc.
Qed.

(** X19. The background handler of the upload route never raises: it runs the
    pipeline and drops the exception, which the pipeline has recorded by
    then, so the handler returns with the audit status set to running once
    and then to one terminal status, and with nothing done after the run. *)
Theorem background_run_never_raises
    (completion : completion_order) (w : world) :
  (forall batch_start results, completion batch_start results ≡ₚ results) ->
  snd (_run_validation_bg completion w) = Ok tt
  /\ fst (_run_validation_bg completion w)
     = fst (run_excel_validation_pipeline completion w)
  /\ exists terminal,
       status_events (fst (_run_validation_bg completion w))
       = [AuditRunning; terminal]
       /\ terminal <> AuditRunning.
Proof.
  intros Hperm. unfold _run_validation_bg.
  destruct (pipeline_ends completion w Hperm)
    as (t & Ht & [(n & s & f & Hrun)|(e & Hrun)]); rewrite Hrun.
  - cbn [try_except fst snd]. split; [done|]. split; [done|].
    exists (AuditCompleted n s f). by rewrite status_events_app, Ht.
  - cbn [try_except fst snd mret prog_ret]. split; [done|].
    split; [by rewrite app_nil_r|].
    exists (AuditFailed e). by rewrite app_nil_r, status_events_app, Ht.
Qed.

End RunOutcomes.

(* ===================================================================== *)
(** * What the writer hands to the data sheet                            *)
(* ===================================================================== *)

(** Reading a dictionary at its own keys, in order, gives its values. *)
Lemma row_get_own_keys (r : row) :
  od_wf r -> map (row_get r) (map fst r) = map snd r.
Proof.
  unfold od_wf, row_get.
  enough (forall pre, NoDup (map fst (pre ++ r)%list) ->
            map (fun k => default VNone (od_get (pre ++ r)%list k)) (map fst r)
            = map snd r) as Hgen by (apply (Hgen [])).
  induction r as [|[k v] r IH]; intros pre Hnd; simpl; [done|]. f_equal.
  - clear IH. induction pre as [|[k0 v0] pre IHpre]; simpl.
    + by rewrite String.eqb_refl.
    + simpl in Hnd. apply NoDup_cons in Hnd as [Hk0 Hnd].
      destruct (String.eqb_spec k0 k) as [->|Hne]; [|by apply IHpre].
      exfalso. apply Hk0. rewrite map_app. apply elem_of_app. right. by left.
  - specialize (IH (pre ++ [(k, v)])%list). rewrite <- app_assoc in IH.
    by apply IH.
Qed.

(** X20. The writer looks every cell up by the keys of the first record.
    When every record has those keys, in that order, no value is dropped
    or misplaced on the way to the worksheet: the values handed to
    [ws.write] for a record are exactly the values of the record, in its
    order. *)
Theorem writer_hands_over_uniform_records (first : row) (others : list row) :
  od_wf first ->
  Forall (fun r => map fst r = map fst first) others ->
  exists wb,
    write_validated_excel_stream (first :: others) = Some wb
    /\ wb_headers wb = map fst first
    /\ wb_cells wb = map (map snd) (first :: others).
Proof.
  intros Hwf Hkeys. eexists. split; [reflexivity|]. split; [reflexivity|].
  cbn [_write_workbook_bytes wb_cells]. apply map_ext_in. intros r Hr.
  assert (map fst r = map fst first) as Hk.
  { destruct Hr as [<-|Hr]; [done|].
    rewrite Forall_forall in Hkeys. by apply Hkeys, list_elem_of_In. }
  rewrite <- Hk. apply row_get_own_keys. unfold od_wf. by rewrite Hk.
Qed.

Section ArtifactRows.
Context {rt : PyRuntime}.

(** X21. Validated, then written: for records that share their lower-case
    header names, as both readers deliver them, the header names handed to
    the worksheet are those names followed by [Valid] and [Remarks], and
    the values handed to [ws.write] for a record are the cells of the
    input record, unchanged and in order, followed by its verdict and its
    remarks. *)
Theorem written_rows_follow_input
    (headers : list string) (rows : list row) (start : nat)
    (rules : ruleset) (index : dup_index) (uc : list string) (um : string) :
  rows <> [] ->
  Forall lowercase_row rows ->
  Forall (fun r => map fst r = headers) rows ->
  write_validated_excel_stream (validated_from start rows rules index uc um)
  = Some {| wb_headers := (headers ++ ["Valid"; "Remarks"])%list;
            wb_cells :=
              map (fun '(i, r) =>
                     (map snd r
                      ++ [VStr (verdict (violations r i rules index uc um));
                          VStr (remarks (violations r i rules index uc um))])%list)
                  (enumerate start rows) |}.
Proof.
  intros Hne Hlow Hkeys.
  assert (forall i r, lowercase_row r -> map fst r = headers ->
            map fst (validated r i rules index uc um)
            = (headers ++ ["Valid"; "Remarks"])%list
            /\ map snd (validated r i rules index uc um)
               = (map snd r
                  ++ [VStr (verdict (violations r i rules index uc um));
                      VStr (remarks (violations r i rules index uc um))])%list
            /\ od_wf (validated r i rules index uc um)) as Hshape.
  { intros i r Hr Hk. pose proof (normalize_lowercase r Hr) as Hn.
    split; [|split].
    - rewrite validated_shape, Hn, map_app, Hk. done.
    - rewrite validated_shape, Hn, map_app. done.
    - unfold validated. by apply od_set_wf, od_set_wf; rewrite Hn; apply Hr. }
  assert (forall i r, (i, r) ∈ enumerate start rows -> r ∈ rows) as Hmem.
  { clear. generalize start. induction rows as [|x rows IH]; intros n i r; simpl.
    - by intros ?%elem_of_nil.
    - intros [[= _ <-]|Hin]%elem_of_cons; [by left|right; by eapply IH]. }
  rewrite Forall_forall in Hlow, Hkeys.
  assert (map (fun rec => map (row_get rec) (headers ++ ["Valid"; "Remarks"])%list)
            (validated_from start rows rules index uc um)
          = map (fun '(i, r) =>
                   (map snd r
                    ++ [VStr (verdict (violations r i rules index uc um));
                        VStr (remarks (violations r i rules index uc um))])%list)
                (enumerate start rows)) as Hcells.
  { unfold validated_from. rewrite map_map. apply map_ext_in.
    intros [i r] Hin%list_elem_of_In.
    destruct (Hshape i r) as (Hf & Hs & Hwf);
      [by eapply Hlow, Hmem|by eapply Hkeys, Hmem|].
    rewrite <- Hf, <- Hs. by apply row_get_own_keys. }
  destruct rows as [|r0 rows]; [done|]. clear Hne.
  destruct (Hshape start r0) as (Hf0 & _ & _); [apply Hlow; by left|apply Hkeys; by left|].
  unfold write_validated_excel_stream, _write_workbook_bytes.
  change (validated_from start (r0 :: rows) rules index uc um)
    with (validated r0 start rules index uc um
          :: validated_from (S start) rows rules index uc um).
  cbv beta iota zeta. rewrite Hf0. do 2 f_equal. exact Hcells.
Qed.

End ArtifactRows.

(* ===================================================================== *)
(** * Worked runs on the reference run time                              *)
(* ===================================================================== *)

#[local] Existing Instance Cpy.runtime.

Lemma last_first_permutes (batch_start : nat) (results : list (nat * chunk_result)) :
  last_first batch_start results ≡ₚ results.
Proof. unfold last_first. symmetry. apply Permutation_rev. Qed.

Lemma counts_add_up_witness :
  exists t st,
    chunk_scheduler 1 2 last_first sample_rows sample_rules ∅ [] "ignore" = (t, Ok st)
    /\ total_success st + total_failure st = 2.
Proof.
  destruct (@counts_add_up Cpy.runtime last_first 1 2 sample_rows sample_rules
              ∅ [] "ignore" sample_world)
    as (_ & (t & st & Hrun & Hsum & _) & _).
  - lia.
  - lia.
  - apply last_first_permutes.
  - exists t, st. split; [exact Hrun|exact Hsum].
Defined.

Lemma output_order_witness :
  exists t st,
    chunk_scheduler 1 2 last_first sample_rows sample_rules ∅ [] "ignore" = (t, Ok st)
    /\ validated_records st
       = validated_from 1 sample_rows sample_rules ∅ [] "ignore".
Proof.
  destruct (@output_order_is_input_order Cpy.runtime last_first 1 2 sample_rows
              sample_rules ∅ [] "ignore")
    as (t & st & Hrun & Hv & _).
  - lia.
  - lia.
  - apply last_first_permutes.
  - exists t, st. split; [exact Hrun|exact Hv].
Defined.

Lemma duplicate_policy_witness :
  exists index,
    build_duplicate_index sample_rows ["email"] = Ok index
    /\ duplicate_errors (normalize [("email", VStr "a@x.com"); ("age", VStr "bad")])
         2 index ["email"] "fail_all" = ["Duplicate based on email"].
Proof.
  destruct (@duplicate_policy_marks_rows Cpy.runtime sample_rows ["email"]
              sample_rules 1 [("email", VStr "a@x.com"); ("age", VStr "bad")])
    as (index & first & Hbuild & _ & Hall & _).
  - discriminate.
  - apply (bool_decide_unpack _). vm_compute. reflexivity.
  - reflexivity.
  - vm_compute. lia.
  - exists index. split; [exact Hbuild|exact Hall].
Defined.

Lemma required_blank_witness :
  @check_field Cpy.runtime (normalize [("email", VStr "a@x.com"); ("age", VStr "  ")])
    "age" {| required := true; type := Some "int"; regex := None;
             _regex_compiled := None |}
  = Ok ["age is required"].
Proof.
  apply (@required_blank_short_circuits Cpy.runtime
           [("email", VStr "a@x.com"); ("age", VStr "  ")] 1 sample_rules ∅ []
           "ignore" "age").
  - apply list_elem_of_singleton. reflexivity.
  - reflexivity.
  - vm_compute. reflexivity.
Defined.

Lemma whitespace_witness :
  @check_field Cpy.runtime [("age", VStr " ")] "age"
    {| required := false; type := Some "int"; regex := None;
       _regex_compiled := None |}
  = Ok ["age invalid int"]
  /\ @check_field Cpy.runtime [("joined", VInt 0)] "joined"
       {| required := false; type := Some "date"; regex := None;
          _regex_compiled := None |}
     = Ok ["joined invalid date"].
Proof.
  split.
  - destruct (@whitespace_reaches_coercion Cpy.runtime "age"
                {| required := false; type := Some "int"; regex := None;
                   _regex_compiled := None |})
      as (_ & _ & _ & _ & Hspace); [reflexivity|].
    destruct (Hspace [("age", VStr " ")] " ") as (_ & _ & Hraise).
    + reflexivity.
    + discriminate.
    + vm_compute. reflexivity.
    + apply (Hraise (ValueError "invalid literal for int()")).
      vm_compute. reflexivity.
  - destruct (@whitespace_reaches_coercion Cpy.runtime "joined"
                {| required := false; type := Some "date"; regex := None;
                   _regex_compiled := None |})
      as (_ & _ & _ & Hkept & _); [reflexivity|].
    destruct (Hkept [("joined", VInt 0)]) as (Hraise & _).
    + discriminate.
    + discriminate.
    + apply (Hraise (ValueError "Invalid isoformat string")).
      vm_compute. reflexivity.
Defined.

Lemma progress_witness :
  exists t st,
    chunk_scheduler 1 2 last_first sample_rows sample_rules ∅ [] "ignore" = (t, Ok st)
    /\ length (progress_counts t) = 2
    /\ StronglySorted lt (progress_counts t).
Proof.
  destruct (@progress_once_per_chunk Cpy.runtime last_first 1 2 sample_rows
              sample_rules ∅ [] "ignore")
    as (t & st & Hrun & _ & Hlen & Hsorted).
  - lia.
  - lia.
  - apply last_first_permutes.
  - exists t, st. split; [exact Hrun|]. split; [exact Hlen|exact Hsorted].
Defined.

(** C8 as stated fails on the code: a run of one batch of two chunks emits
    two progress events. *)
Lemma progress_per_batch_counterexample :
  length (progress_counts
            (fst (@run_excel_validation_pipeline Cpy.runtime last_first
                    sample_large_world)))
  <> batch_count CHUNK_SIZE WORKERS (length (file_rows sample_large_world)).
Proof. vm_compute. intros H. discriminate H. Qed.



Lemma empty_input_witness :
  snd (@run_excel_validation_pipeline Cpy.runtime last_first sample_empty_world)
  = Raise (AttributeError "'NoneType' object has no attribute 'getvalue'").
Proof.
  destruct (@empty_input_run_fails Cpy.runtime last_first sample_empty_world
              sample_rules_doc sample_rules ["email"] "fail_all")
    as (_ & Hrun & _).
  - apply last_first_permutes.
  - reflexivity.
  - reflexivity.
  - reflexivity.
  - reflexivity.
  - reflexivity.
  - rewrite Hrun. reflexivity.
Defined.

(** A rule document that stores a member ["_regex_compiled"]. *)
Definition sample_stored_doc : json :=
  JObj [("columns", JObj [("age", JObj [("_regex_compiled", JStr "x")])])].

Lemma conversion_failure_witness :
  exists errors vr,
    Dyn._validate_row [("email", VStr "a@x.com"); ("age", VStr "bad")] 2
      (dict_of_rules sample_rules) ∅ [] "ignore" = Ok vr
    /\ "age invalid int" ∈ errors
    /\ od_get vr "Valid" = Some (VStr "Fail")
    /\ od_get vr "Remarks" = Some (VStr (Text.join ", " errors)).
Proof.
  destruct (@validate_row_captures_conversion_failures Cpy.runtime
              [("email", VStr "a@x.com"); ("age", VStr "bad")] 2
              (dict_of_rules sample_rules) ∅ [] "ignore")
    as (errors & vr & _ & Hrow & _ & _ & Hcaptured).
  - constructor; [exact I|]. constructor; [exact I|constructor].
  - constructor; [exact I|constructor].
  - destruct (Hcaptured "age"
                [("required", Stored (JBool true)); ("type", Stored (JStr "int"))]
                (ValueError "invalid literal for int()"))
      as (_ & _ & Hmem & HValid & HRemarks).
    + apply list_elem_of_singleton. reflexivity.
    + vm_compute. reflexivity.
    + reflexivity.
    + vm_compute. reflexivity.
    + exists errors, vr.
      split; [exact Hrow|]. split; [exact Hmem|]. split; [exact HValid|exact HRemarks].
Defined.

Lemma too_long_at_limit : too_long (10 ^ int_max_str_digits) = true.
Proof.
  unfold too_long. apply Z.leb_le.
  rewrite Z.abs_eq; [reflexivity|]. apply Z.pow_nonneg. discriminate.
Qed.

(** The test of a required field converts the cell to text outside the
    [try] block. *)
Lemma required_test_raises (n : Z) :
  too_long n = true ->
  exists msg,
    @Dyn._validate_row Cpy.runtime [("age", VInt n)] 1
      [("age", [("required", Stored (JBool true))])] ∅ [] "ignore"
    = Raise (ValueError msg).
Proof.
  intros Hn. eexists.
  unfold Dyn._validate_row, Dyn.row_errors, Dyn.field_errors.
  change (normalize [("age", VInt n)]) with [("age", VInt n)].
  cbn [foldM]. unfold Dyn.check_field.
  change (row_get [("age", VInt n)] "age") with (VInt n).
  change (Dyn.member_truthy (od_get [("required", Stored (JBool true))] "required"))
    with true.
  unfold Dyn.blank, Dyn.py_str. cbn [is_none]. rewrite Hn. reflexivity.
Qed.

(** C9 as stated fails on the code: the test of a required field and the
    pattern match are outside the [try] block, so an [int] that does not
    convert to text and a stored ["_regex_compiled"] that is no pattern
    make [_validate_row] raise. *)
Lemma validate_row_raises_outside_try :
  (exists rules,
      @Dyn.prep_rules_from_dict Cpy.runtime sample_stored_doc = Ok (rules, [], "ignore")
      /\ @Dyn._validate_row Cpy.runtime [("age", VStr "30")] 1 rules ∅ [] "ignore"
         = Raise (AttributeError "'str' object has no attribute 'match'"))
  /\ (exists msg,
        @Dyn._validate_row Cpy.runtime [("age", VInt (10 ^ 4300))] 1
          [("age", [("required", Stored (JBool true))])] ∅ [] "ignore"
        = Raise (ValueError msg))
  /\ ~ (forall r row_index rules index uc um,
          exists vr, @Dyn._validate_row Cpy.runtime r row_index rules index uc um = Ok vr).
Proof.
  split; [|split].
  - exists [("age", [("_regex_compiled", Stored (JStr "x"))])].
    split; vm_compute; reflexivity.
  - apply required_test_raises, too_long_at_limit.
  - intros Hall.
    destruct (Hall [("age", VStr "30")] 1
                [("age", [("_regex_compiled", Stored (JStr "x"))])] ∅ [] "ignore")
      as [vr Hvr].
    vm_compute in Hvr. discriminate Hvr.
Qed.

(* ===================================================================== *)
(** * Further worked examples                                            *)
(* ===================================================================== *)

(** A sheet whose header cells carry blanks and capitals. *)
Definition sample_header_row : list value := [VStr " Email "; VStr "AGE"].

Definition sample_data_rows : list (list value) :=
  [ [VStr "a@x.com"; VInt 30]; [VStr "a@x.com"] ].

(** An object that is neither a workbook nor delimited text. *)
Definition sample_pdf_world : world :=
  {| content_type := Some "application/pdf";
     file_rows := sample_rows;
     rules_json := Some sample_rules_doc |}.

(** A run for which no rules are stored. *)
Definition sample_no_rules_world : world :=
  {| content_type := Some "text/csv";
     file_rows := sample_rows;
     rules_json := None |}.

(** A sheet with a cell that holds a time of day. *)
Definition sample_dated_world : world :=
  {| content_type :=
       Some "application/vnd.openxmlformats-officedocument.spreadsheetml.sheet";
     file_rows := [ [("email", VStr "a@x.com"); ("age", VInt 30);
                     ("start", VDate (PyTime 9 30 0 0))] ];
     rules_json := Some sample_rules_doc |}.

Lemma reader_records_by_header_witness :
  exists r,
    stream_excel_records sample_header_row sample_data_rows !! 1 = Some r
    /\ od_get r "email" = Some (VStr "a@x.com")
    /\ od_get r "age" = Some VNone.
Proof.
  destruct (reader_records_by_header sample_header_row sample_data_rows
              [" Email "; "AGE"] [["a@x.com"; "30"]; ["a@x.com"]]
              1 [VStr "a@x.com"] ["a@x.com"] "age")
    as (_ & _ & (r & Hr & Hage) & _).
  - reflexivity.
  - reflexivity.
  - exists r. split; [exact Hr|]. split.
    + vm_compute in Hr. injection Hr as <-. reflexivity.
    + rewrite Hage. reflexivity.
Defined.

Lemma sheet_duplicates_witness :
  exists index,
    build_duplicate_index (stream_excel_records sample_header_row sample_data_rows)
      ["email"] = Ok index
    /\ msg_duplicate ["email"]
       ∈ violations [("email", VStr "a@x.com"); ("age", VNone)] 2 [] index
           ["email"] "fail_all".
Proof.
  apply (sheet_duplicates_are_marked sample_header_row sample_data_rows ["email"] []
           1 [("email", VStr "a@x.com"); ("age", VNone)]).
  - discriminate.
  - reflexivity.
  - vm_compute. lia.
Defined.

Lemma prepared_rules_witness :
  exists rules,
    prep_rules_from_dict sample_rules_doc = Ok (rules, ["email"], "fail_all")
    /\ od_wf rules
    /\ od_get rules "Age" = None.
Proof.
  destruct (prepared_rules_are_case_folded sample_rules_doc)
    as (rules & Hprep & Hwf & _ & Hget).
  - constructor; [|constructor].
    intros (p & Hp & _). discriminate Hp.
  - exists rules. split; [exact Hprep|]. split; [exact Hwf|].
    rewrite Hget. reflexivity.
Defined.

Lemma unique_rows_witness :
  exists index,
    build_duplicate_index sample_rows ["age"] = Ok index
    /\ duplicate_errors (normalize [("email", VStr "a@x.com"); ("age", VStr "30")])
         1 index ["age"] "fail_all" = [].
Proof.
  destruct (build_duplicate_index_ok sample_rows ["age"]) as [index Hindex].
  exists index. split; [exact Hindex|].
  apply (unique_rows_are_not_marked sample_rows ["age"] "fail_all" index
           [("email", VStr "a@x.com"); ("age", VStr "30")] 1).
  - discriminate.
  - apply (bool_decide_unpack _). vm_compute. reflexivity.
  - exact Hindex.
  - vm_compute. lia.
Defined.

Lemma unknown_mode_witness :
  row_errors [("email", VStr "a@x.com"); ("age", VStr "bad")] 2 sample_rules ∅
    ["email"] "keep_last"
  = field_errors (normalize [("email", VStr "a@x.com"); ("age", VStr "bad")])
      sample_rules.
Proof.
  apply (unknown_mode_marks_nothing
           [("email", VStr "a@x.com"); ("age", VStr "bad")] 2 sample_rules ∅
           ["email"] "keep_last").
  - discriminate.
  - discriminate.
Defined.


Lemma validation_keeps_fields_witness :
  exists errors,
    _validate_row [("email", VStr "a@x.com"); ("age", VStr "bad")] 2 sample_rules ∅
      [] "ignore"
    = Ok ([("email", VStr "a@x.com"); ("age", VStr "bad")]
          ++ [("Valid", VStr (verdict errors));
              ("Remarks", VStr (remarks errors))])%list.
Proof.
  destruct (validation_keeps_fields
              [("email", VStr "a@x.com"); ("age", VStr "bad")] 2 sample_rules ∅
              [] "ignore")
    as (errors & _ & Hrow & _).
  - apply (bool_decide_unpack _). vm_compute. reflexivity.
  - exists errors. exact Hrow.
Defined.

Lemma rows_without_key_fields_witness :
  exists index,
    build_duplicate_index [[("name", VStr "a")]; [("name", VStr "b")]] ["email"]
    = Ok index
    /\ msg_duplicate ["email"]
       ∈ violations [("name", VStr "a")] 1 [] index ["email"] "fail_all"
    /\ msg_duplicate ["email"]
       ∈ violations [("name", VStr "b")] 2 [] index ["email"] "fail_all".
Proof.
  apply (rows_without_key_fields_collide
           [[("name", VStr "a")]; [("name", VStr "b")]] ["email"] [] 0 1
           [("name", VStr "a")] [("name", VStr "b")]).
  - discriminate.
  - apply (bool_decide_unpack _). vm_compute. reflexivity.
  - discriminate.
  - reflexivity.
  - reflexivity.
  - constructor; [reflexivity|constructor].
  - constructor; [reflexivity|constructor].
Defined.

Lemma scheduler_one_pass_witness :
  exists t st,
    chunk_scheduler 1 2 last_first sample_rows sample_rules ∅ [] "ignore" = (t, Ok st)
    /\ validate_chunk sample_rows 1 sample_rules ∅ [] "ignore"
       = Ok (validated_records st, total_success st, total_failure st).
Proof.
  apply (scheduler_equals_one_pass last_first 1 2 sample_rows sample_rules ∅ []
           "ignore").
  - lia.
  - lia.
  - apply last_first_permutes.
Defined.

Lemma unsupported_content_type_witness :
  fails_before_reading (fst (run_excel_validation_pipeline last_first sample_pdf_world)).
Proof.
  apply (unsupported_content_type_reads_nothing last_first sample_pdf_world).
  vm_compute. reflexivity.
Defined.

Lemma missing_rules_witness :
  RecordsLoaded 2 ∈ fst (run_excel_validation_pipeline last_first sample_no_rules_world).
Proof.
  apply (missing_rules_fail_after_loading last_first sample_no_rules_world).
  - vm_compute. reflexivity.
  - reflexivity.
Defined.

Lemma date_cells_witness :
  exists wb msg,
    snd (run_excel_validation_pipeline last_first sample_dated_world)
    = Raise (TypeError msg)
    /\ uploads (fst (run_excel_validation_pipeline last_first sample_dated_world))
       = [ExcelArtifact wb].
Proof.
  destruct (date_cells_fail_after_excel_upload last_first sample_dated_world
              sample_rules_doc sample_rules ["email"] "fail_all")
    as (wb & msg & Hrun & Hup & _).
  - apply last_first_permutes.
  - vm_compute. reflexivity.
  - reflexivity.
  - reflexivity.
  - vm_compute. reflexivity.
  - apply (bool_decide_unpack _). vm_compute. reflexivity.
  - vm_compute. reflexivity.
  - exists wb, msg. split; [exact Hrun|exact Hup].
Defined.

Lemma clean_run_witness :
  exists index s f,
    build_duplicate_index sample_rows ["email"] = Ok index
    /\ Dyn.validate_chunk sample_rows 1 (dict_of_rules sample_rules) index ["email"]
         "fail_all"
       = Ok (validated_from 1 sample_rows sample_rules index ["email"] "fail_all", s, f)
    /\ s + f = 2
    /\ snd (run_excel_validation_pipeline last_first sample_world) = Ok tt.
Proof.
  destruct (clean_run_completes last_first sample_world
              sample_rules_doc sample_rules ["email"] "fail_all")
    as (index & wb & s & f & Hindex & _ & Hpass & Hsum & _ & Hrun).
  - apply last_first_permutes.
  - vm_compute. reflexivity.
  - reflexivity.
  - reflexivity.
  - vm_compute. reflexivity.
  - discriminate.
  - repeat (constructor; [repeat (constructor; [exact I|]); constructor|]).
    constructor.
  - vm_compute. reflexivity.
  - exists index, s, f. split; [exact Hindex|]. split; [exact Hpass|].
    split; [exact Hsum|]. rewrite Hrun. reflexivity.
Defined.

Lemma terminal_status_witness :
  (exists n s f,
      status_events (fst (run_excel_validation_pipeline last_first sample_bad_world))
      = [AuditRunning; AuditCompleted n s f]
      /\ snd (run_excel_validation_pipeline last_first sample_bad_world) = Ok tt)
  \/ (exists e,
        status_events (fst (run_excel_validation_pipeline last_first sample_bad_world))
        = [AuditRunning; AuditFailed e]
        /\ snd (run_excel_validation_pipeline last_first sample_bad_world) = Raise e
        /\ last (fst (run_excel_validation_pipeline last_first sample_bad_world))
           = Some (Publish (WsError e))).
Proof.
  apply (run_sets_one_terminal_status last_first sample_bad_world).
  apply last_first_permutes.
Defined.

Lemma background_run_witness :
  snd (_run_validation_bg last_first sample_bad_world) = Ok tt.
Proof.
  apply (background_run_never_raises last_first sample_bad_world).
  apply last_first_permutes.
Defined.

Lemma writer_hands_over_witness :
  exists wb,
    write_validated_excel_stream
      [ [("email", VStr "a@x.com"); ("Valid", VStr "Success")];
        [("email", VStr "b@x.com"); ("Valid", VStr "Fail")] ] = Some wb
    /\ wb_headers wb = ["email"; "Valid"]
    /\ wb_cells wb = [ [VStr "a@x.com"; VStr "Success"];
                       [VStr "b@x.com"; VStr "Fail"] ].
Proof.
  apply (writer_hands_over_uniform_records
           [("email", VStr "a@x.com"); ("Valid", VStr "Success")]
           [ [("email", VStr "b@x.com"); ("Valid", VStr "Fail")] ]).
  - apply (bool_decide_unpack _). vm_compute. reflexivity.
  - constructor; [reflexivity|constructor].
Defined.

Lemma written_rows_witness :
  exists wb,
    write_validated_excel_stream
      (validated_from 1 sample_rows sample_rules ∅ [] "ignore") = Some wb
    /\ wb_headers wb = ["email"; "age"; "Valid"; "Remarks"].
Proof.
  eexists. split.
  - apply (written_rows_follow_input ["email"; "age"] sample_rows 1 sample_rules ∅
             [] "ignore").
    + discriminate.
    + apply (bool_decide_unpack _). vm_compute. reflexivity.
    + constructor; [reflexivity|].
      constructor; [reflexivity|constructor].
  - reflexivity.
Defined.

(** Rule documents that preparation rejects, with the exception of each:
    a null mode, a null uniqueness key, a rule that is a [str], a pattern
    that is a number, a pattern that does not compile. *)
Lemma preparation_failure_examples :
  Dyn.prep_rules_from_dict (JObj [("unique_mode", JNull)])
  = Raise (AttributeError "'NoneType' object has no attribute 'lower'")
  /\ Dyn.prep_rules_from_dict (JObj [("unique_constraints", JNull)])
     = Raise (TypeError "'NoneType' object is not iterable")
  /\ Dyn.prep_rules_from_dict (JObj [("columns", JObj [("age", JStr "ab")])])
     = Raise (ValueError
                "dictionary update sequence element #0 has length 1; 2 is required")
  /\ Dyn.prep_rules_from_dict
       (JObj [("columns", JObj [("age", JObj [("regex", JInt 5)])])])
     = Raise (TypeError "first argument must be string or compiled pattern")
  /\ Dyn.prep_rules_from_dict
       (JObj [("columns", JObj [("age", JObj [("regex", JStr "(")])])])
     = Raise (ReError "(")
  /\ Dyn.prep_rules_from_dict
       (JObj [("columns", JObj [("Age", JArr [JArr [JStr "type"; JStr "int"]])]);
              ("unique_constraints", JStr "AB")])
     = Ok ([("age", [("type", Stored (JStr "int"))])], ["a"; "b"], "ignore").
Proof. repeat split; vm_compute; reflexivity. Qed.

Lemma stored_compiled_member_witness :
  Dyn._validate_row [("age", VStr "30")] 1
    [("age", [("_regex_compiled", Stored (JStr "x"))])] ∅ [] "ignore"
  = Raise (AttributeError "'str' object has no attribute 'match'").
Proof.
  apply (stored_compiled_member_fails_row [("age", VStr "30")] 1 [] [] "age"
           [("_regex_compiled", Stored (JStr "x"))] (JStr "x") ∅ [] "ignore").
  - constructor; [exact I|constructor].
  - constructor.
  - reflexivity.
  - reflexivity.
  - reflexivity.
  - reflexivity.
  - reflexivity.
Defined.
